(** * offline-web: the offline-write reconciliation core of [script.js]

    A shallow embedding of class [OfflineTodoApp]: the task collection, the
    pending-mutation queue, the drain ([syncData]) and the durable store.

    JavaScript objects are shared by reference.  A todo object lives in a
    heap and is named by its location; [this.todos] is an array of
    locations, and a queue entry built by [addToPendingSync(action, todo)]
    holds the location of that same object, not a copy.  The array held by
    [this.pendingSync] is an object too: a drain in flight keeps iterating
    the array it started on, also after [this.pendingSync = []] has put a
    new array in the field.

    An [async] function runs synchronously up to its next [await]; what is
    left of [syncData] after an [await] is a [Drain] record that the event
    loop resumes when the awaited call settles.

    The service worker and the DOM side of the class ([render],
    [updateOnlineStatus], [updateFilterButtons], the filter buttons) do
    not touch the state described here and are left out; [console]
    output is not recorded. *)

From Stdlib Require Import Ascii String ZArith QArith Qabs Qround Lia.
From stdpp Require Import base list sorting strings.

Close Scope Q_scope.
#[local] Set Warnings "-register-all".
Open Scope string_scope.
Open Scope list_scope.
Open Scope Z_scope.

(** ** Strings: [String.prototype.trim] *)

(** White space and line terminators among the code units below 256:
    TAB, LF, VT, FF, CR, SPACE and NBSP. *)
Definition is_ws (c : ascii) : bool :=
  let n := nat_of_ascii c in
  ((9 <=? n) && (n <=? 13) || (n =? 32) || (n =? 160))%nat.

Fixpoint trimStart (s : string) : string :=
  match s with
  | EmptyString => EmptyString
  | String c r => if is_ws c then trimStart r else s
  end.

Fixpoint trimEnd (s : string) : string :=
  match s with
  | EmptyString => EmptyString
  | String c r =>
      match trimEnd r with
      | EmptyString => if is_ws c then EmptyString else String c EmptyString
      | r' => String c r'
      end
  end.

Definition trim (s : string) : string := trimEnd (trimStart s).

(** Truthiness of a string: only the empty string is falsy. *)
Definition truthy_string (s : string) : bool :=
  match s with EmptyString => false | String _ _ => true end.

(** Truthiness of a number as [if (item.data.id)] tests it. *)
Definition truthy_number (n : Z) : bool := negb (n =? 0).

(** ** Numbers: [+] on two Numbers

    A Number is a binary64 value; the finite ones are rationals and are
    kept as such. *)

(** [floor (log2 q)] for a positive rational: it is the difference of the
    bit lengths of numerator and denominator, or one less. *)
Definition floor_log2 (q : Q) : Z :=
  let e := Z.log2 (Qnum q) - Z.log2 (Zpos (Qden q)) in
  if Qle_bool (Qpower 2 e) q then e else e - 1.

(** The nearest integer, the even one of the two when [q] is half way. *)
Definition round_half_even (q : Q) : Z :=
  let f := Qfloor q in
  match Qcompare (Qminus q (inject_Z f)) (Qmake 1 2) with
  | Lt => f
  | Gt => f + 1
  | Eq => if Z.even f then f else f + 1
  end.

(** The binary64 value nearest to [q], ties to even: 53 significant bits,
    and from exponent -1022 down the fixed spacing of the subnormals.
    Magnitudes from 2^1024 on, which round to an infinity, are not
    described; no sum of a clock reading and a number below 1 comes near
    them. *)
Definition binary64 (q : Q) : Q :=
  if Qeq_bool q 0 then Qmake 0 1
  else
    let e := Z.max (floor_log2 (Qabs q)) (-1022) in
    let ulp := Qpower 2 (e - 52) in
    Qred (Qmult (inject_Z (round_half_even (Qdiv q ulp))) ulp).

(** [x + y]: the exact sum, rounded. *)
Definition Number_add (x y : Q) : Q := binary64 (Qplus x y).
Arguments Number_add : simpl never.

(** ** Data model *)

Inductive SyncStatus := synced | pending.

Record Todo := {
  todo_id : Z;
  text : string;
  completed : bool;
  createdAt : string;
  lastModified : string;
  syncStatus : SyncStatus
}.

Inductive Action := create | update | delete.

(** Heap locations of todo objects. *)
Abbreviation loc := nat (only parsing).

(** The [data] of a queue entry: the todo object itself (by reference) for
    [create] and [update], the literal [{ id }] for [delete]. *)
Inductive Data :=
| TodoRef (l : loc)
| IdOnly (i : Z).

(** [item_id] is the Number [Date.now() + Math.random()]. *)
Record SyncItem := {
  item_id : Q;
  action : Action;
  data : Data;
  timestamp : string
}.

(** The readings a handler takes from its environment: [Date.now()],
    [new Date().toISOString()] and [Math.random()], a Number from 0 up to
    but not including 1. *)
Record Clock := {
  Date_now : Z;
  Date_iso : string;
  Math_random : Q
}.

(** Notification types of [showNotification]. *)
Inductive NoteType := Info | Success | Error.

(** How an awaited remote call settles: the promise resolves with
    [{ success }] or it rejects. *)
Inductive ApiOutcome :=
| Resolved (success : bool)
| Rejected.

(** The part of [syncData] that is suspended at its [await]: the array the
    [for ... of] iterates (by identity), the iterator's next index, and
    the loop variable [item]. *)
Record Drain := {
  d_array : nat;
  d_next : nat;
  d_item : SyncItem
}.

(** ** Durable store *)

Inductive JSValue :=
| JNull
| JBool (b : bool)
| JNum (q : Q)
| JStr (s : string)
| JArr (elems : list JSValue)
| JObj (fields : list (string * JSValue)).

(** A string held by [localStorage], seen through what [JSON.parse] does
    with it: [JsonText v] is a text that parses to [v]; [BadText raw] is a
    text on which [JSON.parse] throws. *)
Inductive StoredText :=
| JsonText (v : JSValue)
| BadText (raw : string).

Definition truthy_text (t : StoredText) : bool :=
  match t with
  | JsonText _ => true
  | BadText raw => truthy_string raw
  end.

Inductive Key := K_todos | K_pendingSync.

(** [ls_denied]: every access to the store raises (storage disabled);
    [ls_full]: writes raise (quota exceeded). *)
Record Storage := {
  ls_todos : option StoredText;
  ls_pendingSync : option StoredText;
  ls_denied : bool;
  ls_full : bool
}.

(** A computation that may throw. *)
Inductive Try (A : Type) :=
| Ok (a : A)
| Throw.
Arguments Ok {A} a.
Arguments Throw {A}.

Definition getItem (k : Key) (ls : Storage) : Try (option StoredText) :=
  if ls_denied ls then Throw
  else Ok (match k with K_todos => ls_todos ls | K_pendingSync => ls_pendingSync ls end).

Definition setItem (k : Key) (t : StoredText) (ls : Storage) : Try Storage :=
  if ls_denied ls || ls_full ls then Throw
  else Ok (match k with
           | K_todos =>
               {| ls_todos := Some t; ls_pendingSync := ls_pendingSync ls;
                  ls_denied := ls_denied ls; ls_full := ls_full ls |}
           | K_pendingSync =>
               {| ls_todos := ls_todos ls; ls_pendingSync := Some t;
                  ls_denied := ls_denied ls; ls_full := ls_full ls |}
           end).

Definition JSON_parse (t : StoredText) : Try JSValue :=
  match t with
  | JsonText v => Ok v
  | BadText _ => Throw
  end.

(** [try { const stored = getItem(k); return stored ? JSON.parse(stored) : [] }
     catch { return [] }] *)
Definition load (k : Key) (ls : Storage) : JSValue :=
  match getItem k ls with
  | Throw => JArr []
  | Ok None => JArr []
  | Ok (Some stored) =>
      if truthy_text stored then
        match JSON_parse stored with
        | Ok v => v
        | Throw => JArr []
        end
      else JArr []
  end.

Definition loadTodos (ls : Storage) : JSValue := load K_todos ls.
Definition loadPendingSync (ls : Storage) : JSValue := load K_pendingSync ls.

(** ** Application state *)

Record App := {
  heap : list Todo;                      (* todo objects, by location *)
  todos : list loc;                      (* this.todos *)
  pendingSync : list SyncItem;           (* the array in this.pendingSync *)
  detached : list (list SyncItem);       (* earlier pendingSync arrays *)
  isOnline : bool;
  editingId : option Z;
  todoInput : string;                    (* this.todoInput.value *)
  syncing : bool;                        (* syncIndicator shows 'syncing' *)
  notifications : list (string * NoteType);
  localStorage : Storage;
  remoteCalls : list (Action * Data);    (* calls issued to the remote *)
  drains : list Drain                    (* suspended syncData calls *)
}.

Definition set_heap (h : list Todo) (s : App) : App :=
  {| heap := h; todos := todos s; pendingSync := pendingSync s;
     detached := detached s; isOnline := isOnline s; editingId := editingId s;
     todoInput := todoInput s; syncing := syncing s;
     notifications := notifications s; localStorage := localStorage s;
     remoteCalls := remoteCalls s; drains := drains s |}.

Definition set_todos (t : list loc) (s : App) : App :=
  {| heap := heap s; todos := t; pendingSync := pendingSync s;
     detached := detached s; isOnline := isOnline s; editingId := editingId s;
     todoInput := todoInput s; syncing := syncing s;
     notifications := notifications s; localStorage := localStorage s;
     remoteCalls := remoteCalls s; drains := drains s |}.

Definition set_pendingSync (q : list SyncItem) (s : App) : App :=
  {| heap := heap s; todos := todos s; pendingSync := q;
     detached := detached s; isOnline := isOnline s; editingId := editingId s;
     todoInput := todoInput s; syncing := syncing s;
     notifications := notifications s; localStorage := localStorage s;
     remoteCalls := remoteCalls s; drains := drains s |}.

Definition set_detached (d : list (list SyncItem)) (s : App) : App :=
  {| heap := heap s; todos := todos s; pendingSync := pendingSync s;
     detached := d; isOnline := isOnline s; editingId := editingId s;
     todoInput := todoInput s; syncing := syncing s;
     notifications := notifications s; localStorage := localStorage s;
     remoteCalls := remoteCalls s; drains := drains s |}.

Definition set_isOnline (b : bool) (s : App) : App :=
  {| heap := heap s; todos := todos s; pendingSync := pendingSync s;
     detached := detached s; isOnline := b; editingId := editingId s;
     todoInput := todoInput s; syncing := syncing s;
     notifications := notifications s; localStorage := localStorage s;
     remoteCalls := remoteCalls s; drains := drains s |}.

Definition set_editingId (e : option Z) (s : App) : App :=
  {| heap := heap s; todos := todos s; pendingSync := pendingSync s;
     detached := detached s; isOnline := isOnline s; editingId := e;
     todoInput := todoInput s; syncing := syncing s;
     notifications := notifications s; localStorage := localStorage s;
     remoteCalls := remoteCalls s; drains := drains s |}.

Definition set_todoInput (v : string) (s : App) : App :=
  {| heap := heap s; todos := todos s; pendingSync := pendingSync s;
     detached := detached s; isOnline := isOnline s; editingId := editingId s;
     todoInput := v; syncing := syncing s;
     notifications := notifications s; localStorage := localStorage s;
     remoteCalls := remoteCalls s; drains := drains s |}.

Definition set_syncing (b : bool) (s : App) : App :=
  {| heap := heap s; todos := todos s; pendingSync := pendingSync s;
     detached := detached s; isOnline := isOnline s; editingId := editingId s;
     todoInput := todoInput s; syncing := b;
     notifications := notifications s; localStorage := localStorage s;
     remoteCalls := remoteCalls s; drains := drains s |}.

Definition set_notifications (n : list (string * NoteType)) (s : App) : App :=
  {| heap := heap s; todos := todos s; pendingSync := pendingSync s;
     detached := detached s; isOnline := isOnline s; editingId := editingId s;
     todoInput := todoInput s; syncing := syncing s;
     notifications := n; localStorage := localStorage s;
     remoteCalls := remoteCalls s; drains := drains s |}.

Definition set_localStorage (ls : Storage) (s : App) : App :=
  {| heap := heap s; todos := todos s; pendingSync := pendingSync s;
     detached := detached s; isOnline := isOnline s; editingId := editingId s;
     todoInput := todoInput s; syncing := syncing s;
     notifications := notifications s; localStorage := ls;
     remoteCalls := remoteCalls s; drains := drains s |}.

Definition set_remoteCalls (c : list (Action * Data)) (s : App) : App :=
  {| heap := heap s; todos := todos s; pendingSync := pendingSync s;
     detached := detached s; isOnline := isOnline s; editingId := editingId s;
     todoInput := todoInput s; syncing := syncing s;
     notifications := notifications s; localStorage := localStorage s;
     remoteCalls := c; drains := drains s |}.

Definition set_drains (d : list Drain) (s : App) : App :=
  {| heap := heap s; todos := todos s; pendingSync := pendingSync s;
     detached := detached s; isOnline := isOnline s; editingId := editingId s;
     todoInput := todoInput s; syncing := syncing s;
     notifications := notifications s; localStorage := localStorage s;
     remoteCalls := remoteCalls s; drains := d |}.

(** ** Serialisation: [JSON.stringify] of the two collections *)

Definition JSON_of_status (st : SyncStatus) : JSValue :=
  match st with synced => JStr "synced" | pending => JStr "pending" end.

Definition JSON_of_action (a : Action) : JSValue :=
  match a with
  | create => JStr "create"
  | update => JStr "update"
  | delete => JStr "delete"
  end.

Definition JSON_of_todo (t : Todo) : JSValue :=
  JObj [("id", JNum (inject_Z (todo_id t)));
        ("text", JStr (text t));
        ("completed", JBool (completed t));
        ("createdAt", JStr (createdAt t));
        ("lastModified", JStr (lastModified t));
        ("syncStatus", JSON_of_status (syncStatus t))].

Definition JSON_of_ref (h : list Todo) (l : loc) : JSValue :=
  match h !! l with
  | Some t => JSON_of_todo t
  | None => JNull
  end.

Definition JSON_of_data (h : list Todo) (d : Data) : JSValue :=
  match d with
  | TodoRef l => JSON_of_ref h l
  | IdOnly i => JObj [("id", JNum (inject_Z i))]
  end.

Definition JSON_of_item (h : list Todo) (it : SyncItem) : JSValue :=
  JObj [("id", JNum (item_id it));
        ("action", JSON_of_action (action it));
        ("data", JSON_of_data h (data it));
        ("timestamp", JStr (timestamp it))].

Definition stringify_todos (s : App) : StoredText :=
  JsonText (JArr (map (JSON_of_ref (heap s)) (todos s))).

Definition stringify_pendingSync (s : App) : StoredText :=
  JsonText (JArr (map (JSON_of_item (heap s)) (pendingSync s))).

(** [saveTodos] and [savePendingSync]: a failing write is caught and
    logged, the store keeps what it had. *)
Definition saveTodos (s : App) : App :=
  match setItem K_todos (stringify_todos s) (localStorage s) with
  | Ok ls => set_localStorage ls s
  | Throw => s
  end.

Definition savePendingSync (s : App) : App :=
  match setItem K_pendingSync (stringify_pendingSync s) (localStorage s) with
  | Ok ls => set_localStorage ls s
  | Throw => s
  end.

(** ** Small pieces of the class *)

Definition showSyncIndicator (show : bool) (s : App) : App := set_syncing show s.

Definition showNotification (message : string) (type : NoteType) (s : App) : App :=
  set_notifications (notifications s ++ [(message, type)]) s.

(** The Remote Sync Client of this repository: after its delay it
    resolves with [{ success: true }]. *)
Definition simulateApiCall (a : Action) (d : Data) : ApiOutcome := Resolved true.

(** Issuing a call to the remote, whatever the client behind it. *)
Definition call_remote (a : Action) (d : Data) (s : App) : App :=
  set_remoteCalls (remoteCalls s ++ [(a, d)]) s.

(** [t.id === id] for the object at location [l]. *)
Definition has_id (h : list Todo) (i : Z) (l : loc) : bool :=
  match h !! l with
  | Some t => todo_id t =? i
  | None => false
  end.

(** [this.todos.find(t => t.id === id)] *)
Definition find_todo (i : Z) (s : App) : option loc :=
  find (has_id (heap s) i) (todos s).

(** [item.data.id] *)
Definition data_id (h : list Todo) (d : Data) : option Z :=
  match d with
  | TodoRef l => todo_id <$> h !! l
  | IdOnly i => Some i
  end.

Definition addToPendingSync (a : Action) (d : Data) (c : Clock) (s : App) : App :=
  let syncItem :=
    {| item_id := Number_add (inject_Z (Date_now c)) (Math_random c);
       action := a;
       data := d;
       timestamp := Date_iso c |} in
  savePendingSync (set_pendingSync (pendingSync s ++ [syncItem]) s).

Definition status_now (s : App) : SyncStatus :=
  if isOnline s then synced else pending.

(** ** The mutation API *)

Definition addTodo (c : Clock) (s : App) : App :=
  let txt := trim (todoInput s) in
  if negb (truthy_string txt) then s
  else
    let todo :=
      {| todo_id := Date_now c;
         text := txt;
         completed := false;
         createdAt := Date_iso c;
         lastModified := Date_iso c;
         syncStatus := status_now s |} in
    let l := length (heap s) in
    let s1 := set_todos (l :: todos s) (set_heap (heap s ++ [todo]) s) in
    let s2 := set_todoInput "" s1 in
    let s3 := if negb (isOnline s2) then addToPendingSync create (TodoRef l) c s2 else s2 in
    let s4 := saveTodos s3 in
    if isOnline s4 then call_remote create (TodoRef l) s4 else s4.

Definition toggled (c : Clock) (st : SyncStatus) (t : Todo) : Todo :=
  {| todo_id := todo_id t;
     text := text t;
     completed := negb (completed t);
     createdAt := createdAt t;
     lastModified := Date_iso c;
     syncStatus := st |}.

Definition toggleTodo (i : Z) (c : Clock) (s : App) : App :=
  match find_todo i s with
  | Some l =>
      let s1 := set_heap (alter (toggled c (status_now s)) l (heap s)) s in
      let s2 := if negb (isOnline s1) then addToPendingSync update (TodoRef l) c s1 else s1 in
      let s3 := saveTodos s2 in
      if isOnline s3 then call_remote update (TodoRef l) s3 else s3
  | None => s
  end.

Definition deleteTodo (i : Z) (c : Clock) (s : App) : App :=
  match find_todo i s with
  | Some _ =>
      let s1 := set_todos (filter (fun l => has_id (heap s) i l = false) (todos s)) s in
      let s2 := if negb (isOnline s1) then addToPendingSync delete (IdOnly i) c s1 else s1 in
      let s3 := saveTodos s2 in
      if isOnline s3 then call_remote delete (IdOnly i) s3 else s3
  | None => s
  end.

Definition startEdit (i : Z) (s : App) : App := set_editingId (Some i) s.

Definition edited (newText : string) (c : Clock) (st : SyncStatus) (t : Todo) : Todo :=
  {| todo_id := todo_id t;
     text := trim newText;
     completed := completed t;
     createdAt := createdAt t;
     lastModified := Date_iso c;
     syncStatus := st |}.

Definition saveEdit (i : Z) (newText : string) (c : Clock) (s : App) : App :=
  match find_todo i s with
  | Some l =>
      if truthy_string (trim newText) then
        let s1 := set_heap (alter (edited newText c (status_now s)) l (heap s)) s in
        let s2 := set_editingId None s1 in
        let s3 := if negb (isOnline s2) then addToPendingSync update (TodoRef l) c s2 else s2 in
        let s4 := saveTodos s3 in
        if isOnline s4 then call_remote update (TodoRef l) s4 else s4
      else s
  | None => s
  end.

Definition cancelEdit (s : App) : App := set_editingId None s.

(** ** The drain: [syncData] *)

(** The array object with identity [a]: the one now in [this.pendingSync]
    has identity [length (detached s)], the earlier ones are kept in
    [detached] at their own index. *)
Definition array_at (s : App) (a : nat) : list SyncItem :=
  if (a =? length (detached s))%nat then pendingSync s
  else default [] (detached s !! a).

Definition set_synced (t : Todo) : Todo :=
  {| todo_id := todo_id t;
     text := text t;
     completed := completed t;
     createdAt := createdAt t;
     lastModified := lastModified t;
     syncStatus := synced |}.

(** [if (item.data.id) { const todo = find(...); if (todo) todo.syncStatus = 'synced' }] *)
Definition mark_synced (it : SyncItem) (s : App) : App :=
  match data_id (heap s) (data it) with
  | Some i =>
      if truthy_number i then
        match find_todo i s with
        | Some l => set_heap (alter set_synced l (heap s)) s
        | None => s
        end
      else s
  | None => s
  end.

(** After the loop: [this.pendingSync = []], both saves, the success
    notification, then the [finally] block. *)
Definition sync_completed (s : App) : App :=
  let s1 := set_pendingSync [] (set_detached (detached s ++ [pendingSync s]) s) in
  let s2 := savePendingSync s1 in
  let s3 := saveTodos s2 in
  let s4 := showNotification "Sync completed successfully!" Success s3 in
  showSyncIndicator false s4.

(** The [catch] block, then the [finally] block. *)
Definition sync_failed (s : App) : App :=
  showSyncIndicator false (showNotification "Sync failed. Will retry later." Error s).

(** One turn of [for (const item of array)]: the iterator of array [a]
    is asked for element [n].  If there is one, the call for it is issued
    and [syncData] is suspended at the [await]; if not, the loop is over. *)
Definition iterate (a n : nat) (s : App) : App :=
  match array_at s a !! n with
  | Some item =>
      set_drains (drains s ++ [{| d_array := a; d_next := S n; d_item := item |}])
                 (call_remote (action item) (data item) s)
  | None => sync_completed s
  end.

(** [syncData()] up to its first [await]. *)
Definition syncData (s : App) : App :=
  if negb (isOnline s) || (length (pendingSync s) =? 0)%nat then s
  else iterate (length (detached s)) 0 (showSyncIndicator true s).

(** The awaited call of the [k]-th suspended drain settles with [o]. *)
Definition resume (k : nat) (o : ApiOutcome) (s : App) : App :=
  match drains s !! k with
  | Some d =>
      let s1 := set_drains (base.delete k (drains s)) s in
      match o with
      | Rejected => sync_failed s1
      | Resolved _ => iterate (d_array d) (d_next d) (mark_synced (d_item d) s1)
      end
  | None => s
  end.

(** ** Events and their handlers *)

Inductive Event :=
| Input (v : string)                  (* the user edits the input field *)
| Add (c : Clock)                     (* add button or Enter *)
| Toggle (i : Z) (c : Clock)
| Delete (i : Z) (c : Clock)
| StartEdit (i : Z)
| SaveEdit (i : Z) (newText : string) (c : Clock)
| CancelEdit
| SyncRequested                       (* sync button, visibility timer *)
| BrowserOnline                       (* window 'online' *)
| BrowserOffline                      (* window 'offline' *)
| ProbeDone (ok : bool)               (* the probe's fetch resolved, response.ok *)
| ProbeFailed                         (* the probe's fetch rejected or was aborted *)
| ApiDone (k : nat) (o : ApiOutcome). (* an awaited remote call settled *)

Definition handle (ev : Event) (s : App) : App :=
  match ev with
  | Input v => set_todoInput v s
  | Add c => addTodo c s
  | Toggle i c => toggleTodo i c s
  | Delete i c => deleteTodo i c s
  | StartEdit i => startEdit i s
  | SaveEdit i newText c => saveEdit i newText c s
  | CancelEdit => cancelEdit s
  | SyncRequested => syncData s
  | BrowserOnline => syncData (set_isOnline true s)
  | BrowserOffline => set_isOnline false s
  | ProbeDone ok =>
      if ok && negb (isOnline s) then syncData (set_isOnline true s) else s
  | ProbeFailed =>
      if isOnline s then set_isOnline false s else s
  | ApiDone k o => resume k o s
  end.

Definition run (evs : list Event) (s : App) : App :=
  fold_left (fun st ev => handle ev st) evs s.

(** States reached from [s0] by events that the predicate [ok] admits in
    the state they arrive in. *)
Inductive reach (ok : App -> Event -> Prop) (s0 : App) : App -> Prop :=
| reach_init : reach ok s0 s0
| reach_step s ev : reach ok s0 s -> ok s ev -> reach ok s0 (handle ev s).

(** The constructor's result when both keys are absent from the store. *)
Definition empty_storage : Storage :=
  {| ls_todos := None; ls_pendingSync := None; ls_denied := false; ls_full := false |}.

Definition fresh_install (onLine : bool) : App :=
  {| heap := []; todos := []; pendingSync := []; detached := [];
     isOnline := onLine; editingId := None; todoInput := "";
     syncing := false; notifications := []; localStorage := empty_storage;
     remoteCalls := []; drains := [] |}.

(** A drain that nothing interrupts: [syncData()], then one settlement
    per element of [outs]. *)
Definition drain_with (outs : list ApiOutcome) (s : App) : App :=
  run (map (ApiDone 0) outs) (syncData s).

(** ** Views: [getFilteredTodos] and [updateStats] *)

(** [todo.completed] for the object at a location. *)
Definition completed_at (h : list Todo) (l : loc) : bool :=
  match h !! l with
  | Some t => completed t
  | None => false
  end.

(** [switch (this.currentFilter)]: 'active', 'completed', anything else. *)
Definition getFilteredTodos (currentFilter : string) (s : App) : list loc :=
  if String.eqb currentFilter "active" then
    filter (fun l => completed_at (heap s) l = false) (todos s)
  else if String.eqb currentFilter "completed" then
    filter (fun l => completed_at (heap s) l = true) (todos s)
  else todos s.

(** What the sync button shows: [Sync (n)] or the all-synced text. *)
Inductive SyncLabel :=
| SyncCount (n : Z)
| AllSynced.

(** The numbers [updateStats] puts into the three counters, and the text
    and state it gives the sync button. *)
Record Stats := {
  st_total : Z;
  st_active : Z;
  st_completed : Z;
  st_syncLabel : SyncLabel;
  st_syncDisabled : bool
}.

Definition updateStats (s : App) : Stats :=
  let total := Z.of_nat (length (todos s)) in
  let completed :=
    Z.of_nat (length (filter (fun l => completed_at (heap s) l = true) (todos s))) in
  let active := total - completed in
  let pendingCount := Z.of_nat (length (pendingSync s)) in
  {| st_total := total;
     st_active := active;
     st_completed := completed;
     st_syncLabel := if 0 <? pendingCount then SyncCount pendingCount else AllSynced;
     st_syncDisabled := negb (0 <? pendingCount) |}.

(** ** Start-up: the constructor *)

(** Property access on a parsed value: [v[k]], absent when [v] is not an
    object or has no such property. *)
Fixpoint assoc (k : string) (fields : list (string * JSValue)) : option JSValue :=
  match fields with
  | [] => None
  | (k', v) :: rest => if String.eqb k k' then Some v else assoc k rest
  end.

Definition get (k : string) (v : JSValue) : option JSValue :=
  match v with
  | JObj fields => assoc k fields
  | _ => None
  end.

Definition as_num (v : JSValue) : option Q :=
  match v with JNum q => Some q | _ => None end.

Definition as_int (v : JSValue) : option Z :=
  match v with
  | JNum q => if (Qden q =? 1)%positive then Some (Qnum q) else None
  | _ => None
  end.

Definition as_str (v : JSValue) : option string :=
  match v with JStr s => Some s | _ => None end.

Definition as_bool (v : JSValue) : option bool :=
  match v with JBool b => Some b | _ => None end.

Definition as_status (v : JSValue) : option SyncStatus :=
  match v with
  | JStr s =>
      if String.eqb s "synced" then Some synced
      else if String.eqb s "pending" then Some pending
      else None
  | _ => None
  end.

Definition as_action (v : JSValue) : option Action :=
  match v with
  | JStr s =>
      if String.eqb s "create" then Some create
      else if String.eqb s "update" then Some update
      else if String.eqb s "delete" then Some delete
      else None
  | _ => None
  end.

(** A parsed object read as a todo: every field the class uses must be
    there with its type. *)
Definition todo_of_JSON (v : JSValue) : option Todo :=
  i ← get "id" v ≫= as_int;
  t ← get "text" v ≫= as_str;
  c ← get "completed" v ≫= as_bool;
  ca ← get "createdAt" v ≫= as_str;
  lm ← get "lastModified" v ≫= as_str;
  st ← get "syncStatus" v ≫= as_status;
  Some {| todo_id := i; text := t; completed := c; createdAt := ca;
          lastModified := lm; syncStatus := st |}.

Definition todos_of_JSON (v : JSValue) : option (list Todo) :=
  match v with
  | JArr elems => mapM todo_of_JSON elems
  | _ => None
  end.

(** A parsed queue entry.  Its [data] is an object of its own: a whole
    todo, which gets the location [base], or just [{ id }]. *)
Definition item_of_JSON (base : loc) (v : JSValue) : option (list Todo * SyncItem) :=
  i ← get "id" v ≫= as_num;
  a ← get "action" v ≫= as_action;
  d ← get "data" v;
  ts ← get "timestamp" v ≫= as_str;
  match todo_of_JSON d with
  | Some t =>
      Some ([t], {| item_id := i; action := a; data := TodoRef base; timestamp := ts |})
  | None =>
      n ← get "id" d ≫= as_int;
      Some ([], {| item_id := i; action := a; data := IdOnly n; timestamp := ts |})
  end.

Fixpoint items_of_JSON (base : loc) (vs : list JSValue)
  : option (list Todo * list SyncItem) :=
  match vs with
  | [] => Some ([], [])
  | v :: rest =>
      match item_of_JSON base v with
      | Some (objs, it) =>
          match items_of_JSON (base + length objs)%nat rest with
          | Some (objs', its) => Some (objs ++ objs', it :: its)
          | None => None
          end
      | None => None
      end
  end.

Definition queue_of_JSON (base : loc) (v : JSValue) : option (list Todo * list SyncItem) :=
  match v with
  | JArr elems => items_of_JSON base elems
  | _ => None
  end.

(** [new OfflineTodoApp()]: both collections are loaded from the store,
    nothing is being edited, the flag is [navigator.onLine].  The loaded
    objects are fresh: no queue entry shares its [data] with a task.
    The input field, the sync indicator and the notifications are those
    of the page as it loads: empty, off, none.  The probes the
    constructor launches arrive later as events, and [init] only draws.
    [None] when a loaded value is not a collection of the shape the class
    writes, which the state of this development does not describe. *)
Definition constructor (onLine : bool) (ls : Storage) : option App :=
  ts ← todos_of_JSON (loadTodos ls);
  '(objs, q) ← queue_of_JSON (length ts) (loadPendingSync ls);
  Some {| heap := ts ++ objs; todos := seq 0 (length ts); pendingSync := q;
          detached := []; isOnline := onLine; editingId := None; todoInput := "";
          syncing := false; notifications := []; localStorage := ls;
          remoteCalls := []; drains := [] |}.

(** ** [clearCache] *)

Definition removeItem (k : Key) (ls : Storage) : Try Storage :=
  if ls_denied ls then Throw
  else Ok (match k with
           | K_todos =>
               {| ls_todos := None; ls_pendingSync := ls_pendingSync ls;
                  ls_denied := ls_denied ls; ls_full := ls_full ls |}
           | K_pendingSync =>
               {| ls_todos := ls_todos ls; ls_pendingSync := None;
                  ls_denied := ls_denied ls; ls_full := ls_full ls |}
           end).

(** [clearCache()] from the point where its awaits on the Cache API have
    settled: [hasCaches] is ['caches' in window], [cachesDeleted] tells
    whether [caches.keys()] and the deletions resolved.  The page reload
    it schedules comes a second later: a new [constructor] call on the
    store as it is by then. *)
Definition clearCache (hasCaches cachesDeleted : bool) (s : App) : App :=
  if hasCaches then
    if cachesDeleted then
      match removeItem K_todos (localStorage s) with
      | Ok ls1 =>
          match removeItem K_pendingSync ls1 with
          | Ok ls2 =>
              showNotification "Cache cleared successfully!" Success
                               (set_localStorage ls2 s)
          | Throw =>
              showNotification "Failed to clear cache" Error (set_localStorage ls1 s)
          end
      | Throw => showNotification "Failed to clear cache" Error s
      end
    else showNotification "Failed to clear cache" Error s
  else s.

(** * Vocabulary of the statements *)

(** ** The store after a save *)

(** What the store holds after [saveTodos] and after [savePendingSync]. *)
Definition todos_saved (s : App) : Storage :=
  match setItem K_todos (stringify_todos s) (localStorage s) with
  | Ok ls => ls
  | Throw => localStorage s
  end.

Definition pendingSync_saved (s : App) : Storage :=
  match setItem K_pendingSync (stringify_pendingSync s) (localStorage s) with
  | Ok ls => ls
  | Throw => localStorage s
  end.

(** ** Stored values *)

Definition slot (k : Key) (ls : Storage) : option StoredText :=
  match k with K_todos => ls_todos ls | K_pendingSync => ls_pendingSync ls end.

(** A stored text is not a stored collection when [JSON.parse] rejects it
    or when what it parses to is not an array. *)
Definition corrupt (t : StoredText) : Prop :=
  match t with
  | BadText _ => True
  | JsonText (JArr _) => False
  | JsonText _ => True
  end.

(** What C9 states: every corrupt stored value loads as the empty
    collection. *)
Definition corrupt_loads_empty : Prop :=
  forall (k : Key) (ls : Storage) (t : StoredText),
    slot k ls = Some t -> corrupt t -> load k ls = JArr [].

(** ** What the mutations build *)

(** The task object [addTodo] builds. *)
Definition new_todo (c : Clock) (s : App) : Todo :=
  {| todo_id := Date_now c;
     text := trim (todoInput s);
     completed := false;
     createdAt := Date_iso c;
     lastModified := Date_iso c;
     syncStatus := if isOnline s then synced else pending |}.

(** The entry [addToPendingSync(a, d)] builds. *)
Definition queued (a : Action) (d : Data) (c : Clock) : SyncItem :=
  {| item_id := Number_add (inject_Z (Date_now c)) (Math_random c);
     action := a;
     data := d;
     timestamp := Date_iso c |}.

(** The queue after a mutation: one more entry when offline. *)
Definition queue_after (s : App) (a : Action) (d : Data) (c : Clock) : list SyncItem :=
  if isOnline s then pendingSync s else pendingSync s ++ [queued a d c].

(** ** Heaps, ids and statuses *)

(** Two heaps that give every location the same id. *)
Definition same_ids (h h' : list Todo) : Prop :=
  forall l : loc, todo_id <$> h' !! l = todo_id <$> h !! l.

(** The status of the object at a location, if there is one. *)
Definition status_at (h : list Todo) (l : loc) : option SyncStatus :=
  syncStatus <$> h !! l.

(** The id of the object at a location (0 where there is none). *)
Definition task_id (h : list Todo) (l : loc) : Z := from_option todo_id 0 (h !! l).

(** The ids of the collection, front first. *)
Definition task_ids (s : App) : list Z := task_id (heap s) <$> todos s.

(** Every element of the collection is an object of the heap. *)
Definition wf (s : App) : Prop := forall l, l ∈ todos s -> is_Some (heap s !! l).

(** ** The uninterrupted drain *)

(** What [mark_synced] makes of the heap: it reads the collection, the
    heap and the entry, and changes nothing but the heap. *)
Definition synced_heap (ts : list loc) (h : list Todo) (it : SyncItem) : list Todo :=
  match data_id h (data it) with
  | Some i =>
      if truthy_number i then
        match find (has_id h i) ts with
        | Some l => alter set_synced l h
        | None => h
        end
      else h
  | None => h
  end.

(** The heap after the entries [items] have been marked, in order. *)
Definition drained_heap (ts : list loc) (h : list Todo) (items : list SyncItem) : list Todo :=
  fold_left (synced_heap ts) items h.

Definition call_of (it : SyncItem) : Action * Data := (action it, data it).

(** The state of a drain of [s0] that nothing has interrupted, once [n]
    calls have resolved and the call for element [n], [it], is awaited. *)
Definition awaiting (n : nat) (it : SyncItem) (s0 : App) : App :=
  set_drains [{| d_array := length (detached s0); d_next := S n; d_item := it |}]
    (set_remoteCalls (remoteCalls s0 ++ map call_of (take (S n) (pendingSync s0)))
       (set_syncing true
          (set_heap (drained_heap (todos s0) (heap s0) (take n (pendingSync s0))) s0))).

(** The state in which the loop is left when every call has resolved. *)
Definition all_resolved (s0 : App) : App :=
  set_remoteCalls (remoteCalls s0 ++ map call_of (pendingSync s0))
    (set_syncing true
       (set_heap (drained_heap (todos s0) (heap s0) (pendingSync s0)) s0)).

(** The state in which the loop is left when the call for element [n]
    rejects. *)
Definition rejected_at (n : nat) (s0 : App) : App :=
  set_remoteCalls (remoteCalls s0 ++ map call_of (take (S n) (pendingSync s0)))
    (set_syncing true
       (set_heap (drained_heap (todos s0) (heap s0) (take n (pendingSync s0))) s0)).

Definition resolved (o : ApiOutcome) : Prop :=
  match o with Resolved _ => True | Rejected => False end.

(** ** Frames *)

(** The mutation API leaves the connectivity flag, the sync indicator,
    the notifications, the detached arrays and the suspended drains
    alone. *)
Definition api_frame (s s' : App) : Prop :=
  detached s' = detached s /\ isOnline s' = isOnline s /\
  syncing s' = syncing s /\ notifications s' = notifications s /\
  drains s' = drains s.

(** The common tail of the four mutations: queue the mutation when
    offline, save the collection, call the remote when online. *)
Definition commit (a : Action) (d : Data) (c : Clock) (s1 : App) : App :=
  let s2 := if negb (isOnline s1) then addToPendingSync a d c s1 else s1 in
  let s3 := saveTodos s2 in
  if isOnline s3 then call_remote a d s3 else s3.

(** The four events that change a task or the collection. *)
Definition is_mutation (ev : Event) : Prop :=
  match ev with
  | Add _ | Toggle _ _ | Delete _ _ | SaveEdit _ _ _ => True
  | _ => False
  end.

(** How a mutation event takes effect, if it does. *)
Inductive takes_effect (ev : Event) (s : App) : Prop :=
| te_noop : handle ev s = s -> takes_effect ev s
| te_commit a d c s1 :
    handle ev s = commit a d c s1 ->
    isOnline s1 = isOnline s -> pendingSync s1 = pendingSync s ->
    remoteCalls s1 = remoteCalls s -> localStorage s1 = localStorage s ->
    detached s1 = detached s -> drains s1 = drains s ->
    notifications s1 = notifications s -> syncing s1 = syncing s ->
    takes_effect ev s.

(** How an event changes the collection: it keeps the elements and their
    ids, or it filters the elements, or it puts a new object in front. *)
Inductive tasks_change (ev : Event) (s s' : App) : Prop :=
| tc_keep :
    todos s' = todos s -> same_ids (heap s) (heap s') -> tasks_change ev s s'
| tc_filter (P : loc -> Prop) (dec : forall l, Decision (P l)) :
    heap s' = heap s -> todos s' = filter P (todos s) -> tasks_change ev s s'
| tc_add (c : Clock) (t : Todo) :
    ev = Add c -> todo_id t = Date_now c ->
    heap s' = heap s ++ [t] -> todos s' = length (heap s) :: todos s ->
    tasks_change ev s s'.

(** ** Starting and settling drains *)

Definition starts_drain (ev : Event) (s : App) : Prop :=
  (length (drains s) < length (drains (handle ev s)))%nat.


(** The four ways a settlement is handled: there is no such drain; the
    call rejected; it resolved and the array has a next entry; it
    resolved and the array is exhausted. *)
Inductive settlement (k : nat) (o : ApiOutcome) (s : App) : Prop :=
| se_none : drains s !! k = None -> resume k o s = s -> settlement k o s
| se_rejected d :
    drains s !! k = Some d -> o = Rejected ->
    resume k o s = sync_failed (set_drains (base.delete k (drains s)) s) ->
    settlement k o s
| se_next d b it :
    drains s !! k = Some d -> o = Resolved b ->
    array_at s (d_array d) !! d_next d = Some it ->
    resume k o s
      = set_drains (base.delete k (drains s)
                    ++ [{| d_array := d_array d; d_next := S (d_next d); d_item := it |}])
          (call_remote (action it) (data it)
             (set_heap (synced_heap (todos s) (heap s) (d_item d))
                (set_drains (base.delete k (drains s)) s))) ->
    settlement k o s
| se_done d b :
    drains s !! k = Some d -> o = Resolved b ->
    array_at s (d_array d) !! d_next d = None ->
    resume k o s
      = sync_completed (set_heap (synced_heap (todos s) (heap s) (d_item d))
                          (set_drains (base.delete k (drains s)) s)) ->
    settlement k o s.

(** One drain is suspended: it runs over the array now in
    [this.pendingSync] and awaits the call for entry [n], [it]. *)
Definition one_drain (n : nat) (it : SyncItem) (s : App) : Prop :=
  drains s = [{| d_array := length (detached s); d_next := S n; d_item := it |}] /\
  pendingSync s !! n = Some it.

(** Every event of [evs] is admitted by [ok] in the state it arrives in,
    starting from [s]. *)
Fixpoint admits (ok : App -> Event -> Prop) (evs : list Event) (s : App) : Prop :=
  match evs with
  | [] => True
  | ev :: rest => ok s ev /\ admits ok rest (handle ev s)
  end.

(** An event that leaves the drain in flight as the only one: it starts
    no drain, and a drain is still suspended when it has been handled. *)
Definition drain_goes_on (s : App) (ev : Event) : Prop :=
  ~ starts_drain ev s /\ drains (handle ev s) <> [].

(** A call that fails as the spec has a client report it: the result is
    not a success, or the promise rejects. *)
Definition failed (o : ApiOutcome) : Prop := o <> Resolved true.

(** What C1 states: a drain in which some call fails leaves the queue as
    it was and shows the error notification. *)
Definition failure_keeps_queue : Prop :=
  forall (outs : list ApiOutcome) (s : App),
    drains s = [] -> isOnline s = true ->
    length outs = length (pendingSync s) -> Exists failed outs ->
    pendingSync (drain_with outs s) = pendingSync s /\
    notifications (drain_with outs s)
      = notifications s ++ [("Sync failed. Will retry later.", Error)].



(** ** Unique ids *)

(** The collection is well formed and its ids strictly decrease from the
    front (most recent) to the back. *)
Definition tasks_ok (s : App) : Prop :=
  wf s /\ StronglySorted Z.gt (task_ids s).

(** The clock has advanced: a task is created at a reading greater than
    the id of every task in the collection. *)
Definition fresh_clock (s : App) (ev : Event) : Prop :=
  match ev with
  | Add c => Forall (fun i => i < Date_now c) (task_ids s)
  | _ => True
  end.

(** No two positions of the collection hold tasks with the same id. *)
Definition unique_ids (s : App) : Prop :=
  forall (p q : nat) (l l' : loc) (t t' : Todo),
    todos s !! p = Some l -> todos s !! q = Some l' ->
    heap s !! l = Some t -> heap s !! l' = Some t' ->
    todo_id t = todo_id t' -> p = q.

(** A task nearer the front (created later) has the greater id. *)
Definition newest_first (s : App) : Prop :=
  forall (p q : nat) (l l' : loc) (t t' : Todo),
    (p < q)%nat ->
    todos s !! p = Some l -> todos s !! q = Some l' ->
    heap s !! l = Some t -> heap s !! l' = Some t' ->
    todo_id t' < todo_id t.

(** What C6 states: whatever the events, no two tasks of the collection
    share an id, and the later created has the greater id. *)
Definition ids_always_unique : Prop :=
  forall (evs : list Event) (onLine : bool),
    unique_ids (run evs (fresh_install onLine)) /\
    newest_first (run evs (fresh_install onLine)).

(** ** Status and queue *)

(** A task is [pending] exactly when some queue entry carries its id. *)
Definition consistent_on (h : list Todo) (ts : list loc) (q : list SyncItem) : Prop :=
  forall l t, l ∈ ts -> h !! l = Some t ->
    (syncStatus t = pending <->
     exists it, it ∈ q /\ data_id h (data it) = Some (todo_id t)).

Definition status_consistent (s : App) : Prop :=
  consistent_on (heap s) (todos s) (pendingSync s).

(** What C2 states: at every state that events lead to, status and queue
    agree. *)
Definition always_consistent : Prop :=
  forall (evs : list Event) (onLine : bool),
    status_consistent (run evs (fresh_install onLine)).

(** Heap, collection and queue fit together: references are live, the
    ids of the collection are distinct and truthy, and statuses agree
    with the queue. *)
Record good (h : list Todo) (ts : list loc) (q : list SyncItem) : Prop := {
  good_wf : forall l, l ∈ ts -> is_Some (h !! l);
  good_refs : forall it l, it ∈ q -> data it = TodoRef l -> is_Some (h !! l);
  good_nodup : NoDup (task_id h <$> ts);
  good_truthy : forall l, l ∈ ts -> task_id h l <> 0;
  good_status : consistent_on h ts q
}.

(** How the queue follows a mutation: one entry for the touched id when
    offline, nothing when online, where the queue is empty. *)
Inductive queue_follows (st : SyncStatus) (d : Data) (q q' : list SyncItem) : Prop :=
| qf_offline it : st = pending -> data it = d -> q' = q ++ [it] -> queue_follows st d q q'
| qf_online : st = synced -> q = [] -> q' = [] -> queue_follows st d q q'.

(** No drain is suspended and heap, collection and queue fit together. *)
Definition settled (s : App) : Prop :=
  drains s = [] /\ good (heap s) (todos s) (pendingSync s).

(** Settled, and the queue is empty whenever the online flag is set. *)
Definition quiescent (s : App) : Prop :=
  settled s /\ (isOnline s = true -> pendingSync s = []).

(** Heap, collection and queue fit together but for the statuses:
    references are live and the ids of the collection are distinct and
    truthy. *)
Record sound (h : list Todo) (ts : list loc) (q : list SyncItem) : Prop := {
  sound_wf : forall l, l ∈ ts -> is_Some (h !! l);
  sound_refs : forall it l, it ∈ q -> data it = TodoRef l -> is_Some (h !! l);
  sound_nodup : NoDup (task_id h <$> ts);
  sound_truthy : forall l, l ∈ ts -> task_id h l <> 0
}.

(** Every [pending] task of the collection has an entry with its id at
    index [n] of the queue or later. *)
Definition pending_from (n : nat) (h : list Todo) (ts : list loc) (q : list SyncItem) : Prop :=
  forall l t, l ∈ ts -> h !! l = Some t -> syncStatus t = pending ->
    exists j it, (n <= j)%nat /\ q !! j = Some it /\
                 data_id h (data it) = Some (todo_id t).

(** How the queue follows a mutation whatever it holds: one entry for
    the touched id when offline, nothing when online. *)
Inductive queue_grows (st : SyncStatus) (d : Data) (q q' : list SyncItem) : Prop :=
| qg_offline it : st = pending -> data it = d -> q' = q ++ [it] -> queue_grows st d q q'
| qg_online : st = synced -> q' = q -> queue_grows st d q q'.

(** One drain is under way: the entries before the one it awaits have
    been replayed, and every task still [pending] has an entry among the
    others. *)
Definition draining (s : App) : Prop :=
  exists n it,
    one_drain n it s /\
    sound (heap s) (todos s) (pendingSync s) /\
    pending_from n (heap s) (todos s) (pendingSync s).

(** The failure notice is the latest notification: the last drain to
    end was ended by a rejected call. *)
Definition last_drain_failed (s : App) : Prop :=
  last (notifications s) = Some ("Sync failed. Will retry later.", Error).

(** No drain is suspended and the last one was ended by a rejected call:
    the queue is whole, and the tasks replayed before the rejection are
    [synced] with their entries still queued. *)
Definition after_failure (s : App) : Prop :=
  drains s = [] /\ last_drain_failed s /\
  sound (heap s) (todos s) (pendingSync s) /\
  pending_from 0 (heap s) (todos s) (pendingSync s).

(** The events of a run in which no drain is started while another is
    suspended, and every task is created at a non-zero clock reading
    that is the id of no task in the collection. *)
Definition orderly (s : App) (ev : Event) : Prop :=
  (drains s <> [] -> ~ starts_drain ev s) /\
  match ev with
  | Add c => Date_now c <> 0 /\ Date_now c ∉ task_ids s
  | _ => True
  end.

(** A [pending] task has an entry with its id in the queue. *)
Definition pending_is_queued (s : App) : Prop :=
  forall l t, l ∈ todos s -> heap s !! l = Some t -> syncStatus t = pending ->
    exists it, it ∈ pendingSync s /\ data_id (heap s) (data it) = Some (todo_id t).

(** ** Sample clocks, stores and runs *)

Definition half : Q := Qmake 1 2.

Definition at_ms (n : Z) : Clock :=
  {| Date_now := n; Date_iso := "2024-01-01T00:00:00.000Z"; Math_random := half |}.

Definition store_with (t : StoredText) : Storage :=
  {| ls_todos := Some t; ls_pendingSync := Some t; ls_denied := false; ls_full := false |}.

Definition three_queued : App :=
  set_isOnline true
    (run [Input "a"; Add (at_ms 5); Input "b"; Add (at_ms 6); Input "c"; Add (at_ms 7)]
         (fresh_install false)).

Definition flapping : list Event :=
  [BrowserOffline; Input "a"; Add (at_ms 5); BrowserOnline; BrowserOffline].

Definition two_offline_then_online : list Event :=
  [BrowserOffline; Input "a"; Add (at_ms 5); Input "b"; Add (at_ms 6);
   BrowserOnline; ApiDone 0 (simulateApiCall create (TodoRef 0%nat))].

Definition two_drains_interleaved : list Event :=
  [BrowserOffline; Input "a"; Add (at_ms 5); Input "b"; Add (at_ms 6);
   BrowserOnline; BrowserOffline; ProbeDone true;
   ApiDone 0 (Resolved true); ApiDone 0 (Resolved true); ApiDone 0 (Resolved true);
   BrowserOffline; Toggle 5 (at_ms 9);
   ApiDone 0 (Resolved true)].

Definition same_reading_drained : list Event :=
  [Input "a"; Add (at_ms 5); Input "b"; Add (at_ms 5); BrowserOnline;
   ApiDone 0 (Resolved true); ApiDone 0 (Resolved true)].

Definition zero_reading_drained : list Event :=
  [Input "a"; Add (at_ms 0); BrowserOnline; ApiDone 0 (Resolved true)].

Definition failing_second_call : list ApiOutcome :=
  [Resolved true; Resolved false; Resolved true].

Definition second_drain_rejected : list Event :=
  flapping ++ [ProbeDone true; ApiDone 0 (Resolved true); ApiDone 0 Rejected].

Definition toggled_during_drain : list Event :=
  [ApiDone 0 (Resolved true); BrowserOffline; Toggle 6 (at_ms 9); ProbeFailed; Input "x"].

Definition second_call_rejected : list Event :=
  [Input "a"; Add (at_ms 5); Input "b"; Add (at_ms 6); BrowserOnline;
   ApiDone 0 (Resolved true); ApiDone 0 Rejected].

Definition rejected_then_retried : list Event :=
  [Input "a"; Add (at_ms 5); Toggle 5 (at_ms 6); BrowserOnline;
   Input "b"; Add (at_ms 7); ProbeFailed; Toggle 5 (at_ms 8);
   ApiDone 0 (Resolved true); ApiDone 0 Rejected;
   BrowserOnline;
   ApiDone 0 (Resolved true); ApiDone 0 (Resolved true); ApiDone 0 (Resolved true)].

Definition reloaded_online : option App :=
  constructor true (localStorage (run [Input "a"; Add (at_ms 5)] (fresh_install false))).

(** ** Vocabulary of the further properties *)

(** The state with its store put aside. *)
Definition forget_store (s : App) : App := set_localStorage empty_storage s.

(** A store that can be read and written. *)
Definition writable (ls : Storage) : Prop := ls_denied ls = false /\ ls_full ls = false.

(** The store holds the collection, the queue, as they are in memory. *)
Definition todos_persisted (s : App) : Prop :=
  ls_todos (localStorage s) = Some (stringify_todos s).

Definition queue_persisted (s : App) : Prop :=
  ls_pendingSync (localStorage s) = Some (stringify_pendingSync s).

(** Everything of a todo but its sync status. *)
Definition content (t : Todo) : Z * string * bool * string * string :=
  (todo_id t, text t, completed t, createdAt t, lastModified t).

(** A text that is not empty and has no white space at either end. *)
Definition clean_text (t : string) : Prop := t <> "" /\ trim t = t.

(** Every object of the heap has a clean text. *)
Definition texts_clean (s : App) : Prop :=
  forall l t, heap s !! l = Some t -> clean_text (text t).

Definition any_event (s : App) (ev : Event) : Prop := True.

(** The live objects of the collection, in its order. *)
Definition values (h : list Todo) (ts : list loc) : list Todo :=
  omap (fun l => h !! l) ts.

(** Every reference held by the collection or the queue is an object of
    the heap. *)
Definition refs_live (s : App) : Prop :=
  wf s /\
  forall it l, it ∈ pendingSync s -> data it = TodoRef l -> is_Some (heap s !! l).

(** A key that gives the loader nothing: the store cannot be read, the
    key is absent, or its text does not parse. *)
Definition unreadable (k : Key) (ls : Storage) : Prop :=
  ls_denied ls = true \/ slot k ls = None \/ exists raw, slot k ls = Some (BadText raw).

(** A drain suspended at the only entry of the queue, the app offline. *)
Definition one_in_flight : App :=
  run [BrowserOffline; Input "a"; Add (at_ms 5); BrowserOnline; BrowserOffline]
      (fresh_install true).

(** * Properties *)

(** ** Frame facts: what the small pieces leave alone *)

Lemma saveTodos_eq (s : App) : saveTodos s = set_localStorage (todos_saved s) s.
Proof.
  unfold saveTodos, todos_saved.
  destruct (setItem _ _ _); [reflexivity | now destruct s].
Qed.

Lemma savePendingSync_eq (s : App) :
  savePendingSync s = set_localStorage (pendingSync_saved s) s.
Proof.
  unfold savePendingSync, pendingSync_saved.
  destruct (setItem _ _ _); [reflexivity | now destruct s].
Qed.

(** A sum that binary64 cannot hold exactly is rounded: at this clock
    reading the spacing of the Numbers is 1/4096. *)
Example Number_add_rounds :
  Number_add (inject_Z 1700000000001) (Qmake 5404319552844596 18014398509481984)
    = Qmake 6963200000005325 4096.
Proof. vm_compute. reflexivity. Qed.

Lemma truthy_string_empty (s : string) : truthy_string s = false <-> s = "".
Proof. destruct s; cbn; split; congruence. Qed.

Lemma truthy_string_nonempty (s : string) : truthy_string s = true <-> s <> "".
Proof. destruct s; cbn; split; congruence. Qed.

(** ** Creating a task *)

(** C5: for an input whose trimmed value is not empty, [addTodo] builds a
    task with [completed = false] and [syncStatus] [synced] when online
    and [pending] when offline, puts it at the front of the collection,
    and, when offline, appends one [create] entry whose data is that task
    to the end of the queue (when online the queue is left alone). *)
Theorem addTodo_creates (c : Clock) (s : App) :
  trim (todoInput s) <> "" ->
  let s' := addTodo c s in
  let l := length (heap s) in
  todos s' = l :: todos s /\
  heap s' !! l = Some (new_todo c s) /\
  completed (new_todo c s) = false /\
  (isOnline s = true ->
     syncStatus (new_todo c s) = synced /\ pendingSync s' = pendingSync s) /\
  (isOnline s = false ->
     syncStatus (new_todo c s) = pending /\
     exists item,
       pendingSync s' = pendingSync s ++ [item] /\
       action item = create /\
       data item = TodoRef l /\
       JSON_of_data (heap s') (data item) = JSON_of_todo (new_todo c s)).
Proof.
  intros Hne s' l. subst s' l. unfold addTodo.
  apply truthy_string_nonempty in Hne. rewrite Hne. cbn [negb].
  assert (Hl : (heap s ++ [new_todo c s]) !! length (heap s) = Some (new_todo c s)).
  { rewrite lookup_app_r by lia. now rewrite Nat.sub_diag. }
  cbn [isOnline set_todoInput set_todos set_heap].
  destruct (isOnline s) eqn:Hon; cbn [negb].
  - rewrite saveTodos_eq. cbn. rewrite Hon. cbn.
    unfold new_todo, status_now in *. rewrite Hon in *.
    split; [reflexivity |]. split; [exact Hl |]. split; [reflexivity |].
    split; [intros _; now split | discriminate].
  - unfold addToPendingSync. rewrite savePendingSync_eq, saveTodos_eq. cbn.
    rewrite Hon. cbn.
    unfold new_todo, status_now in *. rewrite Hon in *.
    split; [reflexivity |]. split; [exact Hl |]. split; [reflexivity |].
    split; [discriminate |]. intros _. split; [reflexivity |].
    eexists. split; [reflexivity |]. split; [reflexivity |]. split; [reflexivity |].
    cbn. unfold JSON_of_ref. now rewrite Hl.
Qed.

Lemma addTodo_creates_witness :
  let s := set_todoInput " buy milk " (fresh_install false) in
  todos (addTodo (at_ms 1700000000000) s) = [0%nat] /\
  length (pendingSync (addTodo (at_ms 1700000000000) s)) = 1%nat.
Proof.
  intros s.
  assert (Hne : trim (todoInput s) <> "") by (vm_compute; discriminate).
  destruct (addTodo_creates (at_ms 1700000000000) s Hne) as (Ht & _ & _ & _ & Hoff).
  split; [exact Ht |].
  destruct (Hoff eq_refl) as (_ & item & Hq & _).
  rewrite Hq. reflexivity.
Defined.

(** ** Rejected input *)

(** C7: for a text whose trimmed value is empty, [addTodo] (with that
    text in the input field) and [saveEdit] return the state they were
    given: collection, task objects, queue and store are all unchanged.
    Both are total functions, so nothing is raised. *)
Theorem blank_text_is_noop (txt : string) (i : Z) (c : Clock) (s : App) :
  trim txt = "" ->
  addTodo c (set_todoInput txt s) = set_todoInput txt s /\
  saveEdit i txt c s = s.
Proof.
  intros Hb. apply truthy_string_empty in Hb. split.
  - unfold addTodo. cbn [todoInput set_todoInput]. now rewrite Hb.
  - unfold saveEdit. rewrite Hb. now destruct (find_todo i s).
Qed.

Lemma blank_text_is_noop_witness :
  addTodo (at_ms 5) (set_todoInput "   " (fresh_install false))
    = set_todoInput "   " (fresh_install false) /\
  saveEdit 5 "   " (at_ms 5) (fresh_install false) = fresh_install false.
Proof.
  apply (blank_text_is_noop "   " 5 (at_ms 5) (fresh_install false)).
  vm_compute. reflexivity.
Defined.

(** ** The guard of the drain *)

Lemma syncData_returns_early (s : App) :
  pendingSync s = [] \/ isOnline s = false -> syncData s = s.
Proof.
  intros H. unfold syncData.
  destruct H as [-> | ->]; cbn; [| reflexivity].
  now rewrite orb_true_r.
Qed.

(** C8: [syncData] called with an empty queue, or while offline, returns
    the state it was given: collection, queue, store and notifications
    are unchanged, and no drain is left suspended. *)
Theorem syncData_guarded (s : App) :
  pendingSync s = [] \/ isOnline s = false ->
  syncData s = s /\ handle SyncRequested s = s.
Proof.
  intros H. cbn [handle]. split; now apply syncData_returns_early.
Qed.

Lemma syncData_guarded_witness :
  syncData (fresh_install true) = fresh_install true /\
  handle SyncRequested (fresh_install true) = fresh_install true.
Proof.
  apply (syncData_guarded (fresh_install true)). left. reflexivity.
Defined.

(** ** Loading from the durable store *)

(** The stored text [null] is not a collection, and both loaders return
    the parsed [null], not the empty array. *)
Lemma load_returns_parsed_null :
  corrupt (JsonText JNull) /\
  loadTodos (store_with (JsonText JNull)) = JNull /\
  loadPendingSync (store_with (JsonText JNull)) = JNull /\
  ~ corrupt_loads_empty.
Proof.
  split; [exact I |]. split; [reflexivity |]. split; [reflexivity |].
  intros H.
  specialize (H K_todos (store_with (JsonText JNull)) (JsonText JNull) eq_refl I).
  discriminate H.
Qed.

(** C9, amended: a stored value on which [JSON.parse] raises loads as the
    empty collection, from either key, exactly as an absent key does and
    as a store whose read raises does; the loaders are total, so no fault
    reaches the caller.  A stored value that parses is returned as
    parsed, whatever its shape. *)
Theorem load_unparsable_is_empty (k : Key) (ls : Storage) (raw : string) :
  slot k ls = Some (BadText raw) ->
  load k ls = JArr [] /\
  (forall ls', slot k ls' = None -> load k ls' = load k ls) /\
  (forall ls', ls_denied ls' = true -> load k ls' = load k ls) /\
  (forall ls' v, ls_denied ls' = false -> slot k ls' = Some (JsonText v) ->
                 load k ls' = v).
Proof.
  intros Hs.
  assert (E : load k ls = JArr []).
  { unfold load, getItem. destruct (ls_denied ls); [reflexivity |].
    fold (slot k ls). rewrite Hs. cbn. now destruct (truthy_string raw). }
  split; [exact E |]. rewrite E. repeat split.
  - intros ls' Hn. unfold load, getItem. destruct (ls_denied ls'); [reflexivity |].
    fold (slot k ls'). now rewrite Hn.
  - intros ls' Hd. unfold load, getItem. now rewrite Hd.
  - intros ls' v Hd Hv. unfold load, getItem. rewrite Hd.
    fold (slot k ls'). now rewrite Hv.
Qed.

Lemma load_unparsable_is_empty_witness :
  loadTodos (store_with (BadText "[{id:17")) = JArr [] /\
  loadPendingSync (store_with (BadText "[{id:17")) = JArr [].
Proof.
  split.
  - exact (proj1 (load_unparsable_is_empty K_todos
                    (store_with (BadText "[{id:17")) "[{id:17" eq_refl)).
  - exact (proj1 (load_unparsable_is_empty K_pendingSync
                    (store_with (BadText "[{id:17")) "[{id:17" eq_refl)).
Defined.

(** ** The drain, run without interruption *)

Lemma mark_synced_eq (it : SyncItem) (s : App) :
  mark_synced it s = set_heap (synced_heap (todos s) (heap s) it) s.
Proof.
  unfold mark_synced, synced_heap, find_todo.
  destruct (data_id _ _) as [i |]; [| now destruct s].
  destruct (truthy_number i); [| now destruct s].
  destruct (find _ _); [reflexivity | now destruct s].
Qed.

Lemma drained_heap_snoc ts h items it :
  drained_heap ts h (items ++ [it]) = synced_heap ts (drained_heap ts h items) it.
Proof. unfold drained_heap. now rewrite fold_left_app. Qed.

Lemma syncData_awaiting (s0 : App) (it : SyncItem) :
  drains s0 = [] -> isOnline s0 = true -> pendingSync s0 !! 0%nat = Some it ->
  syncData s0 = awaiting 0 it s0.
Proof.
  intros Hd Hon Hq. unfold syncData, awaiting. rewrite Hon. cbn [negb orb].
  destruct (pendingSync s0) as [| it0 q] eqn:E; [discriminate |].
  cbn in Hq. injection Hq as ->. cbn [length Nat.eqb].
  unfold iterate, array_at, showSyncIndicator. cbn.
  rewrite Nat.eqb_refl, E. cbn. unfold call_remote. cbn. rewrite Hd.
  destruct s0; cbn in *. subst. reflexivity.
Qed.

Lemma resume_awaiting (n : nat) (it : SyncItem) (b : bool) (s0 : App) :
  pendingSync s0 !! n = Some it ->
  resume 0 (Resolved b) (awaiting n it s0) =
    match pendingSync s0 !! S n with
    | Some it' => awaiting (S n) it' s0
    | None => sync_completed (set_drains [] (all_resolved s0))
    end.
Proof.
  intros Hq. unfold resume, awaiting. cbn.
  rewrite mark_synced_eq. cbn.
  rewrite <- drained_heap_snoc, <- (take_S_r _ _ _ Hq).
  unfold iterate, array_at. cbn. rewrite Nat.eqb_refl.
  destruct (pendingSync s0 !! S n) as [it' |] eqn:E.
  - unfold call_remote. cbn. rewrite <- app_assoc.
    change [(action it', data it')] with (map call_of [it']).
    now rewrite <- map_app, <- (take_S_r _ _ _ E).
  - apply lookup_ge_None in E. unfold all_resolved.
    now rewrite (take_ge (pendingSync s0) (S n)) by lia.
Qed.

Lemma resume_awaiting_rejected (n : nat) (it : SyncItem) (s0 : App) :
  resume 0 Rejected (awaiting n it s0) = sync_failed (set_drains [] (rejected_at n s0)).
Proof. reflexivity. Qed.

Lemma run_cons (ev : Event) (evs : list Event) (s : App) :
  run (ev :: evs) s = run evs (handle ev s).
Proof. reflexivity. Qed.

Lemma run_app (evs1 evs2 : list Event) (s : App) :
  run (evs1 ++ evs2) s = run evs2 (run evs1 s).
Proof. unfold run. apply fold_left_app. Qed.

Lemma run_settle_idle (outs : list ApiOutcome) (k : nat) (s : App) :
  drains s = [] -> run (map (ApiDone k) outs) s = s.
Proof.
  intros Hd. induction outs as [| o outs IH]; [reflexivity |].
  cbn [map]. rewrite run_cons. cbn [handle]. unfold resume. rewrite Hd.
  now rewrite lookup_nil.
Qed.

Lemma run_resolved_awaiting (outs : list ApiOutcome) (s0 : App) :
  Forall resolved outs ->
  forall n it,
    pendingSync s0 !! n = Some it ->
    (n + length outs < length (pendingSync s0))%nat ->
    exists it',
      pendingSync s0 !! (n + length outs)%nat = Some it' /\
      run (map (ApiDone 0) outs) (awaiting n it s0) = awaiting (n + length outs) it' s0.
Proof.
  induction 1 as [| o outs Ho _ IH]; intros n it Hq Hlen.
  - exists it. rewrite Nat.add_0_r. now split.
  - cbn [length] in Hlen. destruct o as [b |]; [| contradiction].
    cbn [map]. rewrite run_cons. cbn [handle]. rewrite (resume_awaiting _ _ _ _ Hq).
    destruct (lookup_lt_is_Some_2 (pendingSync s0) (S n)) as [it1 E]; [lia |].
    rewrite E. destruct (IH (S n) it1 E) as (it' & Hq' & Hrun); [lia |].
    exists it'. cbn [length]. rewrite Nat.add_succ_r. now split.
Qed.

Lemma drain_with_awaiting (outs : list ApiOutcome) (s0 : App) :
  drains s0 = [] -> isOnline s0 = true -> Forall resolved outs ->
  (length outs < length (pendingSync s0))%nat ->
  exists it,
    pendingSync s0 !! length outs = Some it /\
    drain_with outs s0 = awaiting (length outs) it s0.
Proof.
  intros Hd Hon Hres Hlen.
  destruct (lookup_lt_is_Some_2 (pendingSync s0) 0) as [it0 E0]; [lia |].
  unfold drain_with. rewrite (syncData_awaiting _ _ Hd Hon E0).
  exact (run_resolved_awaiting outs s0 Hres 0%nat it0 E0 Hlen).
Qed.

Lemma drain_with_all_resolved (outs : list ApiOutcome) (s0 : App) :
  drains s0 = [] -> isOnline s0 = true -> Forall resolved outs ->
  pendingSync s0 <> [] -> length outs = length (pendingSync s0) ->
  drain_with outs s0 = sync_completed (set_drains [] (all_resolved s0)).
Proof.
  intros Hd Hon Hres Hne Hlen.
  assert (Hpos : (0 < length (pendingSync s0))%nat).
  { destruct (pendingSync s0); [congruence | cbn; lia]. }
  destruct (exists_last (l := outs)) as (oks & o & ->).
  { intros ->. cbn in Hlen. lia. }
  rewrite length_app in Hlen. cbn in Hlen.
  apply Forall_app in Hres as [Hoks Ho]. rewrite Forall_singleton in Ho.
  destruct o as [b |]; [| exfalso; exact Ho].
  destruct (drain_with_awaiting oks s0 Hd Hon Hoks) as (it & Hq & Hrun); [lia |].
  unfold drain_with in *. rewrite map_app, run_app, Hrun. cbn [map].
  rewrite run_cons. cbn [handle run fold_left].
  rewrite (resume_awaiting _ _ _ _ Hq).
  rewrite (proj2 (lookup_ge_None (pendingSync s0) (S (length oks)))); [reflexivity | lia].
Qed.

Lemma drain_with_rejected (oks rest : list ApiOutcome) (s0 : App) :
  drains s0 = [] -> isOnline s0 = true -> Forall resolved oks ->
  (length oks < length (pendingSync s0))%nat ->
  drain_with (oks ++ Rejected :: rest) s0
    = sync_failed (set_drains [] (rejected_at (length oks) s0)).
Proof.
  intros Hd Hon Hoks Hlen.
  destruct (drain_with_awaiting oks s0 Hd Hon Hoks Hlen) as (it & Hq & Hrun).
  unfold drain_with in *. rewrite map_app, run_app, Hrun. cbn [map].
  rewrite run_cons. cbn [handle]. rewrite resume_awaiting_rejected.
  now apply run_settle_idle.
Qed.

(** ** What marking does to the heap *)

Lemma same_ids_refl (h : list Todo) : same_ids h h.
Proof. now intros l. Qed.

Lemma same_ids_trans (h1 h2 h3 : list Todo) :
  same_ids h1 h2 -> same_ids h2 h3 -> same_ids h1 h3.
Proof. intros H12 H23 l. now rewrite H23, H12. Qed.

Lemma same_ids_alter (f : Todo -> Todo) (k : loc) (h : list Todo) :
  (forall t, todo_id (f t) = todo_id t) -> same_ids h (alter f k h).
Proof.
  intros Hf l. destruct (decide (k = l)) as [-> | Hne].
  - rewrite list_lookup_alter_eq. destruct (h !! l); cbn; [now rewrite Hf | reflexivity].
  - now rewrite list_lookup_alter_ne.
Qed.

Lemma same_ids_has_id (h h' : list Todo) (i : Z) (l : loc) :
  same_ids h h' -> has_id h' i l = has_id h i l.
Proof.
  intros H. unfold has_id. specialize (H l).
  destruct (h !! l), (h' !! l); cbn in H; try congruence.
Qed.

Lemma same_ids_find (h h' : list Todo) (i : Z) (ts : list loc) :
  same_ids h h' -> find (has_id h' i) ts = find (has_id h i) ts.
Proof.
  intros H. induction ts as [| l ts IH]; [reflexivity |]. cbn.
  now rewrite (same_ids_has_id _ _ _ _ H), IH.
Qed.

Lemma same_ids_data_id (h h' : list Todo) (d : Data) :
  same_ids h h' -> data_id h' d = data_id h d.
Proof. intros H. destruct d; cbn; [apply H | reflexivity]. Qed.

Section Marking.

(** The collection, which marking reads and does not change. *)
Context (ts : list loc).

Lemma synced_heap_same_ids (h : list Todo) (it : SyncItem) :
  same_ids h (synced_heap ts h it).
Proof.
  unfold synced_heap.
  destruct (data_id _ _) as [i |]; [| apply same_ids_refl].
  destruct (truthy_number i); [| apply same_ids_refl].
  destruct (find _ _); [| apply same_ids_refl].
  now apply same_ids_alter.
Qed.

Lemma drained_heap_same_ids (items : list SyncItem) (h : list Todo) :
  same_ids h (drained_heap ts h items).
Proof.
  revert h. induction items as [| it items IH]; intros h; [apply same_ids_refl |].
  cbn. eapply same_ids_trans; [apply synced_heap_same_ids | apply IH].
Qed.

Lemma status_at_alter_synced (h : list Todo) (k l : loc) :
  status_at (alter set_synced k h) l =
    if decide (k = l) then (fun _ => synced) <$> h !! l else status_at h l.
Proof.
  unfold status_at. destruct (decide (k = l)) as [-> | Hne].
  - rewrite list_lookup_alter_eq. now destruct (h !! l).
  - now rewrite list_lookup_alter_ne.
Qed.



Lemma find_has_id_Some (h : list Todo) (i : Z) (l : loc) :
  find (has_id h i) ts = Some l ->
  l ∈ ts /\ exists t, h !! l = Some t /\ todo_id t = i.
Proof.
  intros Hf. apply find_some in Hf as [Hin Hid]. split.
  - now apply list_elem_of_In.
  - unfold has_id in Hid. destruct (h !! l) as [t |]; [| discriminate].
    exists t. split; [reflexivity |]. now apply Z.eqb_eq.
Qed.

Lemma synced_heap_marks (h : list Todo) (it : SyncItem) (i : Z) (l : loc) :
  data_id h (data it) = Some i -> i <> 0 -> find (has_id h i) ts = Some l ->
  status_at (synced_heap ts h it) l = Some synced.
Proof.
  intros Hd Hi Hf. unfold synced_heap. rewrite Hd.
  unfold truthy_number. rewrite (proj2 (Z.eqb_neq i 0) Hi). cbn. rewrite Hf.
  rewrite status_at_alter_synced. rewrite decide_True by reflexivity.
  apply find_has_id_Some in Hf as (_ & t & -> & _). reflexivity.
Qed.


End Marking.

Lemma synced_heap_status (ts : list loc) (h : list Todo) (it : SyncItem) (l : loc) :
  status_at (synced_heap ts h it) l = status_at h l \/
  status_at (synced_heap ts h it) l = Some synced.
Proof.
  unfold synced_heap.
  destruct (data_id _ _) as [i |]; [| now left].
  destruct (truthy_number i); [| now left].
  destruct (find _ _) as [k |]; [| now left].
  rewrite status_at_alter_synced. destruct (decide (k = l)); [| now left].
  unfold status_at. destruct (h !! l); [now right | now left].
Qed.

(** ** Replay order *)



(** ** Frame of the mutation API *)

Lemma api_frame_refl (s : App) : api_frame s s.
Proof. now repeat split. Qed.

Ltac api_cases s :=
  unfold addTodo, toggleTodo, deleteTodo, saveEdit, startEdit, cancelEdit;
  repeat match goal with
         | |- context [find_todo ?i s] => destruct (find_todo i s) eqn:?
         | |- context [truthy_string ?x] => destruct (truthy_string x) eqn:?
         end;
  cbn [negb];
  let Hon := fresh "Hon" in
  destruct (isOnline s) eqn:Hon;
  unfold addToPendingSync, call_remote;
  rewrite ?saveTodos_eq, ?savePendingSync_eq; cbn;
  repeat (rewrite ?Hon; progress cbn).

Lemma addTodo_frame (c : Clock) (s : App) : api_frame s (addTodo c s).
Proof. unfold api_frame. api_cases s; now repeat split. Qed.

Lemma toggleTodo_frame (i : Z) (c : Clock) (s : App) : api_frame s (toggleTodo i c s).
Proof. unfold api_frame. api_cases s; now repeat split. Qed.

Lemma deleteTodo_frame (i : Z) (c : Clock) (s : App) : api_frame s (deleteTodo i c s).
Proof. unfold api_frame. api_cases s; now repeat split. Qed.

Lemma saveEdit_frame (i : Z) (txt : string) (c : Clock) (s : App) :
  api_frame s (saveEdit i txt c s).
Proof. unfold api_frame. api_cases s; now repeat split. Qed.

(** ** When a drain starts *)

Lemma sync_completed_frame (s : App) :
  drains (sync_completed s) = drains s /\
  isOnline (sync_completed s) = isOnline s /\
  todos (sync_completed s) = todos s /\
  heap (sync_completed s) = heap s /\
  pendingSync (sync_completed s) = [] /\
  notifications (sync_completed s)
    = notifications s ++ [("Sync completed successfully!", Success)].
Proof.
  unfold sync_completed. rewrite saveTodos_eq, savePendingSync_eq. cbn.
  now repeat split.
Qed.

Lemma iterate_cases (a n : nat) (s : App) :
  (array_at s a !! n = None /\ iterate a n s = sync_completed s) \/
  (exists it,
     array_at s a !! n = Some it /\
     iterate a n s
       = set_drains (drains s ++ [{| d_array := a; d_next := S n; d_item := it |}])
                    (call_remote (action it) (data it) s)).
Proof.
  unfold iterate. destruct (array_at s a !! n) as [it |]; [right | left].
  - now exists it.
  - now split.
Qed.

Lemma syncData_cases (s : App) :
  syncData s = s \/
  (isOnline s = true /\
   exists it,
     pendingSync s !! 0%nat = Some it /\
     syncData s
       = set_drains (drains s ++ [{| d_array := length (detached s); d_next := 1;
                                     d_item := it |}])
                    (call_remote (action it) (data it) (showSyncIndicator true s))).
Proof.
  unfold syncData. destruct (isOnline s); cbn [negb orb]; [| now left].
  destruct (pendingSync s) as [| it q] eqn:Eq; cbn [length Nat.eqb]; [now left |].
  right. split; [reflexivity |]. exists it. split; [reflexivity |].
  unfold iterate, array_at, showSyncIndicator. cbn. now rewrite Nat.eqb_refl, Eq.
Qed.

Lemma resume_drains_length (k : nat) (o : ApiOutcome) (s : App) :
  (length (drains (resume k o s)) <= length (drains s))%nat.
Proof.
  unfold resume. destruct (drains s !! k) as [d |] eqn:Ek; [| lia].
  pose proof (lookup_lt_Some _ _ _ Ek) as Hk.
  assert (Hdel : length (base.delete k (drains s)) = pred (length (drains s))).
  { rewrite length_delete; [lia | eauto]. }
  destruct o as [b |]; [| cbn; lia].
  rewrite mark_synced_eq.
  match goal with |- context [iterate ?a ?n ?st] =>
    destruct (iterate_cases a n st) as [[_ ->] | (it & _ & ->)] end.
  - destruct (sync_completed_frame
                (set_heap (synced_heap (todos (set_drains (base.delete k (drains s)) s))
                                       (heap (set_drains (base.delete k (drains s)) s))
                                       (d_item d))
                          (set_drains (base.delete k (drains s)) s))) as (-> & _).
    cbn. lia.
  - cbn. rewrite length_app. cbn. lia.
Qed.




(** ** The drain with this repository's client *)






(** ** What each mutation does to heap, collection and queue *)

Ltac api_simpl s :=
  let Hon := fresh "Hon" in
  unfold queue_after;
  destruct (isOnline s) eqn:Hon;
  unfold addToPendingSync, call_remote;
  rewrite ?saveTodos_eq, ?savePendingSync_eq; cbn;
  repeat (rewrite ?Hon; progress cbn).

Lemma addTodo_shape (c : Clock) (s : App) :
  truthy_string (trim (todoInput s)) = true ->
  heap (addTodo c s) = heap s ++ [new_todo c s] /\
  todos (addTodo c s) = length (heap s) :: todos s /\
  pendingSync (addTodo c s) = queue_after s create (TodoRef (length (heap s))) c.
Proof.
  intros Ht. unfold addTodo, new_todo, status_now. rewrite Ht. cbn [negb].
  api_simpl s; now repeat split.
Qed.

Lemma toggleTodo_shape (i : Z) (c : Clock) (s : App) (l : loc) :
  find_todo i s = Some l ->
  heap (toggleTodo i c s) = alter (toggled c (status_now s)) l (heap s) /\
  todos (toggleTodo i c s) = todos s /\
  pendingSync (toggleTodo i c s) = queue_after s update (TodoRef l) c.
Proof.
  intros Hf. unfold toggleTodo. rewrite Hf. api_simpl s; now repeat split.
Qed.

Lemma saveEdit_shape (i : Z) (txt : string) (c : Clock) (s : App) (l : loc) :
  find_todo i s = Some l -> truthy_string (trim txt) = true ->
  heap (saveEdit i txt c s) = alter (edited txt c (status_now s)) l (heap s) /\
  todos (saveEdit i txt c s) = todos s /\
  pendingSync (saveEdit i txt c s) = queue_after s update (TodoRef l) c.
Proof.
  intros Hf Ht. unfold saveEdit. rewrite Hf, Ht. api_simpl s; now repeat split.
Qed.

Lemma deleteTodo_shape (i : Z) (c : Clock) (s : App) (l : loc) :
  find_todo i s = Some l ->
  heap (deleteTodo i c s) = heap s /\
  todos (deleteTodo i c s) = filter (fun l => has_id (heap s) i l = false) (todos s) /\
  pendingSync (deleteTodo i c s) = queue_after s delete (IdOnly i) c.
Proof.
  intros Hf. unfold deleteTodo. rewrite Hf. api_simpl s; now repeat split.
Qed.

Lemma syncData_shape (s : App) :
  heap (syncData s) = heap s /\ todos (syncData s) = todos s /\
  pendingSync (syncData s) = pendingSync s /\ isOnline (syncData s) = isOnline s.
Proof.
  destruct (syncData_cases s) as [-> | (_ & it & _ & ->)]; now repeat split.
Qed.

Lemma resume_shape (k : nat) (o : ApiOutcome) (s : App) :
  todos (resume k o s) = todos s /\ same_ids (heap s) (heap (resume k o s)).
Proof.
  unfold resume. destruct (drains s !! k) as [d |]; [| split; [reflexivity | apply same_ids_refl]].
  destruct o as [b |]; [| split; [reflexivity | apply same_ids_refl]].
  rewrite mark_synced_eq.
  match goal with |- context [iterate ?a ?n ?st] =>
    destruct (iterate_cases a n st) as [[_ ->] | (it & _ & ->)];
    [destruct (sync_completed_frame st) as (_ & _ & -> & -> & _) |] end;
    cbn; (split; [reflexivity | apply synced_heap_same_ids]).
Qed.

(** ** Task ids *)

Lemma same_ids_task_id (h h' : list Todo) (l : loc) :
  same_ids h h' -> task_id h' l = task_id h l.
Proof.
  intros H. unfold task_id. specialize (H l).
  destruct (h !! l), (h' !! l); cbn in *; congruence.
Qed.

Lemma same_ids_is_Some (h h' : list Todo) (l : loc) :
  same_ids h h' -> is_Some (h !! l) -> is_Some (h' !! l).
Proof.
  intros H [t Ht]. specialize (H l). rewrite Ht in H.
  destruct (h' !! l); [eauto | discriminate].
Qed.

Lemma task_id_app (h : list Todo) (t : Todo) (l : loc) :
  is_Some (h !! l) -> task_id (h ++ [t]) l = task_id h l.
Proof.
  intros [x Hx]. unfold task_id.
  now rewrite (lookup_app_l_Some _ _ _ _ Hx), Hx.
Qed.

Lemma task_id_new (h : list Todo) (t : Todo) :
  task_id (h ++ [t]) (length h) = todo_id t.
Proof.
  unfold task_id. rewrite lookup_app_r by lia. now rewrite Nat.sub_diag.
Qed.

Lemma task_ids_ext (h h' : list Todo) (ts : list loc) :
  (forall l, l ∈ ts -> task_id h' l = task_id h l) ->
  task_id h' <$> ts = task_id h <$> ts.
Proof.
  intros H. apply list_fmap_ext. intros i l Hl.
  apply H. now apply list_elem_of_lookup_2 with (i := i).
Qed.

Lemma handle_tasks_change (ev : Event) (s : App) : tasks_change ev s (handle ev s).
Proof.
  assert (Hrefl : forall st, todos st = todos s -> heap st = heap s ->
                             tasks_change ev s st).
  { intros st Ht Hh. apply tc_keep; [exact Ht |]. rewrite Hh. apply same_ids_refl. }
  destruct ev; cbn [handle]; try (now apply Hrefl).
  - destruct (truthy_string (trim (todoInput s))) eqn:Ht.
    + destruct (addTodo_shape c s Ht) as (Hh & Hts & _).
      now apply tc_add with (c := c) (t := new_todo c s).
    + unfold addTodo. rewrite Ht. now apply Hrefl.
  - destruct (find_todo i s) as [l |] eqn:Hf.
    + destruct (toggleTodo_shape i c s l Hf) as (Hh & Hts & _).
      apply tc_keep; [exact Hts |]. rewrite Hh. now apply same_ids_alter.
    + unfold toggleTodo. rewrite Hf. now apply Hrefl.
  - destruct (find_todo i s) as [l |] eqn:Hf.
    + destruct (deleteTodo_shape i c s l Hf) as (Hh & Hts & _).
      now apply tc_filter with (P := fun l => has_id (heap s) i l = false) (dec := _).
    + unfold deleteTodo. rewrite Hf. now apply Hrefl.
  - destruct (find_todo i s) as [l |] eqn:Hf;
      [destruct (truthy_string (trim newText)) eqn:Ht |].
    + destruct (saveEdit_shape i newText c s l Hf Ht) as (Hh & Hts & _).
      apply tc_keep; [exact Hts |]. rewrite Hh. now apply same_ids_alter.
    + unfold saveEdit. rewrite Hf, Ht. now apply Hrefl.
    + unfold saveEdit. rewrite Hf. now apply Hrefl.
  - destruct (syncData_shape s) as (Hh & Ht & _). now apply Hrefl.
  - destruct (syncData_shape (set_isOnline true s)) as (Hh & Ht & _). now apply Hrefl.
  - destruct (ok && negb (isOnline s)); [| now apply Hrefl].
    destruct (syncData_shape (set_isOnline true s)) as (Hh & Ht & _). now apply Hrefl.
  - destruct (isOnline s); now apply Hrefl.
  - destruct (resume_shape k o s) as (Ht & Hh). now apply tc_keep.
Qed.

Lemma StronglySorted_fmap_filter {A : Type} (R : Z -> Z -> Prop) (f : A -> Z)
      (P : A -> Prop) `{!forall x, Decision (P x)} (l : list A) :
  StronglySorted R (f <$> l) -> StronglySorted R (f <$> filter P l).
Proof.
  induction l as [| x l IH]; [intros _; constructor |].
  rewrite fmap_cons, StronglySorted_cons. intros [Hall Hs].
  rewrite filter_cons. destruct (decide (P x)); [| now apply IH].
  rewrite fmap_cons, StronglySorted_cons. split; [| now apply IH].
  rewrite Forall_forall in *. intros y Hy. apply Hall.
  apply list_elem_of_fmap in Hy as (z & -> & Hz).
  apply list_elem_of_filter in Hz as [_ Hz]. now apply list_elem_of_fmap_2.
Qed.

Lemma StronglySorted_gt_NoDup (l : list Z) : StronglySorted Z.gt l -> NoDup l.
Proof.
  induction l as [| x l IH]; [constructor |].
  rewrite StronglySorted_cons. intros [Hall Hs]. constructor; [| now apply IH].
  intros Hin. rewrite Forall_forall in Hall.
  apply Hall in Hin. lia.
Qed.

Lemma handle_tasks_ok (ev : Event) (s : App) :
  fresh_clock s ev -> tasks_ok s -> tasks_ok (handle ev s).
Proof.
  intros Hfresh [Hwf Hs]. unfold tasks_ok, wf, task_ids in *.
  destruct (handle_tasks_change ev s) as [Ht Hh | P dec Hh Ht | c t -> Hid Hh Ht].
  - rewrite Ht. split.
    + intros l Hl. eapply same_ids_is_Some; eauto.
    + rewrite (task_ids_ext (heap s) (heap (handle ev s))); [exact Hs |].
      intros l _. now apply same_ids_task_id.
  - rewrite Ht, Hh. split.
    + intros l Hl. apply list_elem_of_filter in Hl as [_ Hl]. now apply Hwf.
    + now apply StronglySorted_fmap_filter.
  - rewrite Ht, Hh. split.
    + intros l Hl. apply elem_of_cons in Hl as [-> | Hl].
      * rewrite lookup_app_r by lia. rewrite Nat.sub_diag. cbn. eauto.
      * destruct (Hwf l Hl) as [x Hx]. rewrite (lookup_app_l_Some _ _ _ _ Hx). eauto.
    + rewrite fmap_cons, task_id_new, Hid.
      rewrite (task_ids_ext (heap s) (heap s ++ [t]));
        [| intros l Hl; apply task_id_app; now apply Hwf].
      apply StronglySorted_cons. split; [| exact Hs].
      cbn in Hfresh. eapply Forall_impl; [exact Hfresh |]. cbn. intros; lia.
Qed.

Lemma task_ids_lookup (s : App) (p : nat) (l : loc) (t : Todo) :
  todos s !! p = Some l -> heap s !! l = Some t ->
  task_ids s !! p = Some (todo_id t).
Proof.
  intros Hp Hl. unfold task_ids, task_id.
  now rewrite list_lookup_fmap, Hp; cbn; rewrite Hl.
Qed.

Lemma StronglySorted_gt_lookup (l : list Z) (p q : nat) (x y : Z) :
  StronglySorted Z.gt l -> (p < q)%nat -> l !! p = Some x -> l !! q = Some y -> y < x.
Proof.
  intros Hs. revert p q. induction Hs as [| a l Hs IH Hall]; intros p q Hpq Hp Hq.
  - now rewrite lookup_nil in Hp.
  - destruct q as [| q]; [lia |]. cbn in Hq. destruct p as [| p].
    + cbn in Hp. injection Hp as ->. rewrite Forall_forall in Hall.
      apply list_elem_of_lookup_2, Hall in Hq. lia.
    + cbn in Hp. apply (IH p q); [lia | assumption | assumption].
Qed.

(** Two tasks created at the same reading of the clock share their id;
    a task created after the clock has been set back has the smaller
    id. *)
Lemma same_reading_same_id :
  task_ids (run [Input "a"; Add (at_ms 5); Input "b"; Add (at_ms 5)] (fresh_install true))
    = [5; 5] /\
  task_ids (run [Input "a"; Add (at_ms 6); Input "b"; Add (at_ms 5)] (fresh_install true))
    = [5; 6] /\
  ~ ids_always_unique.
Proof.
  split; [reflexivity |]. split; [reflexivity |].
  intros H.
  destruct (H [Input "a"; Add (at_ms 5); Input "b"; Add (at_ms 5)] true) as [Hu _].
  specialize (Hu 0%nat 1%nat 1%nat 0%nat).
  vm_compute in Hu. specialize (Hu _ _ eq_refl eq_refl eq_refl eq_refl eq_refl).
  discriminate Hu.
Qed.

(** C6, amended: a task's id is the [Date.now()] reading at its creation.
    From a well-formed collection with strictly decreasing ids, and as
    long as every creation happens at a reading greater than the ids of
    the tasks then in the collection, in every state reached, whatever
    the interleaving of events, no two tasks of the collection share an
    id and the ids strictly decrease from the most recent task to the
    oldest. *)
Theorem ids_unique_when_clock_advances (s0 s : App) :
  tasks_ok s0 -> reach fresh_clock s0 s ->
  StronglySorted Z.gt (task_ids s) /\ unique_ids s /\ newest_first s.
Proof.
  intros H0 Hr.
  assert (Hok : tasks_ok s).
  { induction Hr as [| s ev Hr IH Hfresh]; [exact H0 |].
    now apply handle_tasks_ok. }
  destruct Hok as [_ Hs]. split; [exact Hs |]. split.
  - intros p q l l' t t' Hp Hq Hl Hl' Heq.
    pose proof (StronglySorted_gt_NoDup _ Hs) as Hnd.
    apply (NoDup_lookup _ p q (todo_id t) Hnd).
    + now apply task_ids_lookup with (l := l).
    + rewrite Heq. now apply task_ids_lookup with (l := l').
  - intros p q l l' t t' Hpq Hp Hq Hl Hl'.
    apply (StronglySorted_gt_lookup (task_ids s) p q); try assumption.
    + now apply task_ids_lookup with (l := l).
    + now apply task_ids_lookup with (l := l').
Qed.

Lemma reach_run (ok : App -> Event -> Prop) (evs : list Event) (s0 s : App) :
  reach ok s0 s ->
  (forall n ev, evs !! n = Some ev -> ok (run (take n evs) s) ev) ->
  reach ok s0 (run evs s).
Proof.
  revert s. induction evs as [| ev evs IH]; intros s Hr Hok; [exact Hr |].
  rewrite run_cons. apply IH.
  - apply reach_step; [exact Hr |]. exact (Hok 0%nat ev eq_refl).
  - intros n ev' Hn. exact (Hok (S n) ev' Hn).
Qed.

Lemma ids_unique_when_clock_advances_witness :
  task_ids (run [Input "a"; Add (at_ms 5); Input "b"; Add (at_ms 6)] (fresh_install false))
    = [6; 5] /\
  unique_ids (run [Input "a"; Add (at_ms 5); Input "b"; Add (at_ms 6)]
                  (fresh_install false)).
Proof.
  split; [reflexivity |].
  apply (ids_unique_when_clock_advances (fresh_install false)).
  - split; [intros l Hl; now apply elem_of_nil in Hl | constructor].
  - apply reach_run; [apply reach_init |].
    intros n ev Hn.
    destruct n as [| [| [| [| n]]]]; cbn in Hn; try discriminate;
      injection Hn as <-; cbn; try exact I.
    + constructor.
    + vm_compute. repeat constructor.
Defined.

(** ** How mutations and settlements take effect *)

Lemma mutation_takes_effect (ev : Event) (s : App) :
  is_mutation ev -> takes_effect ev s.
Proof.
  destruct ev; cbn; intros [].
  - destruct (truthy_string (trim (todoInput s))) eqn:Ht.
    + eapply te_commit; [cbn [handle]; unfold addTodo; rewrite Ht; reflexivity
                        | reflexivity ..].
    + apply te_noop. cbn [handle]. unfold addTodo. now rewrite Ht.
  - destruct (find_todo i s) as [l |] eqn:Hf.
    + eapply te_commit; [cbn [handle]; unfold toggleTodo; rewrite Hf; reflexivity
                        | reflexivity ..].
    + apply te_noop. cbn [handle]. unfold toggleTodo. now rewrite Hf.
  - destruct (find_todo i s) as [l |] eqn:Hf.
    + eapply te_commit; [cbn [handle]; unfold deleteTodo; rewrite Hf; reflexivity
                        | reflexivity ..].
    + apply te_noop. cbn [handle]. unfold deleteTodo. now rewrite Hf.
  - destruct (find_todo i s) as [l |] eqn:Hf;
      [destruct (truthy_string (trim newText)) eqn:Ht |].
    + eapply te_commit; [cbn [handle]; unfold saveEdit; rewrite Hf, Ht; reflexivity
                        | reflexivity ..].
    + apply te_noop. cbn [handle]. unfold saveEdit. now rewrite Hf, Ht.
    + apply te_noop. cbn [handle]. unfold saveEdit. now rewrite Hf.
Qed.

Lemma commit_online (a : Action) (d : Data) (c : Clock) (s1 : App) :
  isOnline s1 = true ->
  commit a d c s1
    = set_remoteCalls (remoteCalls s1 ++ [(a, d)])
        (set_localStorage (todos_saved s1) s1).
Proof.
  intros Hon. unfold commit. rewrite Hon. cbn [negb].
  rewrite saveTodos_eq. cbn. now rewrite Hon.
Qed.

Lemma commit_offline (a : Action) (d : Data) (c : Clock) (s1 : App) :
  isOnline s1 = false ->
  commit a d c s1
    = saveTodos (savePendingSync (set_pendingSync (pendingSync s1 ++ [queued a d c]) s1)).
Proof.
  intros Hon. unfold commit. rewrite Hon. cbn [negb].
  unfold addToPendingSync. fold (queued a d c).
  rewrite !saveTodos_eq, !savePendingSync_eq. cbn. now rewrite Hon.
Qed.

Lemma resume_settlement (k : nat) (o : ApiOutcome) (s : App) : settlement k o s.
Proof.
  destruct (drains s !! k) as [d |] eqn:Ek.
  - destruct o as [b |].
    + destruct (array_at s (d_array d) !! d_next d) as [it |] eqn:Ea.
      * apply se_next with (d := d) (b := b) (it := it); try easy.
        unfold resume. rewrite Ek, mark_synced_eq. unfold iterate.
        change (array_at (set_heap _ (set_drains _ s)) (d_array d))
          with (array_at s (d_array d)).
        now rewrite Ea.
      * apply se_done with (d := d) (b := b); try easy.
        unfold resume. rewrite Ek, mark_synced_eq. unfold iterate.
        change (array_at (set_heap _ (set_drains _ s)) (d_array d))
          with (array_at s (d_array d)).
        now rewrite Ea.
    + apply se_rejected with (d := d); try easy. unfold resume. now rewrite Ek.
  - apply se_none; [easy |]. unfold resume. now rewrite Ek.
Qed.

(** ** A rejected call *)

Lemma one_drain_same (n : nat) (it : SyncItem) (s s' : App) :
  drains s' = drains s -> detached s' = detached s ->
  pendingSync s' = pendingSync s -> one_drain n it s -> one_drain n it s'.
Proof. intros Hd Hdet Hq [E Hn]. unfold one_drain. now rewrite Hd, Hdet, Hq. Qed.

Lemma syncData_starts (s : App) :
  syncData s = s \/ (length (drains s) < length (drains (syncData s)))%nat.
Proof.
  destruct (syncData_cases s) as [E | (_ & it & _ & E)]; [now left | right].
  rewrite E. cbn. rewrite length_app. cbn. lia.
Qed.

Lemma mutation_frame (ev : Event) (s : App) :
  is_mutation ev ->
  api_frame s (handle ev s) /\
  (pendingSync (handle ev s) = pendingSync s \/
   exists it, pendingSync (handle ev s) = pendingSync s ++ [it]).
Proof.
  intros Hm. split.
  - destruct ev; cbn in Hm; try contradiction; cbn [handle].
    + apply addTodo_frame.
    + apply toggleTodo_frame.
    + apply deleteTodo_frame.
    + apply saveEdit_frame.
  - destruct (mutation_takes_effect ev s Hm)
      as [E | a d c s1 E _ Hq _ _ _ _ _ _]; rewrite E; [now left |].
    rewrite <- Hq. destruct (isOnline s1) eqn:Ho.
    + rewrite (commit_online _ _ _ _ Ho). now left.
    + rewrite (commit_offline _ _ _ _ Ho), saveTodos_eq, savePendingSync_eq.
      right. now exists (queued a d c).
Qed.

Lemma one_drain_step (n : nat) (it : SyncItem) (ev : Event) (s : App) :
  one_drain n it s -> drain_goes_on s ev ->
  (exists n' it', one_drain n' it' (handle ev s)) /\
  detached (handle ev s) = detached s /\
  notifications (handle ev s) = notifications s /\
  (exists added, pendingSync (handle ev s) = pendingSync s ++ added) /\
  (~ is_mutation ev ->
   pendingSync (handle ev s) = pendingSync s /\ todos (handle ev s) = todos s /\
   localStorage (handle ev s) = localStorage s).
Proof.
  intros [Ed Hn] [Hno Hon]. unfold starts_drain in Hno.
  assert (Hsame : forall st, drains st = drains s -> detached st = detached s ->
            notifications st = notifications s -> pendingSync st = pendingSync s ->
            todos st = todos s -> localStorage st = localStorage s ->
            (exists n' it', one_drain n' it' st) /\
            detached st = detached s /\ notifications st = notifications s /\
            (exists added, pendingSync st = pendingSync s ++ added) /\
            (~ is_mutation ev ->
             pendingSync st = pendingSync s /\ todos st = todos s /\
             localStorage st = localStorage s)).
  { intros st H1 H2 H3 H4 H5 H6. split; [| split; [| split; [| split]]]; try assumption.
    - exists n, it. now apply (one_drain_same n it s).
    - exists []. now rewrite app_nil_r.
    - now intros _. }
  assert (Hmut : is_mutation ev ->
            (exists n' it', one_drain n' it' (handle ev s)) /\
            detached (handle ev s) = detached s /\
            notifications (handle ev s) = notifications s /\
            (exists added, pendingSync (handle ev s) = pendingSync s ++ added) /\
            (~ is_mutation ev ->
             pendingSync (handle ev s) = pendingSync s /\ todos (handle ev s) = todos s /\
             localStorage (handle ev s) = localStorage s)).
  { intros Hm. destruct (mutation_frame ev s Hm) as [(Hdet & _ & _ & Hnt & Hd) Hq].
    split; [| split; [| split; [| split]]]; try assumption.
    - exists n, it. unfold one_drain. rewrite Hd, Hdet. split; [exact Ed |].
      destruct Hq as [-> | [x ->]]; [exact Hn | now apply lookup_app_l_Some].
    - destruct Hq as [-> | [x ->]]; [exists []; now rewrite app_nil_r | now exists [x]].
    - intros H. contradiction. }
  assert (Hsync : forall st, drains st = drains s -> detached st = detached s ->
            notifications st = notifications s -> pendingSync st = pendingSync s ->
            todos st = todos s -> localStorage st = localStorage s ->
            ~ (length (drains s) < length (drains (syncData st)))%nat ->
            (exists n' it', one_drain n' it' (syncData st)) /\
            detached (syncData st) = detached s /\
            notifications (syncData st) = notifications s /\
            (exists added, pendingSync (syncData st) = pendingSync s ++ added) /\
            (~ is_mutation ev ->
             pendingSync (syncData st) = pendingSync s /\ todos (syncData st) = todos s /\
             localStorage (syncData st) = localStorage s)).
  { intros st H1 H2 H3 H4 H5 H6 Hst.
    destruct (syncData_starts st) as [E | E]; [| rewrite H1 in E; contradiction].
    rewrite E. now apply Hsame. }
  destruct ev; cbn [handle] in *; try (now apply Hmut); try (now apply Hsame).
  - now apply Hsync.
  - now apply (Hsync (set_isOnline true s)).
  - destruct (ok && negb (isOnline s)); [| now apply Hsame].
    now apply (Hsync (set_isOnline true s)).
  - destruct (isOnline s); now apply Hsame.
  - destruct (resume_settlement k o s)
      as [_ E | d Ek -> E | d b it' Ek -> Ea E | d b Ek -> Ea E]; rewrite E in *.
    + now apply Hsame.
    + exfalso. apply Hon. rewrite Ed in Ek |- *.
      destruct k as [| k]; [reflexivity | cbn in Ek; discriminate Ek].
    + rewrite Ed in Ek. destruct k as [| k]; [| cbn in Ek; discriminate Ek].
      cbn in Ek. injection Ek as <-. cbn in Ea |- *.
      unfold array_at in Ea. rewrite Nat.eqb_refl in Ea.
      split; [| split; [| split; [| split]]]; try reflexivity.
      * exists (S n), it'. rewrite Ed. now split.
      * exists []. now rewrite app_nil_r.
      * now intros _.
    + exfalso. apply Hon.
      match goal with |- drains (sync_completed ?st) = [] =>
        destruct (sync_completed_frame st) as (-> & _) end.
      cbn. rewrite Ed in Ek |- *.
      destruct k as [| k]; [reflexivity | cbn in Ek; discriminate Ek].
Qed.

Lemma one_drain_run (evs : list Event) :
  forall (n : nat) (it : SyncItem) (s : App),
    one_drain n it s -> admits drain_goes_on evs s ->
    (exists n' it', one_drain n' it' (run evs s)) /\
    detached (run evs s) = detached s /\
    notifications (run evs s) = notifications s /\
    (exists added, pendingSync (run evs s) = pendingSync s ++ added) /\
    (Forall (fun ev => ~ is_mutation ev) evs ->
     pendingSync (run evs s) = pendingSync s /\ todos (run evs s) = todos s /\
     localStorage (run evs s) = localStorage s).
Proof.
  induction evs as [| ev evs IH]; intros n it s Ho Hadm.
  - cbn. split; [now exists n, it |]. split; [reflexivity |]. split; [reflexivity |].
    split; [exists []; now rewrite app_nil_r | now intros _].
  - destruct Hadm as [Hev Hadm]. rewrite run_cons.
    destruct (one_drain_step n it ev s Ho Hev)
      as ((n1 & it1 & Ho1) & Hdet1 & Hnt1 & (a1 & Hq1) & Hnm1).
    destruct (IH n1 it1 (handle ev s) Ho1 Hadm)
      as (Ho2 & Hdet2 & Hnt2 & (a2 & Hq2) & Hnm2).
    split; [exact Ho2 |]. split; [congruence |]. split; [congruence |]. split.
    + exists (a1 ++ a2). now rewrite Hq2, Hq1, app_assoc.
    + intros Hall. apply Forall_cons in Hall as [Hm Hall].
      destruct (Hnm2 Hall) as (-> & -> & ->). now apply Hnm1.
Qed.

Lemma syncData_one_drain (s : App) :
  drains s = [] -> isOnline s = true -> pendingSync s <> [] ->
  exists it,
    one_drain 0 it (syncData s) /\
    detached (syncData s) = detached s /\
    notifications (syncData s) = notifications s /\
    pendingSync (syncData s) = pendingSync s /\
    todos (syncData s) = todos s /\
    localStorage (syncData s) = localStorage s.
Proof.
  intros Hd Hon Hne.
  destruct (pendingSync s) as [| it0 q] eqn:Eq; [congruence |].
  exists it0. rewrite (syncData_awaiting s it0 Hd Hon) by now rewrite Eq.
  cbn. unfold one_drain. cbn. now rewrite Eq.
Qed.

(** The client resolves the second of three calls with
    [{ success: false }].  [syncData] does not look at what the awaited
    call resolves with: the drain goes on, marks the task, replays the
    third entry, empties the queue, stores the empty queue and shows the
    success notification. *)
Lemma failure_result_clears_queue :
  failed (Resolved false) /\
  length (pendingSync three_queued) = 3%nat /\
  pendingSync (drain_with failing_second_call three_queued) = [] /\
  notifications (drain_with failing_second_call three_queued)
    = [("Sync completed successfully!", Success)] /\
  remoteCalls (drain_with failing_second_call three_queued)
    = [(create, TodoRef 0%nat); (create, TodoRef 1%nat); (create, TodoRef 2%nat)] /\
  status_at (heap (drain_with failing_second_call three_queued)) 1%nat = Some synced /\
  ls_pendingSync (localStorage (drain_with failing_second_call three_queued))
    = Some (JsonText (JArr [])) /\
  ~ failure_keeps_queue.
Proof.
  split; [discriminate |]. split; [reflexivity |]. split; [reflexivity |].
  split; [reflexivity |]. split; [reflexivity |]. split; [reflexivity |].
  split; [reflexivity |].
  intros H.
  destruct (H failing_second_call three_queued eq_refl eq_refl eq_refl) as [Hq _].
  - apply Exists_cons. right. apply Exists_cons. left. discriminate.
  - vm_compute in Hq. discriminate Hq.
Qed.

(** Why the amended statement asks that no other drain be started.  A
    probe starts a second drain while the first is suspended; the first
    ends and empties the queue; the call of the second rejects, and the
    queue it leaves is the empty one, not the one entry it started on. *)
Lemma rejected_second_drain_finds_queue_empty :
  length (pendingSync (run flapping (fresh_install true))) = 1%nat /\
  starts_drain (ProbeDone true) (run flapping (fresh_install true)) /\
  pendingSync (run second_drain_rejected (fresh_install true)) = [] /\
  drains (run second_drain_rejected (fresh_install true)) = [] /\
  notifications (run second_drain_rejected (fresh_install true))
    = [("Sync completed successfully!", Success);
       ("Sync failed. Will retry later.", Error)].
Proof.
  split; [reflexivity |]. split; [vm_compute; lia |]. now repeat split.
Qed.

(** C1, amended: a drain is started, online and on a non-empty queue,
    with no other drain suspended; while it is suspended any events are
    handled (settling calls that resolve, inputs, mutations online and
    offline, connectivity events and probes) of which none starts
    another drain; then its awaited call rejects.  The rejection removes
    and reorders nothing: the queue is the queue the drain started on,
    followed by the entries that mutations queued while the drain was
    suspended; when no mutation was handled it is the queue the drain
    started on, and collection and store are as they were.  The array in
    [this.pendingSync] is still the one the drain started on; the
    rejection itself issues no call, writes nothing to the store and
    touches no task, so when nothing but resolving calls came in between,
    the calls issued are those for the entries up to the rejected one and
    no other.  The failure notification is shown, the sync indicator is
    cleared, no drain is left suspended, and nothing of the drain is left
    to resume. *)
Theorem rejected_call_keeps_queue (evs : list Event) (s : App) :
  drains s = [] -> isOnline s = true -> pendingSync s <> [] ->
  admits drain_goes_on evs (syncData s) ->
  let s1 := run evs (syncData s) in
  let s' := handle (ApiDone 0 Rejected) s1 in
  pendingSync s' = pendingSync s1 /\
  (exists added, pendingSync s' = pendingSync s ++ added) /\
  (Forall (fun ev => ~ is_mutation ev) evs ->
   pendingSync s' = pendingSync s /\ todos s' = todos s /\
   localStorage s' = localStorage s) /\
  detached s' = detached s /\
  heap s' = heap s1 /\ todos s' = todos s1 /\
  localStorage s' = localStorage s1 /\
  remoteCalls s' = remoteCalls s1 /\
  (forall oks,
     Forall resolved oks -> (length oks < length (pendingSync s))%nat ->
     evs = map (ApiDone 0) oks ->
     remoteCalls s'
       = remoteCalls s ++ map call_of (take (S (length oks)) (pendingSync s))) /\
  notifications s' = notifications s ++ [("Sync failed. Will retry later.", Error)] /\
  syncing s' = false /\
  drains s' = [] /\
  (forall k o, handle (ApiDone k o) s' = s').
Proof.
  intros Hd Hon Hne Hadm s1 s'.
  assert (Hcalls : forall oks,
            Forall resolved oks -> (length oks < length (pendingSync s))%nat ->
            evs = map (ApiDone 0) oks ->
            remoteCalls s'
              = remoteCalls s ++ map call_of (take (S (length oks)) (pendingSync s))).
  { intros oks Hoks Hlen E. subst s' s1. rewrite E.
    change (handle (ApiDone 0 Rejected) (run (map (ApiDone 0) oks) (syncData s)))
      with (run [ApiDone 0 Rejected] (run (map (ApiDone 0) oks) (syncData s))).
    rewrite <- run_app.
    change [ApiDone 0 Rejected] with (map (ApiDone 0) [Rejected]).
    rewrite <- map_app. fold (drain_with (oks ++ [Rejected]) s).
    now rewrite (drain_with_rejected oks [] s Hd Hon Hoks Hlen). }
  destruct (syncData_one_drain s Hd Hon Hne)
    as (it0 & Ho0 & Hdet0 & Hnt0 & Hq0 & Ht0 & Hls0).
  destruct (one_drain_run evs 0%nat it0 (syncData s) Ho0 Hadm)
    as ((n & it & [Ed Hn]) & Hdet & Hnt & (added & Hq) & Hnm).
  fold s1 in Ed, Hn, Hdet, Hnt, Hq, Hnm.
  assert (E : s' = sync_failed (set_drains [] s1)).
  { subst s'. cbn [handle]. unfold resume. now rewrite Ed. }
  rewrite E. cbn.
  split; [reflexivity |]. split; [exists added; congruence |].
  split; [intros Hall; destruct (Hnm Hall) as (-> & -> & ->); now repeat split |].
  split; [congruence |]. split; [reflexivity |]. split; [reflexivity |].
  split; [reflexivity |]. split; [reflexivity |].
  split; [intros oks H1 H2 H3; rewrite <- (Hcalls oks H1 H2 H3), E; reflexivity |].
  split; [now rewrite Hnt, Hnt0 |]. split; [reflexivity |]. split; [reflexivity |].
  intros k o. unfold resume. cbn. now rewrite lookup_nil.
Qed.

Lemma rejected_call_keeps_queue_witness :
  length (pendingSync (handle (ApiDone 0 Rejected)
                         (run toggled_during_drain (syncData three_queued)))) = 4%nat /\
  take 3 (pendingSync (handle (ApiDone 0 Rejected)
                         (run toggled_during_drain (syncData three_queued))))
    = pendingSync three_queued /\
  notifications (handle (ApiDone 0 Rejected)
                   (run toggled_during_drain (syncData three_queued)))
    = [("Sync failed. Will retry later.", Error)] /\
  syncing (handle (ApiDone 0 Rejected)
             (run toggled_during_drain (syncData three_queued))) = false.
Proof.
  assert (Hne : pendingSync three_queued <> []) by (vm_compute; discriminate).
  assert (Hadm : admits drain_goes_on toggled_during_drain (syncData three_queued)).
  { cbn [admits toggled_during_drain]. unfold drain_goes_on, starts_drain.
    repeat split; try (vm_compute; lia); try (vm_compute; discriminate). }
  destruct (rejected_call_keeps_queue toggled_during_drain three_queued
              eq_refl eq_refl Hne Hadm)
    as (_ & _ & _ & _ & _ & _ & _ & _ & _ & Hn & Hs & _).
  split; [reflexivity |]. split; [reflexivity |]. split; [exact Hn | exact Hs].
Defined.

(** ** Status consistency *)

Lemma NoDup_fmap_eq {A B : Type} (f : A -> B) (l : list A) (x y : A) :
  NoDup (f <$> l) -> x ∈ l -> y ∈ l -> f x = f y -> x = y.
Proof.
  intros Hnd Hx Hy Hf.
  apply list_elem_of_lookup in Hx as [i Hi]. apply list_elem_of_lookup in Hy as [j Hj].
  assert (i = j) as ->.
  { apply (NoDup_lookup _ i j (f x) Hnd).
    - now rewrite list_lookup_fmap, Hi.
    - now rewrite list_lookup_fmap, Hj, Hf. }
  congruence.
Qed.

Lemma task_id_lookup (h : list Todo) (l : loc) (t : Todo) :
  h !! l = Some t -> task_id h l = todo_id t.
Proof. intros H. unfold task_id. now rewrite H. Qed.

Lemma find_has_id_unique (h : list Todo) (ts : list loc) (l : loc) (t : Todo) :
  NoDup (task_id h <$> ts) -> l ∈ ts -> h !! l = Some t ->
  find (has_id h (todo_id t)) ts = Some l.
Proof.
  intros Hnd Hl Ht.
  destruct (find (has_id h (todo_id t)) ts) as [l' |] eqn:Hf.
  - apply find_has_id_Some in Hf as (Hl' & t' & Ht' & Hid). f_equal.
    apply (NoDup_fmap_eq (task_id h) ts); try assumption.
    now rewrite (task_id_lookup _ _ _ Ht), (task_id_lookup _ _ _ Ht').
  - apply find_none with (x := l) in Hf; [| now apply list_elem_of_In].
    unfold has_id in Hf. rewrite Ht in Hf. now rewrite Z.eqb_refl in Hf.
Qed.

Lemma data_id_app (h : list Todo) (t : Todo) (d : Data) :
  (forall l, d = TodoRef l -> is_Some (h !! l)) ->
  data_id (h ++ [t]) d = data_id h d.
Proof.
  intros H. destruct d as [l | i]; [| reflexivity]. cbn.
  destruct (H l eq_refl) as [x Hx]. now rewrite (lookup_app_l_Some _ _ _ _ Hx), Hx.
Qed.

Lemma good_touch (h : list Todo) (ts : list loc) (q q' : list SyncItem)
      (l : loc) (f : Todo -> Todo) (st : SyncStatus) :
  good h ts q -> l ∈ ts ->
  (forall t, todo_id (f t) = todo_id t) -> (forall t, syncStatus (f t) = st) ->
  queue_follows st (TodoRef l) q q' ->
  good (alter f l h) ts q'.
Proof.
  intros [Hwf Hrefs Hnd Htr Hst] Hl Hid Hs Hq.
  pose proof (same_ids_alter f l h Hid) as Hsame.
  constructor.
  - intros l0 Hl0. eapply same_ids_is_Some; eauto.
  - intros it l' Hit Hd. eapply same_ids_is_Some; [exact Hsame |].
    destruct Hq as [it0 _ Hd0 -> | _ _ ->]; [| now apply elem_of_nil in Hit].
    apply elem_of_app in Hit as [Hit | Hit]; [now apply (Hrefs it) |].
    apply list_elem_of_singleton in Hit. subst it. rewrite Hd0 in Hd.
    injection Hd as <-. now apply Hwf.
  - rewrite (task_ids_ext h (alter f l h)); [exact Hnd |].
    intros l0 _. now apply same_ids_task_id.
  - intros l0 Hl0. rewrite (same_ids_task_id _ _ _ Hsame). now apply Htr.
  - intros l0 t0 Hl0 Hlk.
    assert (Hdata : forall it, data_id (alter f l h) (data it) = data_id h (data it))
      by (intros it; now apply same_ids_data_id).
    destruct (decide (l = l0)) as [<- | Hne].
    + rewrite list_lookup_alter_eq in Hlk.
      destruct (h !! l) as [t |] eqn:Ht; [| discriminate]. cbn in Hlk.
      injection Hlk as <-. rewrite Hs, Hid.
      destruct Hq as [it0 -> Hd0 -> | -> _ ->].
      * split; [intros _ | reflexivity]. exists it0. split.
        -- apply elem_of_app. right. now apply list_elem_of_singleton.
        -- rewrite Hdata, Hd0. cbn. now rewrite Ht.
      * split; [discriminate |]. intros (it & Hit & _). now apply elem_of_nil in Hit.
    + rewrite list_lookup_alter_ne in Hlk by exact Hne.
      rewrite (Hst l0 t0 Hl0 Hlk).
      destruct Hq as [it0 _ Hd0 -> | _ -> ->];
        [| split; intros (it & Hit & _); now apply elem_of_nil in Hit].
      split; intros (it & Hit & Hdi).
      * exists it. split; [apply elem_of_app; now left | now rewrite Hdata].
      * rewrite Hdata in Hdi. apply elem_of_app in Hit as [Hit | Hit]; [now exists it |].
        apply list_elem_of_singleton in Hit. subst it. rewrite Hd0 in Hdi. cbn in Hdi.
        destruct (Hwf l Hl) as [t Ht]. rewrite Ht in Hdi. cbn in Hdi.
        exfalso. apply Hne. apply (NoDup_fmap_eq (task_id h) ts); try assumption.
        rewrite (task_id_lookup _ _ _ Ht), (task_id_lookup _ _ _ Hlk). congruence.
Qed.

Lemma good_add (h : list Todo) (ts : list loc) (q q' : list SyncItem) (t : Todo) :
  good h ts q ->
  todo_id t <> 0 -> todo_id t ∉ task_id h <$> ts ->
  queue_follows (syncStatus t) (TodoRef (length h)) q q' ->
  good (h ++ [t]) (length h :: ts) q'.
Proof.
  intros [Hwf Hrefs Hnd Htr Hst] Hnz Hfresh Hq.
  assert (Hnew : (h ++ [t]) !! length h = Some t).
  { rewrite lookup_app_r by lia. now rewrite Nat.sub_diag. }
  assert (Hold : forall l x, h !! l = Some x -> (h ++ [t]) !! l = Some x).
  { intros l x Hx. now rewrite (lookup_app_l_Some _ _ _ _ Hx). }
  assert (Hids : task_id (h ++ [t]) <$> ts = task_id h <$> ts).
  { apply task_ids_ext. intros l Hl. apply task_id_app. now apply Hwf. }
  constructor.
  - intros l Hl. apply elem_of_cons in Hl as [-> | Hl]; [eauto |].
    destruct (Hwf l Hl) as [x Hx]. eauto.
  - intros it l Hit Hd.
    destruct Hq as [it0 _ Hd0 -> | _ _ ->]; [| now apply elem_of_nil in Hit].
    apply elem_of_app in Hit as [Hit | Hit].
    + destruct (Hrefs it l Hit Hd) as [x Hx]. eauto.
    + apply list_elem_of_singleton in Hit. subst it. rewrite Hd0 in Hd.
      injection Hd as <-. eauto.
  - rewrite fmap_cons, task_id_new, Hids. now constructor.
  - intros l Hl. apply elem_of_cons in Hl as [-> | Hl].
    + now rewrite task_id_new.
    + rewrite task_id_app by now apply Hwf. now apply Htr.
  - intros l0 t0 Hl0 Hlk.
    assert (Hdata : forall it, it ∈ q ->
                               data_id (h ++ [t]) (data it) = data_id h (data it)).
    { intros it Hit. apply data_id_app. intros l. now apply Hrefs. }
    apply elem_of_cons in Hl0 as [-> | Hl0].
    + rewrite Hnew in Hlk. injection Hlk as <-.
      destruct Hq as [it0 Hp Hd0 -> | Hs _ ->].
      * rewrite Hp. split; [intros _ | reflexivity]. exists it0. split.
        -- apply elem_of_app. right. now apply list_elem_of_singleton.
        -- rewrite Hd0. cbn. now rewrite Hnew.
      * rewrite Hs. split; [discriminate |].
        intros (it & Hit & _). now apply elem_of_nil in Hit.
    + destruct (Hwf l0 Hl0) as [x Hx]. rewrite (Hold _ _ Hx) in Hlk.
      injection Hlk as <-. rewrite (Hst l0 x Hl0 Hx).
      destruct Hq as [it0 _ Hd0 -> | _ -> ->];
        [| split; intros (it & Hit & _); now apply elem_of_nil in Hit].
      split; intros (it & Hit & Hdi).
      * exists it. split; [apply elem_of_app; now left | now rewrite Hdata].
      * apply elem_of_app in Hit as [Hit | Hit];
          [exists it; split; [exact Hit | now rewrite <- Hdata] |].
        apply list_elem_of_singleton in Hit. subst it. rewrite Hd0 in Hdi. cbn in Hdi.
        rewrite Hnew in Hdi. cbn in Hdi. exfalso. apply Hfresh.
        injection Hdi as ->. rewrite <- (task_id_lookup _ _ _ Hx).
        now apply list_elem_of_fmap_2.
Qed.

Lemma good_delete (h : list Todo) (ts : list loc) (q q' : list SyncItem) (i : Z)
      (st : SyncStatus) :
  good h ts q ->
  queue_follows st (IdOnly i) q q' ->
  good h (filter (fun l => has_id h i l = false) ts) q'.
Proof.
  intros [Hwf Hrefs Hnd Htr Hst] Hq. constructor.
  - intros l Hl. apply list_elem_of_filter in Hl as [_ Hl]. now apply Hwf.
  - intros it l Hit Hd.
    destruct Hq as [it0 _ Hd0 -> | _ _ ->]; [| now apply elem_of_nil in Hit].
    apply elem_of_app in Hit as [Hit | Hit]; [now apply (Hrefs it) |].
    apply list_elem_of_singleton in Hit. subst it. rewrite Hd0 in Hd. discriminate.
  - apply (NoDup_fmap_2_strong (task_id h)).
    + intros x y Hx Hy Hxy. apply list_elem_of_filter in Hx as [_ Hx].
      apply list_elem_of_filter in Hy as [_ Hy].
      now apply (NoDup_fmap_eq (task_id h) ts).
    + apply NoDup_filter. now apply NoDup_fmap_1 in Hnd.
  - intros l Hl. apply list_elem_of_filter in Hl as [_ Hl]. now apply Htr.
  - intros l0 t0 Hl0 Hlk. apply list_elem_of_filter in Hl0 as [Hkeep Hl0].
    rewrite (Hst l0 t0 Hl0 Hlk).
    destruct Hq as [it0 _ Hd0 -> | _ -> ->]; [| reflexivity].
    split; intros (it & Hit & Hdi).
    + exists it. split; [apply elem_of_app; now left | exact Hdi].
    + apply elem_of_app in Hit as [Hit | Hit]; [now exists it |].
      apply list_elem_of_singleton in Hit. subst it. rewrite Hd0 in Hdi. cbn in Hdi.
      injection Hdi as ->. unfold has_id in Hkeep. rewrite Hlk in Hkeep.
      now rewrite Z.eqb_refl in Hkeep.
Qed.

Lemma quiescent_same (s s' : App) :
  drains s' = drains s -> heap s' = heap s -> todos s' = todos s ->
  pendingSync s' = pendingSync s -> (isOnline s' = true -> isOnline s = true) ->
  quiescent s -> quiescent s'.
Proof.
  intros Hd Hh Ht Hq Ho [[Hi Hg] Hon]. unfold quiescent, settled.
  rewrite Hd, Hh, Ht, Hq. split; [now split |]. intros H. now apply Hon, Ho.
Qed.

Lemma queue_after_follows (s : App) (a : Action) (d : Data) (c : Clock) :
  (isOnline s = true -> pendingSync s = []) ->
  queue_follows (status_now s) d (pendingSync s) (queue_after s a d c).
Proof.
  intros Hon. unfold status_now, queue_after. destruct (isOnline s).
  - apply qf_online; [reflexivity | now apply Hon | now apply Hon].
  - now apply qf_offline with (it := queued a d c).
Qed.

Lemma queue_after_online (s : App) (a : Action) (d : Data) (c : Clock) :
  (isOnline s = true -> pendingSync s = []) ->
  isOnline s = true -> queue_after s a d c = [].
Proof. intros Hon H. unfold queue_after. rewrite H. now apply Hon. Qed.

(** *** What holds while a drain is suspended *)

Lemma good_sound (h : list Todo) (ts : list loc) (q : list SyncItem) :
  good h ts q -> sound h ts q.
Proof. intros [Hwf Hrefs Hnd Htr _]. now constructor. Qed.

Lemma good_pending_from (h : list Todo) (ts : list loc) (q : list SyncItem) :
  good h ts q -> pending_from 0 h ts q.
Proof.
  intros Hg l t Hl Ht Hp.
  destruct (proj1 (good_status _ _ _ Hg l t Hl Ht) Hp) as (it & Hit & Hdi).
  apply list_elem_of_lookup in Hit as [j Hj].
  exists j, it. split; [lia |]. now split.
Qed.

Lemma sound_same_ids (h h' : list Todo) (ts : list loc) (q : list SyncItem) :
  same_ids h h' -> sound h ts q -> sound h' ts q.
Proof.
  intros Hsame [Hwf Hrefs Hnd Htr]. constructor.
  - intros l Hl. eapply same_ids_is_Some; eauto.
  - intros it l Hit Hd. eapply same_ids_is_Some; eauto.
  - rewrite (task_ids_ext h h'); [exact Hnd |].
    intros l _. now apply same_ids_task_id.
  - intros l Hl. rewrite (same_ids_task_id _ _ _ Hsame). now apply Htr.
Qed.

Lemma queue_grows_cases (st : SyncStatus) (d : Data) (q q' : list SyncItem) :
  queue_grows st d q q' -> q' = q \/ exists it, data it = d /\ q' = q ++ [it].
Proof. intros [it _ Hd -> | _ ->]; [right; now exists it | now left]. Qed.

Lemma queue_grows_lookup (st : SyncStatus) (d : Data) (q q' : list SyncItem)
      (j : nat) (it : SyncItem) :
  queue_grows st d q q' -> q !! j = Some it -> q' !! j = Some it.
Proof.
  intros [it0 _ _ -> | _ ->] Hj; [| exact Hj]. now apply lookup_app_l_Some.
Qed.

Lemma queue_grows_elem (st : SyncStatus) (d : Data) (q q' : list SyncItem) (it : SyncItem) :
  queue_grows st d q q' -> it ∈ q' -> it ∈ q \/ data it = d.
Proof.
  intros [it0 _ Hd -> | _ ->] Hit; [| now left].
  apply elem_of_app in Hit as [Hit | Hit]; [now left |].
  apply list_elem_of_singleton in Hit. subst it. now right.
Qed.

Lemma queue_grows_pending (d : Data) (q q' : list SyncItem) :
  queue_grows pending d q q' ->
  exists it, q' !! length q = Some it /\ data it = d.
Proof.
  intros [it _ Hd -> | Hs _]; [| discriminate].
  exists it. split; [| exact Hd]. rewrite lookup_app_r by lia. now rewrite Nat.sub_diag.
Qed.

Lemma queue_after_grows (s : App) (a : Action) (d : Data) (c : Clock) :
  queue_grows (status_now s) d (pendingSync s) (queue_after s a d c).
Proof.
  unfold status_now, queue_after. destruct (isOnline s).
  - now apply qg_online.
  - now apply qg_offline with (it := queued a d c).
Qed.

(** *** Mutations while a drain is suspended *)

Lemma sound_touch (h : list Todo) (ts : list loc) (q q' : list SyncItem)
      (l : loc) (f : Todo -> Todo) (st : SyncStatus) :
  sound h ts q -> l ∈ ts ->
  (forall t, todo_id (f t) = todo_id t) ->
  queue_grows st (TodoRef l) q q' ->
  sound (alter f l h) ts q'.
Proof.
  intros Hs Hl Hid Hq.
  apply (sound_same_ids h); [now apply same_ids_alter |].
  destruct Hs as [Hwf Hrefs Hnd Htr]. constructor; try assumption.
  intros it l' Hit Hd.
  destruct (queue_grows_elem _ _ _ _ _ Hq Hit) as [Hin | Hd'].
  - now apply (Hrefs it).
  - rewrite Hd' in Hd. injection Hd as <-. now apply Hwf.
Qed.

Lemma pending_touch (n : nat) (h : list Todo) (ts : list loc) (q q' : list SyncItem)
      (l : loc) (f : Todo -> Todo) (st : SyncStatus) :
  sound h ts q -> pending_from n h ts q -> l ∈ ts -> (n <= length q)%nat ->
  (forall t, todo_id (f t) = todo_id t) -> (forall t, syncStatus (f t) = st) ->
  queue_grows st (TodoRef l) q q' ->
  pending_from n (alter f l h) ts q'.
Proof.
  intros Hs Hp Hl Hn Hid Hst Hq l0 t0 Hl0 Hlk Hpend.
  pose proof (same_ids_alter f l h Hid) as Hsame.
  assert (Hdata : forall it, data_id (alter f l h) (data it) = data_id h (data it))
    by (intros it; now apply same_ids_data_id).
  destruct (decide (l = l0)) as [<- | Hne].
  - rewrite list_lookup_alter_eq in Hlk.
    destruct (h !! l) as [t |] eqn:Ht; [| discriminate]. cbn in Hlk.
    injection Hlk as <-. rewrite Hst in Hpend. subst st. rewrite Hid.
    destruct (queue_grows_pending _ _ _ Hq) as (it & Hj & Hd).
    exists (length q), it. split; [exact Hn |]. split; [exact Hj |].
    rewrite Hdata, Hd. cbn. now rewrite Ht.
  - rewrite list_lookup_alter_ne in Hlk by exact Hne.
    destruct (Hp l0 t0 Hl0 Hlk Hpend) as (j & it & Hj & Hqj & Hdi).
    exists j, it. split; [exact Hj |]. split.
    + now apply (queue_grows_lookup _ _ _ _ _ _ Hq).
    + now rewrite Hdata.
Qed.

Lemma sound_add (h : list Todo) (ts : list loc) (q q' : list SyncItem) (t : Todo) :
  sound h ts q ->
  todo_id t <> 0 -> todo_id t ∉ task_id h <$> ts ->
  queue_grows (syncStatus t) (TodoRef (length h)) q q' ->
  sound (h ++ [t]) (length h :: ts) q'.
Proof.
  intros [Hwf Hrefs Hnd Htr] Hnz Hfresh Hq.
  assert (Hnew : (h ++ [t]) !! length h = Some t).
  { rewrite lookup_app_r by lia. now rewrite Nat.sub_diag. }
  assert (Hids : task_id (h ++ [t]) <$> ts = task_id h <$> ts).
  { apply task_ids_ext. intros l Hl. apply task_id_app. now apply Hwf. }
  constructor.
  - intros l Hl. apply elem_of_cons in Hl as [-> | Hl]; [eauto |].
    destruct (Hwf l Hl) as [x Hx]. rewrite (lookup_app_l_Some _ _ _ _ Hx). eauto.
  - intros it l Hit Hd.
    destruct (queue_grows_elem _ _ _ _ _ Hq Hit) as [Hin | Hd'].
    + destruct (Hrefs it l Hin Hd) as [x Hx]. rewrite (lookup_app_l_Some _ _ _ _ Hx). eauto.
    + rewrite Hd' in Hd. injection Hd as <-. eauto.
  - rewrite fmap_cons, task_id_new, Hids. now constructor.
  - intros l Hl. apply elem_of_cons in Hl as [-> | Hl].
    + now rewrite task_id_new.
    + rewrite task_id_app by now apply Hwf. now apply Htr.
Qed.

Lemma pending_add (n : nat) (h : list Todo) (ts : list loc) (q q' : list SyncItem)
      (t : Todo) :
  sound h ts q -> pending_from n h ts q -> (n <= length q)%nat ->
  queue_grows (syncStatus t) (TodoRef (length h)) q q' ->
  pending_from n (h ++ [t]) (length h :: ts) q'.
Proof.
  intros [Hwf Hrefs Hnd Htr] Hp Hn Hq l0 t0 Hl0 Hlk Hpend.
  assert (Hnew : (h ++ [t]) !! length h = Some t).
  { rewrite lookup_app_r by lia. now rewrite Nat.sub_diag. }
  apply elem_of_cons in Hl0 as [-> | Hl0].
  - rewrite Hnew in Hlk. injection Hlk as <-. rewrite Hpend in Hq.
    destruct (queue_grows_pending _ _ _ Hq) as (it & Hj & Hd).
    exists (length q), it. split; [exact Hn |]. split; [exact Hj |].
    rewrite Hd. cbn. now rewrite Hnew.
  - destruct (Hwf l0 Hl0) as [x Hx].
    rewrite (lookup_app_l_Some _ _ _ _ Hx) in Hlk. injection Hlk as <-.
    destruct (Hp l0 x Hl0 Hx Hpend) as (j & it & Hj & Hqj & Hdi).
    exists j, it. split; [exact Hj |]. split.
    + now apply (queue_grows_lookup _ _ _ _ _ _ Hq).
    + rewrite data_id_app; [exact Hdi |].
      intros l. apply Hrefs. now apply list_elem_of_lookup_2 with (i := j).
Qed.

Lemma sound_delete (h : list Todo) (ts : list loc) (q q' : list SyncItem) (i : Z)
      (st : SyncStatus) :
  sound h ts q ->
  queue_grows st (IdOnly i) q q' ->
  sound h (filter (fun l => has_id h i l = false) ts) q'.
Proof.
  intros [Hwf Hrefs Hnd Htr] Hq. constructor.
  - intros l Hl. apply list_elem_of_filter in Hl as [_ Hl]. now apply Hwf.
  - intros it l Hit Hd.
    destruct (queue_grows_elem _ _ _ _ _ Hq Hit) as [Hin | Hd'].
    + now apply (Hrefs it).
    + rewrite Hd' in Hd. discriminate.
  - apply (NoDup_fmap_2_strong (task_id h)).
    + intros x y Hx Hy Hxy. apply list_elem_of_filter in Hx as [_ Hx].
      apply list_elem_of_filter in Hy as [_ Hy].
      now apply (NoDup_fmap_eq (task_id h) ts).
    + apply NoDup_filter. now apply NoDup_fmap_1 in Hnd.
  - intros l Hl. apply list_elem_of_filter in Hl as [_ Hl]. now apply Htr.
Qed.

Lemma pending_delete (n : nat) (h : list Todo) (ts : list loc) (q q' : list SyncItem)
      (i : Z) (st : SyncStatus) :
  pending_from n h ts q ->
  queue_grows st (IdOnly i) q q' ->
  pending_from n h (filter (fun l => has_id h i l = false) ts) q'.
Proof.
  intros Hp Hq l t Hl Hlk Hpend.
  apply list_elem_of_filter in Hl as [_ Hl].
  destruct (Hp l t Hl Hlk Hpend) as (j & it & Hj & Hqj & Hdi).
  exists j, it. split; [exact Hj |]. split; [| exact Hdi].
  now apply (queue_grows_lookup _ _ _ _ _ _ Hq).
Qed.

(** *** A call resolves *)

Lemma pending_marked (n : nat) (h : list Todo) (ts : list loc) (q : list SyncItem)
      (it : SyncItem) :
  sound h ts q -> pending_from n h ts q -> q !! n = Some it ->
  pending_from (S n) (synced_heap ts h it) ts q.
Proof.
  intros [Hwf Hrefs Hnd Htr] Hp Hn l t' Hl Hlk Hpend.
  pose proof (synced_heap_same_ids ts h it) as Hsame.
  destruct (Hwf l Hl) as [t Ht].
  assert (Hid : todo_id t' = todo_id t).
  { pose proof (Hsame l) as E. rewrite Hlk, Ht in E. cbn in E. congruence. }
  assert (Hst : syncStatus t = pending).
  { destruct (synced_heap_status ts h it l) as [E | E];
      unfold status_at in E; rewrite Hlk in E; cbn in E.
    - rewrite Ht in E. cbn in E. congruence.
    - congruence. }
  destruct (Hp l t Hl Ht Hst) as (j & itj & Hj & Hqj & Hdi).
  assert (Hne : j <> n).
  { intros ->. rewrite Hn in Hqj. injection Hqj as <-.
    assert (Hs : status_at (synced_heap ts h it) l = Some synced).
    { apply synced_heap_marks with (i := todo_id t); [exact Hdi | |].
      - rewrite <- (task_id_lookup _ _ _ Ht). now apply Htr.
      - now apply find_has_id_unique. }
    unfold status_at in Hs. rewrite Hlk in Hs. cbn in Hs. congruence. }
  exists j, itj. split; [lia |]. split; [exact Hqj |].
  rewrite (same_ids_data_id _ _ _ Hsame). now rewrite Hid.
Qed.

Lemma pending_from_none (n : nat) (h : list Todo) (ts : list loc) (q : list SyncItem) :
  pending_from n h ts q -> (length q <= n)%nat ->
  forall l t, l ∈ ts -> h !! l = Some t -> syncStatus t = synced.
Proof.
  intros Hp Hn l t Hl Ht. destruct (syncStatus t) eqn:E; [reflexivity |].
  destruct (Hp l t Hl Ht E) as (j & it & Hj & Hqj & _).
  apply lookup_lt_Some in Hqj. lia.
Qed.

(** *** Steps of an orderly run *)

Lemma one_drain_grows (n : nat) (it : SyncItem) (s s' : App) (st : SyncStatus) (d : Data) :
  drains s' = drains s -> detached s' = detached s ->
  queue_grows st d (pendingSync s) (pendingSync s') ->
  one_drain n it s -> one_drain n it s'.
Proof.
  intros Hd Hdet Hq [E Hn]. unfold one_drain. rewrite Hd, Hdet. split; [exact E |].
  now apply (queue_grows_lookup _ _ _ _ _ _ Hq).
Qed.

Lemma draining_same (s s' : App) :
  drains s' = drains s -> detached s' = detached s ->
  heap s' = heap s -> todos s' = todos s -> pendingSync s' = pendingSync s ->
  draining s -> draining s'.
Proof.
  intros Hd Hdet Hh Ht Hq (n & it & Ho & Hs & Hp).
  exists n, it. rewrite Hh, Ht, Hq. split; [| now split].
  now apply (one_drain_same n it s).
Qed.

Lemma start_draining (s : App) :
  quiescent s ->
  quiescent (syncData (set_isOnline true s)) \/ draining (syncData (set_isOnline true s)).
Proof.
  intros [[Hd Hg] Hon].
  destruct (syncData_cases (set_isOnline true s)) as [E | (_ & it & Hq & E)]; rewrite E.
  - left. unfold syncData in E. cbn [isOnline set_isOnline negb orb pendingSync] in E.
    destruct (pendingSync s) as [| x q] eqn:Eq.
    + split; [split; [exact Hd |] |]; cbn; now rewrite ?Eq.
    + exfalso. cbn [length Nat.eqb] in E. unfold iterate, array_at in E. cbn in E.
      rewrite Nat.eqb_refl, Eq in E. cbn in E.
      apply (f_equal (fun x => length (drains x))) in E. cbn in E.
      rewrite Hd in E. cbn in E. lia.
  - right. exists 0%nat, it. cbn. rewrite Hd. cbn.
    split; [now split |]. split; [now apply good_sound | now apply good_pending_from].
Qed.

Lemma quiescent_step (ev : Event) (s : App) :
  quiescent s -> orderly s ev ->
  quiescent (handle ev s) \/ draining (handle ev s).
Proof.
  intros Hq [_ Hev]. pose proof Hq as [[Hd Hg] Hon].
  destruct ev; cbn [handle].
  - left. now apply (quiescent_same s).
  - left. destruct (truthy_string (trim (todoInput s))) eqn:Ht;
      [| unfold addTodo; now rewrite Ht].
    destruct (addTodo_shape c s Ht) as (Hh & Hts & Hpq).
    destruct (addTodo_frame c s) as (_ & Hio & _ & _ & Hdr).
    destruct Hev as [Hnz Hfresh].
    split; [split |].
    + now rewrite Hdr.
    + rewrite Hh, Hts, Hpq.
      apply good_add with (q := pendingSync s); [exact Hg | exact Hnz | exact Hfresh |].
      now apply queue_after_follows.
    + rewrite Hio, Hpq. now apply queue_after_online.
  - left. destruct (find_todo i s) as [l |] eqn:Hf;
      [| unfold toggleTodo; now rewrite Hf].
    destruct (toggleTodo_shape i c s l Hf) as (Hh & Hts & Hpq).
    destruct (toggleTodo_frame i c s) as (_ & Hio & _ & _ & Hdr).
    apply find_has_id_Some in Hf as (Hl & _).
    split; [split |].
    + now rewrite Hdr.
    + rewrite Hh, Hts, Hpq.
      apply good_touch with (q := pendingSync s) (st := status_now s); try easy.
      now apply queue_after_follows.
    + rewrite Hio, Hpq. now apply queue_after_online.
  - left. destruct (find_todo i s) as [l |] eqn:Hf;
      [| unfold deleteTodo; now rewrite Hf].
    destruct (deleteTodo_shape i c s l Hf) as (Hh & Hts & Hpq).
    destruct (deleteTodo_frame i c s) as (_ & Hio & _ & _ & Hdr).
    split; [split |].
    + now rewrite Hdr.
    + rewrite Hh, Hts, Hpq.
      apply good_delete with (q := pendingSync s) (st := status_now s); [exact Hg |].
      now apply queue_after_follows.
    + rewrite Hio, Hpq. now apply queue_after_online.
  - left. now apply (quiescent_same s).
  - left. destruct (find_todo i s) as [l |] eqn:Hf;
      [| unfold saveEdit; now rewrite Hf].
    destruct (truthy_string (trim newText)) eqn:Ht;
      [| unfold saveEdit; now rewrite Hf, Ht].
    destruct (saveEdit_shape i newText c s l Hf Ht) as (Hh & Hts & Hpq).
    destruct (saveEdit_frame i newText c s) as (_ & Hio & _ & _ & Hdr).
    apply find_has_id_Some in Hf as (Hl & _).
    split; [split |].
    + now rewrite Hdr.
    + rewrite Hh, Hts, Hpq.
      apply good_touch with (q := pendingSync s) (st := status_now s); try easy.
      now apply queue_after_follows.
    + rewrite Hio, Hpq. now apply queue_after_online.
  - left. now apply (quiescent_same s).
  - left. destruct (isOnline s) eqn:E.
    + rewrite syncData_returns_early; [exact Hq | left; now apply Hon].
    + rewrite syncData_returns_early; [exact Hq | now right].
  - now apply start_draining.
  - left. split; [exact (conj Hd Hg) |]. discriminate.
  - destruct (ok && negb (isOnline s)); [now apply start_draining | now left].
  - left. destruct (isOnline s); [| exact Hq].
    split; [exact (conj Hd Hg) |]. discriminate.
  - left. unfold resume. rewrite Hd. now rewrite lookup_nil.
Qed.

Lemma mutation_keeps (n : nat) (ev : Event) (s : App) :
  is_mutation ev -> orderly s ev ->
  sound (heap s) (todos s) (pendingSync s) ->
  pending_from n (heap s) (todos s) (pendingSync s) ->
  (n <= length (pendingSync s))%nat ->
  sound (heap (handle ev s)) (todos (handle ev s)) (pendingSync (handle ev s)) /\
  pending_from n (heap (handle ev s)) (todos (handle ev s)) (pendingSync (handle ev s)) /\
  api_frame s (handle ev s) /\
  exists st d, queue_grows st d (pendingSync s) (pendingSync (handle ev s)).
Proof.
  intros Hm [_ Hev] Hs Hp Hlen.
  assert (Hnoop : handle ev s = s ->
            sound (heap (handle ev s)) (todos (handle ev s)) (pendingSync (handle ev s)) /\
            pending_from n (heap (handle ev s)) (todos (handle ev s))
                         (pendingSync (handle ev s)) /\
            api_frame s (handle ev s) /\
            exists st d, queue_grows st d (pendingSync s) (pendingSync (handle ev s))).
  { intros ->. split; [exact Hs |]. split; [exact Hp |]. split; [apply api_frame_refl |].
    exists synced, (IdOnly 0). now apply qg_online. }
  destruct ev; cbn in Hm; try contradiction; cbn [handle] in *.
  - destruct (truthy_string (trim (todoInput s))) eqn:Ht;
      [| apply Hnoop; unfold addTodo; now rewrite Ht].
    destruct (addTodo_shape c s Ht) as (Hh & Hts & Hpq).
    destruct Hev as [Hnz Hfresh].
    pose proof (queue_after_grows s create (TodoRef (length (heap s))) c) as Hg.
    rewrite Hh, Hts, Hpq. split; [| split; [| split]].
    + apply sound_add with (q := pendingSync s); [exact Hs | exact Hnz | exact Hfresh |].
      exact Hg.
    + apply pending_add with (q := pendingSync s); [exact Hs | exact Hp | exact Hlen |].
      exact Hg.
    + apply addTodo_frame.
    + eauto.
  - destruct (find_todo i s) as [l |] eqn:Hf;
      [| apply Hnoop; unfold toggleTodo; now rewrite Hf].
    destruct (toggleTodo_shape i c s l Hf) as (Hh & Hts & Hpq).
    apply find_has_id_Some in Hf as (Hl & _).
    pose proof (queue_after_grows s update (TodoRef l) c) as Hg.
    rewrite Hh, Hts, Hpq. split; [| split; [| split]].
    + now apply sound_touch with (q := pendingSync s) (st := status_now s).
    + now apply pending_touch with (q := pendingSync s) (st := status_now s).
    + apply toggleTodo_frame.
    + eauto.
  - destruct (find_todo i s) as [l |] eqn:Hf;
      [| apply Hnoop; unfold deleteTodo; now rewrite Hf].
    destruct (deleteTodo_shape i c s l Hf) as (Hh & Hts & Hpq).
    pose proof (queue_after_grows s delete (IdOnly i) c) as Hg.
    rewrite Hh, Hts, Hpq. split; [| split; [| split]].
    + now apply sound_delete with (q := pendingSync s) (st := status_now s).
    + now apply pending_delete with (q := pendingSync s) (st := status_now s).
    + apply deleteTodo_frame.
    + eauto.
  - destruct (find_todo i s) as [l |] eqn:Hf;
      [| apply Hnoop; unfold saveEdit; now rewrite Hf].
    destruct (truthy_string (trim newText)) eqn:Ht;
      [| apply Hnoop; unfold saveEdit; now rewrite Hf, Ht].
    destruct (saveEdit_shape i newText c s l Hf Ht) as (Hh & Hts & Hpq).
    apply find_has_id_Some in Hf as (Hl & _).
    pose proof (queue_after_grows s update (TodoRef l) c) as Hg.
    rewrite Hh, Hts, Hpq. split; [| split; [| split]].
    + now apply sound_touch with (q := pendingSync s) (st := status_now s).
    + now apply pending_touch with (q := pendingSync s) (st := status_now s).
    + apply saveEdit_frame.
    + eauto.
Qed.

Lemma pending_from_le (n m : nat) (h : list Todo) (ts : list loc) (q : list SyncItem) :
  (m <= n)%nat -> pending_from n h ts q -> pending_from m h ts q.
Proof.
  intros Hle Hp l t Hl Ht Hpend.
  destruct (Hp l t Hl Ht Hpend) as (j & it & Hj & Hqj & Hdi).
  exists j, it. split; [lia | now split].
Qed.

Lemma start_drain (s : App) :
  drains s = [] ->
  sound (heap s) (todos s) (pendingSync s) ->
  pending_from 0 (heap s) (todos s) (pendingSync s) ->
  syncData s = s \/ draining (syncData s).
Proof.
  intros Hd Hs Hp.
  destruct (syncData_cases s) as [E | (_ & it & Hq & E)]; [now left | right].
  rewrite E. exists 0%nat, it. cbn. rewrite Hd. cbn.
  split; [now split |]. split; [exact Hs | exact Hp].
Qed.

Lemma draining_step (ev : Event) (s : App) :
  draining s -> orderly s ev ->
  quiescent (handle ev s) \/ draining (handle ev s) \/ after_failure (handle ev s).
Proof.
  intros Hdr Hord. pose proof Hord as [Hno Hev].
  pose proof Hdr as (n & it & [Ed Hn] & Hs & Hp).
  assert (Hne : drains s <> []) by (rewrite Ed; discriminate).
  specialize (Hno Hne). unfold starts_drain in Hno.
  assert (Hlen : (n <= length (pendingSync s))%nat)
    by (apply lookup_lt_Some in Hn; lia).
  assert (Hsync : forall st, drains st = drains s -> detached st = detached s ->
            heap st = heap s -> todos st = todos s -> pendingSync st = pendingSync s ->
            ~ (length (drains s) < length (drains (syncData st)))%nat ->
            draining (syncData st)).
  { intros st H1 H2 H3 H4 H5 Hst.
    destruct (syncData_starts st) as [E | E]; [| rewrite H1 in E; contradiction].
    rewrite E. now apply (draining_same s). }
  assert (Hmut : is_mutation ev -> draining (handle ev s)).
  { intros Hm.
    destruct (mutation_keeps n ev s Hm Hord Hs Hp Hlen)
      as (Hs' & Hp' & (Hdet & _ & _ & _ & Hd) & st & d & Hg).
    exists n, it. split; [| now split].
    eapply one_drain_grows with (s := s); [exact Hd | exact Hdet | exact Hg | now split]. }
  destruct ev; try (right; left; now apply Hmut); cbn [handle] in *.
  - right; left. now apply (draining_same s).
  - right; left. now apply (draining_same s).
  - right; left. now apply (draining_same s).
  - right; left. now apply Hsync.
  - right; left. now apply (Hsync (set_isOnline true s)).
  - right; left. now apply (draining_same s).
  - right; left. destruct (ok && negb (isOnline s)); [| exact Hdr].
    now apply (Hsync (set_isOnline true s)).
  - right; left. destruct (isOnline s); [| exact Hdr]. now apply (draining_same s).
  - destruct (resume_settlement k o s)
      as [_ -> | d Ek -> -> | d b it' Ek -> Ea -> | d b Ek -> Ea ->].
    + right; now left.
    + right; right. rewrite Ed in Ek |- *.
      destruct k as [| k]; [| cbn in Ek; discriminate Ek].
      unfold after_failure, last_drain_failed. cbn.
      split; [reflexivity |]. split; [apply last_snoc |]. split; [exact Hs |].
      apply (pending_from_le n); [lia | exact Hp].
    + right; left. rewrite Ed in Ek. destruct k as [| k]; [| cbn in Ek; discriminate Ek].
      cbn in Ek. injection Ek as <-. cbn in Ea |- *.
      unfold array_at in Ea. rewrite Nat.eqb_refl in Ea.
      exists (S n), it'. rewrite Ed. cbn. split; [now split |]. split.
      * apply (sound_same_ids (heap s)); [apply synced_heap_same_ids | exact Hs].
      * now apply pending_marked.
    + left. rewrite Ed in Ek. destruct k as [| k]; [| cbn in Ek; discriminate Ek].
      cbn in Ek. injection Ek as <-. cbn in Ea.
      unfold array_at in Ea. rewrite Nat.eqb_refl in Ea.
      apply lookup_ge_None in Ea.
      match goal with |- quiescent (sync_completed ?st) =>
        destruct (sync_completed_frame st) as (Hd' & _ & Hts & Hh & Hpq & _) end.
      split; [split |]; [| | intros _; exact Hpq].
      { rewrite Hd'. cbn [drains set_heap set_drains]. now rewrite Ed. }
      rewrite Hh, Hts, Hpq. cbn [heap todos set_heap set_drains].
      pose proof (sound_same_ids _ _ _ _ (synced_heap_same_ids (todos s) (heap s) it) Hs)
        as [Hwf Hrefs Hnd Htr].
      pose proof (pending_marked _ _ _ _ _ Hs Hp Hn) as Hp'.
      constructor; try assumption.
      * intros x l Hx. now apply elem_of_nil in Hx.
      * intros l t Hl Ht.
        rewrite (pending_from_none _ _ _ _ Hp' Ea l t Hl Ht).
        split; [discriminate |]. intros (x & Hx & _). now apply elem_of_nil in Hx.
Qed.

Lemma after_failure_same (s s' : App) :
  drains s' = drains s -> notifications s' = notifications s ->
  heap s' = heap s -> todos s' = todos s -> pendingSync s' = pendingSync s ->
  after_failure s -> after_failure s'.
Proof.
  intros Hd Hnt Hh Ht Hq (Hdr & Hl & Hs & Hp).
  unfold after_failure, last_drain_failed. now rewrite Hd, Hnt, Hh, Ht, Hq.
Qed.

Lemma after_failure_step (ev : Event) (s : App) :
  after_failure s -> orderly s ev ->
  draining (handle ev s) \/ after_failure (handle ev s).
Proof.
  intros Haf Hord. pose proof Haf as (Hd & Hl & Hs & Hp).
  assert (Hsync : forall st, drains st = drains s -> notifications st = notifications s ->
            heap st = heap s -> todos st = todos s -> pendingSync st = pendingSync s ->
            draining (syncData st) \/ after_failure (syncData st)).
  { intros st H1 H2 H3 H4 H5.
    destruct (start_drain st) as [E | E].
    - now rewrite H1.
    - now rewrite H3, H4, H5.
    - now rewrite H3, H4, H5.
    - right. rewrite E. now apply (after_failure_same s).
    - now left. }
  assert (Hmut : is_mutation ev -> after_failure (handle ev s)).
  { intros Hm.
    destruct (mutation_keeps 0 ev s Hm Hord Hs Hp)
      as (Hs' & Hp' & (_ & _ & _ & Hnt & Hd') & _); [lia |].
    unfold after_failure, last_drain_failed. now rewrite Hd', Hnt. }
  destruct ev; try (right; now apply Hmut); cbn [handle].
  - right. now apply (after_failure_same s).
  - right. now apply (after_failure_same s).
  - right. now apply (after_failure_same s).
  - now apply Hsync.
  - now apply (Hsync (set_isOnline true s)).
  - right. now apply (after_failure_same s).
  - destruct (ok && negb (isOnline s)); [| now right].
    now apply (Hsync (set_isOnline true s)).
  - right. destruct (isOnline s); [| exact Haf]. now apply (after_failure_same s).
  - right. unfold resume. rewrite Hd. now rewrite lookup_nil.
Qed.

Lemma draining_pending_is_queued (n : nat) (s : App) :
  pending_from n (heap s) (todos s) (pendingSync s) -> pending_is_queued s.
Proof.
  intros Hp l t Hl Ht Hpend.
  destruct (Hp l t Hl Ht Hpend) as (j & x & _ & Hj & Hdi).
  exists x. split; [| exact Hdi]. now apply list_elem_of_lookup_2 with (i := j).
Qed.

(** *** Where status and queue disagree *)

(** Two tasks are created offline and the browser goes online.  When the
    first call has resolved, the first task is [synced] while its
    [create] entry is still in the queue: the queue is cleared only when
    the whole drain is over. *)
Lemma synced_while_still_queued :
  status_at (heap (run two_offline_then_online (fresh_install true))) 0%nat = Some synced /\
  (exists it,
      it ∈ pendingSync (run two_offline_then_online (fresh_install true)) /\
      data_id (heap (run two_offline_then_online (fresh_install true))) (data it)
        = Some 5) /\
  ~ always_consistent.
Proof.
  assert (Hq : exists it,
             it ∈ pendingSync (run two_offline_then_online (fresh_install true)) /\
             data_id (heap (run two_offline_then_online (fresh_install true))) (data it)
               = Some 5).
  { exists (queued create (TodoRef 0%nat) (at_ms 5)). split; [| reflexivity].
    vm_compute. left. }
  split; [reflexivity |]. split; [exact Hq |].
  intros H. specialize (H two_offline_then_online true 0%nat).
  specialize (H {| todo_id := 5; text := "a"; completed := false;
                   createdAt := "2024-01-01T00:00:00.000Z";
                   lastModified := "2024-01-01T00:00:00.000Z";
                   syncStatus := synced |}).
  assert (Hin : 0%nat ∈ todos (run two_offline_then_online (fresh_install true))).
  { vm_compute. right. left. }
  specialize (H Hin eq_refl). cbn [syncStatus todo_id] in H.
  apply H in Hq. discriminate Hq.
Qed.

(** Why the amended statement asks that no drain be started while
    another is suspended.  Two drains run over the same array; the first to
    finish puts a new array in [this.pendingSync]; a task is toggled
    offline and its [update] entry goes into that new array; the second
    drain finishes and replaces the array again.  No drain is suspended
    any more, the task is [pending], the queue is empty, and the update
    was never sent. *)
Lemma interleaved_drains_lose_update :
  drains (run two_drains_interleaved (fresh_install true)) = [] /\
  status_at (heap (run two_drains_interleaved (fresh_install true))) 0%nat = Some pending /\
  pendingSync (run two_drains_interleaved (fresh_install true)) = [] /\
  remoteCalls (run two_drains_interleaved (fresh_install true))
    = [(create, TodoRef 0%nat); (create, TodoRef 0%nat);
       (create, TodoRef 1%nat); (create, TodoRef 1%nat)].
Proof. repeat split. Qed.

(** Why the amended statement asks for fresh, non-zero ids.  Of two
    tasks created offline at the same clock reading, [find] only ever
    returns the one nearer the front, so the other stays [pending] after
    the drain has emptied the queue; and an id of 0 is falsy, so its task
    is never marked. *)
Lemma stale_clock_leaves_pending :
  drains (run same_reading_drained (fresh_install false)) = [] /\
  pendingSync (run same_reading_drained (fresh_install false)) = [] /\
  status_at (heap (run same_reading_drained (fresh_install false))) 0%nat = Some pending /\
  drains (run zero_reading_drained (fresh_install false)) = [] /\
  pendingSync (run zero_reading_drained (fresh_install false)) = [] /\
  status_at (heap (run zero_reading_drained (fresh_install false))) 0%nat = Some pending.
Proof. repeat split. Qed.

(** Why the amended statement leaves out the states after a drain that
    a rejected call has ended.  The first of two calls resolves and its
    task is marked; the second rejects: no drain is suspended, the queue
    is whole, and the first task is [synced] with its entry queued. *)
Lemma failed_drain_leaves_synced_queued :
  drains (run second_call_rejected (fresh_install false)) = [] /\
  last_drain_failed (run second_call_rejected (fresh_install false)) /\
  status_at (heap (run second_call_rejected (fresh_install false))) 0%nat = Some synced /\
  (exists it,
      it ∈ pendingSync (run second_call_rejected (fresh_install false)) /\
      data_id (heap (run second_call_rejected (fresh_install false))) (data it) = Some 5) /\
  ~ status_consistent (run second_call_rejected (fresh_install false)).
Proof.
  assert (Hq : exists it,
             it ∈ pendingSync (run second_call_rejected (fresh_install false)) /\
             data_id (heap (run second_call_rejected (fresh_install false))) (data it)
               = Some 5).
  { exists (queued create (TodoRef 0%nat) (at_ms 5)). split; [| reflexivity].
    vm_compute. left. }
  split; [reflexivity |]. split; [reflexivity |]. split; [reflexivity |].
  split; [exact Hq |].
  intros H. specialize (H 0%nat).
  specialize (H {| todo_id := 5; text := "a"; completed := false;
                   createdAt := "2024-01-01T00:00:00.000Z";
                   lastModified := "2024-01-01T00:00:00.000Z";
                   syncStatus := synced |}).
  assert (Hin : 0%nat ∈ todos (run second_call_rejected (fresh_install false))).
  { vm_compute. right. left. }
  specialize (H Hin eq_refl). cbn [syncStatus todo_id] in H.
  apply H in Hq. discriminate Hq.
Qed.

(** Why the amended statement asks that the queue be empty if the run
    starts with the online flag set.  A page loaded online with a stored
    entry starts no drain; a toggle then calls the remote directly and
    leaves the task [synced] with its stored entry still queued. *)
Lemma reloaded_online_is_not_quiescent :
  exists s,
    reloaded_online = Some s /\
    drains s = [] /\ isOnline s = true /\ length (pendingSync s) = 1%nat /\
    status_at (heap s) 0%nat = Some pending /\
    status_at (heap (handle (Toggle 5 (at_ms 6)) s)) 0%nat = Some synced /\
    exists it,
      it ∈ pendingSync (handle (Toggle 5 (at_ms 6)) s) /\
      data_id (heap (handle (Toggle 5 (at_ms 6)) s)) (data it) = Some 5.
Proof.
  eexists. split; [vm_compute; reflexivity |].
  split; [reflexivity |]. split; [reflexivity |]. split; [reflexivity |].
  split; [reflexivity |]. split; [reflexivity |].
  eexists. split; [vm_compute; left | reflexivity].
Qed.

(** C2, amended: from a state where no drain is suspended, heap,
    collection and queue fit together and the queue is empty if the
    online flag is set (a fresh install is one), through runs of any
    events in any order (inputs, mutations online and offline,
    connectivity events, probes, calls that resolve and calls that
    reject, also while a drain is suspended) in which no drain is started
    while another is suspended and every task is created at a non-zero
    clock reading that is the id of no task in the collection: in every
    state reached in which no drain is suspended and the last drain to
    end was not ended by a rejected call, a task of the collection is
    [pending] if and only if some queue entry carries its id; and in
    every state reached, a drain suspended or not, a [pending] task has
    a queue entry that carries its id. *)
Theorem status_consistent_between_drains (s0 s : App) :
  quiescent s0 -> reach orderly s0 s ->
  (drains s = [] -> ~ last_drain_failed s -> status_consistent s) /\
  pending_is_queued s.
Proof.
  intros H0 Hr.
  assert (Hinv : quiescent s \/ draining s \/ after_failure s).
  { induction Hr as [| s ev Hr IH Hseq]; [now left |].
    destruct IH as [Hq | [Hf | Ha]].
    - destruct (quiescent_step ev s Hq Hseq) as [H | H]; [now left | right; now left].
    - now apply draining_step.
    - right. now apply after_failure_step. }
  destruct Hinv as [[[_ Hg] _] | [Hdr | Haf]].
  - split; [intros _ _; exact (good_status _ _ _ Hg) |].
    intros l t Hl Ht Hp.
    exact (proj1 (good_status _ _ _ Hg l t Hl Ht) Hp).
  - destruct Hdr as (n & it & [E _] & _ & Hp).
    split; [| now apply (draining_pending_is_queued n)].
    intros Hd. rewrite Hd in E. discriminate E.
  - destruct Haf as (_ & Hl & _ & Hp).
    split; [| now apply (draining_pending_is_queued 0)].
    intros _ Hn. contradiction.
Qed.

Lemma fresh_install_quiescent (onLine : bool) : quiescent (fresh_install onLine).
Proof.
  split; [split; [reflexivity |] | reflexivity].
  constructor; cbn.
  - intros l Hl. now apply elem_of_nil in Hl.
  - intros it l Hit. now apply elem_of_nil in Hit.
  - constructor.
  - intros l Hl. now apply elem_of_nil in Hl.
  - intros l t Hl. now apply elem_of_nil in Hl.
Qed.

Ltac orderly_now :=
  split;
  [ first [ intros Hne; exfalso; apply Hne; reflexivity
          | intros _ H; unfold starts_drain in H; vm_compute in H; lia ]
  | first [ exact I
          | split; [discriminate |];
            match goal with
            | |- _ ∉ ?l => let l' := eval vm_compute in l in change l with l'
            end;
            repeat (apply not_elem_of_cons; split; [discriminate |]);
            apply not_elem_of_nil ] ].

Lemma status_consistent_between_drains_witness :
  pendingSync (run rejected_then_retried (fresh_install false)) = [] /\
  status_at (heap (run rejected_then_retried (fresh_install false))) 0%nat = Some synced /\
  status_consistent (run rejected_then_retried (fresh_install false)).
Proof.
  split; [reflexivity |]. split; [reflexivity |].
  assert (Hr : reach orderly (fresh_install false)
                 (run rejected_then_retried (fresh_install false))).
  { apply reach_run; [apply reach_init |].
    intros n ev Hn.
    do 14 (destruct n as [| n]; [cbn in Hn; injection Hn as <-; orderly_now |]).
    cbn in Hn. discriminate Hn. }
  destruct (status_consistent_between_drains (fresh_install false) _
              (fresh_install_quiescent false) Hr) as [H _].
  apply H; [reflexivity |]. unfold last_drain_failed. vm_compute. discriminate.
Defined.

(** * Further properties of the class *)

(** ** Mutations on an id *)

Lemma find_all_false {A : Type} (p : A -> bool) (l : list A) :
  (forall x, x ∈ l -> p x = false) -> find p l = None.
Proof.
  induction l as [| x l IH]; intros H; [reflexivity |]. cbn.
  rewrite (H x) by (apply elem_of_cons; now left).
  apply IH. intros y Hy. apply H. apply elem_of_cons. now right.
Qed.

Lemma has_id_false (h : list Todo) (i : Z) (l : loc) :
  (forall t, h !! l = Some t -> todo_id t <> i) -> has_id h i l = false.
Proof.
  intros H. unfold has_id. destruct (h !! l) as [t |]; [| reflexivity].
  apply Z.eqb_neq. now apply H.
Qed.

(** X1: toggle, delete and edit look the task up by id; when no task of the
    collection has the id, each returns the state it was given. *)
Theorem unknown_id_is_noop (i : Z) (txt : string) (c : Clock) (s : App) :
  (forall l t, l ∈ todos s -> heap s !! l = Some t -> todo_id t <> i) ->
  toggleTodo i c s = s /\ deleteTodo i c s = s /\ saveEdit i txt c s = s.
Proof.
  intros H.
  assert (Hf : find_todo i s = None).
  { apply find_all_false. intros l Hl. apply has_id_false. intros t. now apply H. }
  unfold toggleTodo, deleteTodo, saveEdit. now rewrite Hf.
Qed.

Lemma unknown_id_is_noop_witness :
  toggleTodo 8 (at_ms 9) three_queued = three_queued /\
  deleteTodo 8 (at_ms 9) three_queued = three_queued /\
  saveEdit 8 "x" (at_ms 9) three_queued = three_queued.
Proof.
  apply (unknown_id_is_noop 8 "x" (at_ms 9) three_queued).
  intros l t Hl Ht.
  destruct l as [| [| [| l]]]; vm_compute in Ht; try discriminate;
    injection Ht as <-; cbn; lia.
Defined.

(** X2: deleting an id takes every task with that id out of the collection
    and leaves the others in their order; the objects are not touched;
    offline one [delete] entry whose data is just the id is queued,
    online the queue is left alone. *)
Theorem deleteTodo_removes_id (i : Z) (c : Clock) (s : App) :
  is_Some (find_todo i s) ->
  find_todo i (deleteTodo i c s) = None /\
  sublist (todos (deleteTodo i c s)) (todos s) /\
  (forall l, l ∈ todos (deleteTodo i c s) <->
             l ∈ todos s /\ has_id (heap s) i l = false) /\
  heap (deleteTodo i c s) = heap s /\
  (if isOnline s then pendingSync (deleteTodo i c s) = pendingSync s
   else exists it,
          pendingSync (deleteTodo i c s) = pendingSync s ++ [it] /\
          action it = delete /\ data it = IdOnly i).
Proof.
  intros [l Hf].
  destruct (deleteTodo_shape i c s l Hf) as (Hh & Hts & Hq).
  split; [| split; [| split; [| split]]].
  - unfold find_todo. rewrite Hh, Hts. apply find_all_false.
    intros x Hx. now apply list_elem_of_filter in Hx as [Hx _].
  - rewrite Hts. apply sublist_filter.
  - intros x. rewrite Hts, list_elem_of_filter. tauto.
  - exact Hh.
  - rewrite Hq. unfold queue_after. destruct (isOnline s); [reflexivity |].
    exists (queued delete (IdOnly i) c). now repeat split.
Qed.

Lemma deleteTodo_removes_id_witness :
  todos (deleteTodo 6 (at_ms 9) three_queued) = [2%nat; 0%nat] /\
  find_todo 6 (deleteTodo 6 (at_ms 9) three_queued) = None.
Proof.
  split; [reflexivity |].
  apply (deleteTodo_removes_id 6 (at_ms 9) three_queued).
  exists 1%nat. reflexivity.
Defined.

Lemma toggled_twice (c1 c2 : Clock) (st : SyncStatus) (t : Todo) :
  toggled c2 st (toggled c1 st t)
    = {| todo_id := todo_id t; text := text t; completed := completed t;
         createdAt := createdAt t; lastModified := Date_iso c2; syncStatus := st |}.
Proof. unfold toggled. cbn. now rewrite negb_involutive. Qed.

Lemma toggleTodo_keeps_find (i j : Z) (c : Clock) (s : App) :
  find_todo j (toggleTodo i c s) = find_todo j s.
Proof.
  destruct (find_todo i s) as [l |] eqn:Hf.
  - destruct (toggleTodo_shape i c s l Hf) as (Hh & Hts & _).
    unfold find_todo. rewrite Hh, Hts. apply same_ids_find. now apply same_ids_alter.
  - unfold toggleTodo. now rewrite Hf.
Qed.

(** X3: toggling the same task twice gives it back its [completed] value and
    leaves every other field but [lastModified] and [syncStatus] as it
    was; offline, the two toggles leave two [update] entries in the
    queue, both for that task. *)
Theorem toggleTodo_twice (i : Z) (c1 c2 : Clock) (s : App) (l : loc) (t : Todo) :
  find_todo i s = Some l -> heap s !! l = Some t ->
  let s' := toggleTodo i c2 (toggleTodo i c1 s) in
  heap s' !! l
    = Some {| todo_id := todo_id t; text := text t; completed := completed t;
              createdAt := createdAt t; lastModified := Date_iso c2;
              syncStatus := status_now s |} /\
  (forall l', l' <> l -> heap s' !! l' = heap s !! l') /\
  todos s' = todos s /\
  (if isOnline s then pendingSync s' = pendingSync s
   else exists it1 it2,
          pendingSync s' = pendingSync s ++ [it1; it2] /\
          action it1 = update /\ data it1 = TodoRef l /\
          action it2 = update /\ data it2 = TodoRef l).
Proof.
  intros Hf Ht s'. subst s'.
  destruct (toggleTodo_shape i c1 s l Hf) as (Hh1 & Hts1 & Hq1).
  destruct (toggleTodo_frame i c1 s) as (_ & Hon1 & _).
  assert (Hf2 : find_todo i (toggleTodo i c1 s) = Some l)
    by now rewrite toggleTodo_keeps_find.
  destruct (toggleTodo_shape i c2 _ l Hf2) as (Hh2 & Hts2 & Hq2).
  assert (Hst : status_now (toggleTodo i c1 s) = status_now s)
    by (unfold status_now; now rewrite Hon1).
  rewrite Hh2, Hts2, Hq2, Hh1, Hts1, Hst. split; [| split; [| split]].
  - rewrite !list_lookup_alter_eq, Ht. cbn. now rewrite toggled_twice.
  - intros l' Hne. now rewrite !list_lookup_alter_ne by congruence.
  - reflexivity.
  - unfold queue_after. rewrite Hon1, Hq1. unfold queue_after.
    destruct (isOnline s); [reflexivity |].
    exists (queued update (TodoRef l) c1), (queued update (TodoRef l) c2).
    rewrite <- app_assoc. now repeat split.
Qed.

Lemma toggleTodo_twice_witness :
  completed_at (heap (toggleTodo 6 (at_ms 9) (toggleTodo 6 (at_ms 8) three_queued))) 1%nat
    = false /\
  todos (toggleTodo 6 (at_ms 9) (toggleTodo 6 (at_ms 8) three_queued)) = [2%nat; 1%nat; 0%nat].
Proof.
  destruct (toggleTodo_twice 6 (at_ms 8) (at_ms 9) three_queued 1%nat
              {| todo_id := 6; text := "b"; completed := false;
                 createdAt := "2024-01-01T00:00:00.000Z";
                 lastModified := "2024-01-01T00:00:00.000Z";
                 syncStatus := pending |} eq_refl eq_refl) as (Hl & _ & Hts & _).
  split.
  - unfold completed_at. now rewrite Hl.
  - rewrite Hts. reflexivity.
Defined.

(** X4: an edit that takes effect: the first task with the id gets the
    trimmed text and a new modification date, keeps its id, completion
    and creation date, and editing ends; no other object and no position
    of the collection changes; offline one [update] entry for that task
    is queued. *)
Theorem saveEdit_edits (i : Z) (txt : string) (c : Clock) (s : App) (l : loc) (t : Todo) :
  find_todo i s = Some l -> heap s !! l = Some t -> trim txt <> "" ->
  let s' := saveEdit i txt c s in
  heap s' !! l
    = Some {| todo_id := todo_id t; text := trim txt; completed := completed t;
              createdAt := createdAt t; lastModified := Date_iso c;
              syncStatus := status_now s |} /\
  (forall l', l' <> l -> heap s' !! l' = heap s !! l') /\
  todos s' = todos s /\
  editingId s' = None /\
  (if isOnline s then pendingSync s' = pendingSync s
   else exists it,
          pendingSync s' = pendingSync s ++ [it] /\
          action it = update /\ data it = TodoRef l).
Proof.
  intros Hf Ht Hne s'. subst s'. apply truthy_string_nonempty in Hne.
  destruct (saveEdit_shape i txt c s l Hf Hne) as (Hh & Hts & Hq).
  rewrite Hh, Hts, Hq. split; [| split; [| split; [| split]]].
  - rewrite list_lookup_alter_eq, Ht. reflexivity.
  - intros l' Hl. now rewrite list_lookup_alter_ne by congruence.
  - reflexivity.
  - unfold saveEdit. rewrite Hf, Hne. api_simpl s; reflexivity.
  - unfold queue_after. destruct (isOnline s); [reflexivity |].
    exists (queued update (TodoRef l) c). now repeat split.
Qed.

Lemma saveEdit_edits_witness :
  text <$> heap (saveEdit 6 "  bake bread " (at_ms 9) (startEdit 6 three_queued))
    = ["a"; "bake bread"; "c"] /\
  editingId (saveEdit 6 "  bake bread " (at_ms 9) (startEdit 6 three_queued)) = None.
Proof.
  assert (Hne : trim "  bake bread " <> "") by (vm_compute; discriminate).
  destruct (saveEdit_edits 6 "  bake bread " (at_ms 9) (startEdit 6 three_queued) 1%nat
              {| todo_id := 6; text := "b"; completed := false;
                 createdAt := "2024-01-01T00:00:00.000Z";
                 lastModified := "2024-01-01T00:00:00.000Z";
                 syncStatus := pending |} eq_refl eq_refl Hne) as (_ & _ & _ & He & _).
  split; [reflexivity | exact He].
Defined.

(** ** Mutations, the queue, the remote and the store *)

Lemma todos_saved_writable (s : App) :
  writable (localStorage s) ->
  todos_saved s
    = {| ls_todos := Some (stringify_todos s);
         ls_pendingSync := ls_pendingSync (localStorage s);
         ls_denied := false; ls_full := false |}.
Proof.
  intros [Hd Hf]. unfold todos_saved, setItem. now rewrite Hd, Hf.
Qed.

Lemma pendingSync_saved_writable (s : App) :
  writable (localStorage s) ->
  pendingSync_saved s
    = {| ls_todos := ls_todos (localStorage s);
         ls_pendingSync := Some (stringify_pendingSync s);
         ls_denied := false; ls_full := false |}.
Proof.
  intros [Hd Hf]. unfold pendingSync_saved, setItem. now rewrite Hd, Hf.
Qed.

Lemma saved_unwritable (s : App) :
  ls_denied (localStorage s) = true \/ ls_full (localStorage s) = true ->
  todos_saved s = localStorage s /\ pendingSync_saved s = localStorage s.
Proof.
  intros H. unfold todos_saved, pendingSync_saved, setItem.
  destruct H as [-> | ->]; cbn; [now split |].
  rewrite orb_true_r. now split.
Qed.

Lemma commit_not_same (a : Action) (d : Data) (c : Clock) (s1 s : App) :
  isOnline s1 = isOnline s -> pendingSync s1 = pendingSync s ->
  remoteCalls s1 = remoteCalls s -> commit a d c s1 <> s.
Proof.
  intros Hon Hq Hrc E. destruct (isOnline s1) eqn:Ho.
  - rewrite (commit_online _ _ _ _ Ho) in E.
    apply (f_equal (fun x => length (remoteCalls x))) in E. cbn in E.
    rewrite length_app, Hrc in E. cbn in E. lia.
  - rewrite (commit_offline _ _ _ _ Ho) in E.
    rewrite saveTodos_eq, savePendingSync_eq in E.
    apply (f_equal (fun x => length (pendingSync x))) in E. cbn in E.
    rewrite length_app, Hq in E. cbn in E. lia.
Qed.

(** X5: a mutation that takes effect is in the store when its handler
    returns, if the store can be written: the stored collection is the
    collection in memory, and offline the stored queue is the queue in
    memory. *)
Theorem mutation_is_persisted (ev : Event) (s : App) :
  is_mutation ev -> writable (localStorage s) -> handle ev s <> s ->
  todos_persisted (handle ev s) /\
  (isOnline s = false -> queue_persisted (handle ev s)).
Proof.
  intros Hm Hw Hne.
  destruct (mutation_takes_effect ev s Hm)
    as [E | a d c s1 E Hon Hq Hrc Hls _ _ _ _]; [contradiction |].
  rewrite E. rewrite <- Hls in Hw. rewrite <- Hon.
  unfold todos_persisted, queue_persisted.
  destruct (isOnline s1) eqn:Ho.
  - rewrite (commit_online _ _ _ _ Ho). cbn.
    rewrite (todos_saved_writable _ Hw). split; [reflexivity | discriminate].
  - rewrite (commit_offline _ _ _ _ Ho), saveTodos_eq, savePendingSync_eq. cbn.
    rewrite todos_saved_writable, pendingSync_saved_writable; cbn; try exact Hw.
    + now split.
    + rewrite pendingSync_saved_writable by exact Hw. now split.
Qed.

Lemma mutation_is_persisted_witness :
  todos_persisted (handle (Toggle 6 (at_ms 9)) (set_isOnline false three_queued)) /\
  queue_persisted (handle (Toggle 6 (at_ms 9)) (set_isOnline false three_queued)).
Proof.
  assert (Hne : handle (Toggle 6 (at_ms 9)) (set_isOnline false three_queued)
                <> set_isOnline false three_queued).
  { intros E. apply (f_equal (fun x => length (pendingSync x))) in E.
    vm_compute in E. discriminate E. }
  destruct (mutation_is_persisted (Toggle 6 (at_ms 9)) (set_isOnline false three_queued)
              I (conj eq_refl eq_refl) Hne) as [Ht Hq].
  split; [exact Ht | exact (Hq eq_refl)].
Defined.

(** X6: a mutation that takes effect offline queues one entry and calls
    nothing; online it issues one call and queues nothing, neither in
    memory nor in the store. *)
Theorem mutation_queues_or_calls (ev : Event) (s : App) :
  is_mutation ev -> handle ev s <> s ->
  if isOnline s then
    pendingSync (handle ev s) = pendingSync s /\
    ls_pendingSync (localStorage (handle ev s)) = ls_pendingSync (localStorage s) /\
    exists a d, remoteCalls (handle ev s) = remoteCalls s ++ [(a, d)]
  else
    remoteCalls (handle ev s) = remoteCalls s /\
    exists it, pendingSync (handle ev s) = pendingSync s ++ [it].
Proof.
  intros Hm Hne.
  destruct (mutation_takes_effect ev s Hm)
    as [E | a d c s1 E Hon Hq Hrc Hls _ _ _ _]; [contradiction |].
  rewrite E, <- Hon, <- Hq, <- Hrc, <- Hls.
  destruct (isOnline s1) eqn:Ho.
  - rewrite (commit_online _ _ _ _ Ho). cbn. split; [reflexivity |]. split.
    + unfold todos_saved, setItem.
      destruct (ls_denied (localStorage s1) || ls_full (localStorage s1)); reflexivity.
    + now exists a, d.
  - rewrite (commit_offline _ _ _ _ Ho), saveTodos_eq, savePendingSync_eq. cbn.
    split; [reflexivity |]. now exists (queued a d c).
Qed.

Lemma mutation_queues_or_calls_witness :
  remoteCalls (handle (Delete 6 (at_ms 9)) three_queued)
    = remoteCalls three_queued ++ [(delete, IdOnly 6)] /\
  pendingSync (handle (Delete 6 (at_ms 9)) three_queued) = pendingSync three_queued.
Proof.
  assert (Hne : handle (Delete 6 (at_ms 9)) three_queued <> three_queued).
  { intros E. apply (f_equal (fun x => length (todos x))) in E.
    vm_compute in E. discriminate E. }
  pose proof (mutation_queues_or_calls (Delete 6 (at_ms 9)) three_queued I Hne) as H.
  change (isOnline three_queued) with true in H. cbv iota in H.
  destruct H as (Hq & _ & _). split; [reflexivity | exact Hq].
Defined.

(** ** The store never steers the handlers *)

Lemma commit_forget (a : Action) (d : Data) (c : Clock) (ls : Storage) (s1 : App) :
  forget_store (commit a d c (set_localStorage ls s1)) = forget_store (commit a d c s1).
Proof.
  destruct (isOnline s1) eqn:Ho.
  - rewrite !commit_online by exact Ho. reflexivity.
  - rewrite !commit_offline by exact Ho.
    rewrite !saveTodos_eq, !savePendingSync_eq. reflexivity.
Qed.

Lemma sync_completed_forget (ls : Storage) (s : App) :
  forget_store (sync_completed (set_localStorage ls s)) = forget_store (sync_completed s).
Proof.
  unfold sync_completed. rewrite !saveTodos_eq, !savePendingSync_eq. reflexivity.
Qed.

Lemma iterate_forget (a n : nat) (ls : Storage) (s : App) :
  forget_store (iterate a n (set_localStorage ls s)) = forget_store (iterate a n s).
Proof.
  unfold iterate.
  change (array_at (set_localStorage ls s) a) with (array_at s a).
  destruct (array_at s a !! n); [reflexivity | apply sync_completed_forget].
Qed.

Lemma syncData_forget (ls : Storage) (s : App) :
  forget_store (syncData (set_localStorage ls s)) = forget_store (syncData s).
Proof.
  unfold syncData. cbn [isOnline pendingSync set_localStorage].
  destruct (negb (isOnline s) || (length (pendingSync s) =? 0)%nat); [reflexivity |].
  apply (iterate_forget _ _ ls (showSyncIndicator true s)).
Qed.

Lemma resume_forget (k : nat) (o : ApiOutcome) (ls : Storage) (s : App) :
  forget_store (resume k o (set_localStorage ls s)) = forget_store (resume k o s).
Proof.
  unfold resume. cbn [drains set_localStorage].
  destruct (drains s !! k) as [d |]; [| reflexivity].
  destruct o as [b |]; [| reflexivity].
  rewrite !mark_synced_eq.
  apply (iterate_forget _ _ ls
           (set_heap (synced_heap (todos s) (heap s) (d_item d))
                     (set_drains (base.delete k (drains s)) s))).
Qed.

Lemma unwritable_commit (a : Action) (d : Data) (c : Clock) (s1 : App) :
  ls_denied (localStorage s1) = true \/ ls_full (localStorage s1) = true ->
  localStorage (commit a d c s1) = localStorage s1.
Proof.
  intros H. destruct (isOnline s1) eqn:Ho.
  - rewrite (commit_online _ _ _ _ Ho). cbn. now apply saved_unwritable.
  - rewrite (commit_offline _ _ _ _ Ho), saveTodos_eq, savePendingSync_eq. cbn.
    destruct (saved_unwritable
                (set_pendingSync (pendingSync s1 ++ [queued a d c]) s1) H) as [_ E].
    cbn in E. rewrite E.
    destruct (saved_unwritable
                (set_localStorage (localStorage s1)
                   (set_pendingSync (pendingSync s1 ++ [queued a d c]) s1)) H) as [E' _].
    exact E'.
Qed.

Lemma unwritable_sync_completed (s : App) :
  ls_denied (localStorage s) = true \/ ls_full (localStorage s) = true ->
  localStorage (sync_completed s) = localStorage s.
Proof.
  intros H. unfold sync_completed. rewrite saveTodos_eq, savePendingSync_eq. cbn.
  destruct (saved_unwritable
              (set_pendingSync [] (set_detached (detached s ++ [pendingSync s]) s)) H)
    as [_ E].
  cbn in E. rewrite E.
  destruct (saved_unwritable
              (set_localStorage (localStorage s)
                 (set_pendingSync [] (set_detached (detached s ++ [pendingSync s]) s))) H)
    as [E' _].
  exact E'.
Qed.

Lemma iterate_store (a n : nat) (s : App) :
  localStorage (iterate a n s) = localStorage s \/
  iterate a n s = sync_completed s.
Proof.
  unfold iterate. destruct (array_at s a !! n); [now left | now right].
Qed.

(** X7: what is in the store, and whether the store works at all, has no
    influence on what a handler does to the state in memory; and when
    the store cannot be written, every handler leaves it as it is and
    goes on. *)
Theorem store_never_steers (ev : Event) (ls : Storage) (s : App) :
  forget_store (handle ev (set_localStorage ls s)) = forget_store (handle ev s) /\
  (ls_denied (localStorage s) = true \/ ls_full (localStorage s) = true ->
   localStorage (handle ev s) = localStorage s).
Proof.
  split.
  - destruct ev; cbn [handle]; try reflexivity.
    + unfold addTodo. cbn [todoInput set_localStorage]. cbv zeta.
      destruct (truthy_string (trim (todoInput s))); [| reflexivity].
      apply (commit_forget create _ c ls
               (set_todoInput ""
                  (set_todos (length (heap s) :: todos s)
                     (set_heap (heap s ++ [_]) s)))).
    + unfold toggleTodo, find_todo. cbn [heap todos set_localStorage].
      destruct (find _ _) as [l |]; [| reflexivity].
      apply (commit_forget update _ c ls (set_heap _ s)).
    + unfold deleteTodo, find_todo. cbn [heap todos set_localStorage].
      destruct (find _ _) as [l |]; [| reflexivity].
      apply (commit_forget delete _ c ls (set_todos _ s)).
    + unfold saveEdit, find_todo. cbn [heap todos set_localStorage].
      destruct (find _ _) as [l |]; [| reflexivity].
      destruct (truthy_string (trim newText)); [| reflexivity].
      apply (commit_forget update _ c ls (set_editingId None (set_heap _ s))).
    + apply syncData_forget.
    + apply (syncData_forget ls (set_isOnline true s)).
    + cbn [isOnline set_localStorage].
      destruct (ok && negb (isOnline s)); [| reflexivity].
      apply (syncData_forget ls (set_isOnline true s)).
    + cbn [isOnline set_localStorage]. now destruct (isOnline s).
    + apply resume_forget.
  - intros H.
    assert (Hsync : forall st, localStorage st = localStorage s ->
                               localStorage (syncData st) = localStorage s).
    { intros st Hst. unfold syncData.
      destruct (negb (isOnline st) || (length (pendingSync st) =? 0)%nat); [exact Hst |].
      destruct (iterate_store (length (detached st)) 0 (showSyncIndicator true st))
        as [E | E]; rewrite E; [exact Hst |].
      rewrite unwritable_sync_completed; [exact Hst |]. cbn. now rewrite Hst. }
    destruct ev; cbn [handle]; try reflexivity.
    + destruct (mutation_takes_effect (Add c) s I)
        as [E | a d c' s1 E _ _ _ Hls _ _ _ _]; cbn [handle] in E; rewrite E;
        [reflexivity |].
      rewrite unwritable_commit; [exact Hls | now rewrite Hls].
    + destruct (mutation_takes_effect (Toggle i c) s I)
        as [E | a d c' s1 E _ _ _ Hls _ _ _ _]; cbn [handle] in E; rewrite E;
        [reflexivity |].
      rewrite unwritable_commit; [exact Hls | now rewrite Hls].
    + destruct (mutation_takes_effect (Delete i c) s I)
        as [E | a d c' s1 E _ _ _ Hls _ _ _ _]; cbn [handle] in E; rewrite E;
        [reflexivity |].
      rewrite unwritable_commit; [exact Hls | now rewrite Hls].
    + destruct (mutation_takes_effect (SaveEdit i newText c) s I)
        as [E | a d c' s1 E _ _ _ Hls _ _ _ _]; cbn [handle] in E; rewrite E;
        [reflexivity |].
      rewrite unwritable_commit; [exact Hls | now rewrite Hls].
    + now apply Hsync.
    + now apply Hsync.
    + destruct (ok && negb (isOnline s)); [now apply Hsync | reflexivity].
    + now destruct (isOnline s).
    + unfold resume. destruct (drains s !! k) as [d |]; [| reflexivity].
      destruct o as [b |]; [| reflexivity].
      rewrite mark_synced_eq.
      match goal with |- context [iterate ?a ?n ?st] =>
        destruct (iterate_store a n st) as [E | E]; rewrite E; [reflexivity |];
        now rewrite unwritable_sync_completed end.
Qed.

Lemma store_never_steers_witness :
  localStorage (handle (Toggle 6 (at_ms 9))
                  (set_localStorage
                     {| ls_todos := None; ls_pendingSync := None;
                        ls_denied := false; ls_full := true |}
                     three_queued))
    = {| ls_todos := None; ls_pendingSync := None; ls_denied := false; ls_full := true |} /\
  completed_at (heap (handle (Toggle 6 (at_ms 9))
                  (set_localStorage
                     {| ls_todos := None; ls_pendingSync := None;
                        ls_denied := false; ls_full := true |}
                     three_queued))) 1%nat = true.
Proof.
  split; [| reflexivity].
  apply (store_never_steers (Toggle 6 (at_ms 9)) empty_storage
           (set_localStorage
              {| ls_todos := None; ls_pendingSync := None;
                 ls_denied := false; ls_full := true |}
              three_queued)).
  right. reflexivity.
Defined.

(** ** What a settling call can and cannot do *)

(** X8: the online flag after an event: the two browser events and the two
    decisive probe results set it, nothing else touches it, not even a
    rejected remote call. *)
Theorem online_flag_after (ev : Event) (s : App) :
  isOnline (handle ev s)
    = match ev with
      | BrowserOnline | ProbeDone true => true
      | BrowserOffline | ProbeFailed => false
      | _ => isOnline s
      end.
Proof.
  destruct ev; cbn [handle]; try reflexivity.
  - now destruct (addTodo_frame c s) as (_ & -> & _).
  - now destruct (toggleTodo_frame i c s) as (_ & -> & _).
  - now destruct (deleteTodo_frame i c s) as (_ & -> & _).
  - now destruct (saveEdit_frame i newText c s) as (_ & -> & _).
  - now destruct (syncData_shape s) as (_ & _ & _ & ->).
  - now destruct (syncData_shape (set_isOnline true s)) as (_ & _ & _ & ->).
  - destruct ok; cbn [andb]; [| reflexivity].
    destruct (isOnline s) eqn:E; cbn [negb]; [exact E |].
    now destruct (syncData_shape (set_isOnline true s)) as (_ & _ & _ & ->).
  - destruct (isOnline s) eqn:E; [reflexivity | exact E].
  - destruct (resume_settlement k o s) as [_ -> | d _ _ -> | d b it _ _ _ -> | d b _ _ _ ->];
      try reflexivity.
    now destruct (sync_completed_frame
                    (set_heap (synced_heap (todos s) (heap s) (d_item d))
                       (set_drains (base.delete k (drains s)) s))) as (_ & -> & _).
Qed.

(** X9: a drain in flight does not look at the online flag: a call that
    settles after the flag has changed is handled exactly as before, so
    the replay goes on while the app shows offline. *)
Theorem settlement_ignores_flag (k : nat) (o : ApiOutcome) (b : bool) (s : App) :
  handle (ApiDone k o) (set_isOnline b s) = set_isOnline b (handle (ApiDone k o) s).
Proof.
  cbn [handle]. unfold resume. cbn [drains set_isOnline].
  destruct (drains s !! k) as [d |]; [| reflexivity].
  destruct o as [r |]; [| reflexivity].
  rewrite !mark_synced_eq. unfold iterate.
  change (array_at (set_heap _ (set_drains _ (set_isOnline b s))) (d_array d))
    with (array_at s (d_array d)).
  change (array_at (set_heap _ (set_drains _ s)) (d_array d))
    with (array_at s (d_array d)).
  destruct (array_at s (d_array d) !! d_next d); [reflexivity |].
  unfold sync_completed. rewrite !saveTodos_eq, !savePendingSync_eq. reflexivity.
Qed.

(** X10: the queue in [this.pendingSync] only ever grows by one entry at its
    end, or is replaced by the empty array; and it is replaced only when
    a resolved call ends a drain, with the success notification. *)
Theorem queue_grows_or_is_cleared (ev : Event) (s : App) :
  pendingSync (handle ev s) = pendingSync s \/
  (exists it, pendingSync (handle ev s) = pendingSync s ++ [it]) \/
  (pendingSync (handle ev s) = [] /\
   detached (handle ev s) = detached s ++ [pendingSync s] /\
   notifications (handle ev s)
     = notifications s ++ [("Sync completed successfully!", Success)] /\
   exists k b d,
     ev = ApiDone k (Resolved b) /\ drains s !! k = Some d /\
     array_at s (d_array d) !! d_next d = None).
Proof.
  assert (Hmut : forall ev', is_mutation ev' ->
            pendingSync (handle ev' s) = pendingSync s \/
            exists it, pendingSync (handle ev' s) = pendingSync s ++ [it]).
  { intros ev' Hm.
    destruct (mutation_takes_effect ev' s Hm)
      as [E | a d c s1 E _ Hq _ _ _ _ _ _]; rewrite E; [now left |].
    rewrite <- Hq. destruct (isOnline s1) eqn:Ho.
    - rewrite (commit_online _ _ _ _ Ho). now left.
    - rewrite (commit_offline _ _ _ _ Ho), saveTodos_eq, savePendingSync_eq.
      right. now exists (queued a d c). }
  destruct ev; try (now left).
  - destruct (Hmut (Add c) I) as [E | E]; [now left | right; now left].
  - destruct (Hmut (Toggle i c) I) as [E | E]; [now left | right; now left].
  - destruct (Hmut (Delete i c) I) as [E | E]; [now left | right; now left].
  - destruct (Hmut (SaveEdit i newText c) I) as [E | E]; [now left | right; now left].
  - left. cbn [handle]. now destruct (syncData_shape s) as (_ & _ & -> & _).
  - left. cbn [handle].
    now destruct (syncData_shape (set_isOnline true s)) as (_ & _ & -> & _).
  - left. cbn [handle]. destruct (ok && negb (isOnline s)); [| reflexivity].
    now destruct (syncData_shape (set_isOnline true s)) as (_ & _ & -> & _).
  - left. cbn [handle]. now destruct (isOnline s).
  - cbn [handle].
    destruct (resume_settlement k o s)
      as [_ -> | d _ _ -> | d b it _ _ _ -> | d b Ek -> Ea ->]; try (now left).
    right; right. unfold sync_completed. rewrite saveTodos_eq, savePendingSync_eq. cbn.
    repeat split. now exists k, b, d.
Qed.

Lemma synced_heap_content (ts : list loc) (h : list Todo) (it : SyncItem) :
  content <$> synced_heap ts h it = content <$> h.
Proof.
  unfold synced_heap.
  destruct (data_id _ _) as [i |]; [| reflexivity].
  destruct (truthy_number i); [| reflexivity].
  destruct (find _ _) as [k |]; [| reflexivity].
  apply list_eq. intros l. rewrite !list_lookup_fmap.
  destruct (decide (k = l)) as [-> | Hne].
  - rewrite list_lookup_alter_eq. now destruct (h !! l).
  - now rewrite list_lookup_alter_ne.
Qed.

Lemma non_mutation_keeps_tasks (ev : Event) (s : App) :
  ~ is_mutation ev ->
  todos (handle ev s) = todos s /\
  content <$> heap (handle ev s) = content <$> heap s /\
  forall l, status_at (heap (handle ev s)) l = status_at (heap s) l \/
            status_at (heap (handle ev s)) l = Some synced.
Proof.
  intros Hm.
  assert (Hsame : forall st, todos st = todos s -> heap st = heap s ->
            todos st = todos s /\ content <$> heap st = content <$> heap s /\
            forall l, status_at (heap st) l = status_at (heap s) l \/
                      status_at (heap st) l = Some synced).
  { intros st Ht Hh. rewrite Ht, Hh. split; [reflexivity |]. split; [reflexivity |].
    intros l. now left. }
  assert (Hmark : forall st it, todos st = todos s ->
            heap st = synced_heap (todos s) (heap s) it ->
            todos st = todos s /\ content <$> heap st = content <$> heap s /\
            forall l, status_at (heap st) l = status_at (heap s) l \/
                      status_at (heap st) l = Some synced).
  { intros st it Ht Hh. rewrite Ht, Hh. split; [reflexivity |].
    split; [apply synced_heap_content | apply synced_heap_status]. }
  destruct ev; cbn in Hm; try (exfalso; now apply Hm); cbn [handle];
    try (now apply Hsame).
  - destruct (syncData_shape s) as (Hh & Ht & _). now apply Hsame.
  - destruct (syncData_shape (set_isOnline true s)) as (Hh & Ht & _). now apply Hsame.
  - destruct (ok && negb (isOnline s)); [| now apply Hsame].
    destruct (syncData_shape (set_isOnline true s)) as (Hh & Ht & _). now apply Hsame.
  - destruct (isOnline s); now apply Hsame.
  - destruct (resume_settlement k o s)
      as [_ -> | d _ _ -> | d b it _ _ _ -> | d b _ _ _ ->].
    + now apply Hsame.
    + now apply Hsame.
    + now apply Hmark with (it := d_item d).
    + destruct (sync_completed_frame
                  (set_heap (synced_heap (todos s) (heap s) (d_item d))
                     (set_drains (base.delete k (drains s)) s)))
        as (_ & _ & Ht & Hh & _).
      now apply Hmark with (it := d_item d).
Qed.

(** X11: connectivity events, sync requests and settling calls never add,
    remove or reorder a task and never change a task's id, text,
    completion or dates: all they can do to a task is set its status to
    [synced]. *)
Theorem only_mutations_change_tasks (ev : Event) (s : App) :
  ~ is_mutation ev ->
  todos (handle ev s) = todos s /\
  content <$> heap (handle ev s) = content <$> heap s /\
  forall l, status_at (heap (handle ev s)) l = status_at (heap s) l \/
            status_at (heap (handle ev s)) l = Some synced.
Proof. apply non_mutation_keeps_tasks. Qed.

Lemma only_mutations_change_tasks_witness :
  todos (handle (ApiDone 0 (Resolved true)) (syncData three_queued)) = [2%nat; 1%nat; 0%nat] /\
  content <$> heap (handle (ApiDone 0 (Resolved true)) (syncData three_queued))
    = content <$> heap (syncData three_queued).
Proof.
  assert (Hm : ~ is_mutation (ApiDone 0 (Resolved true))) by (intros H; exact H).
  destruct (only_mutations_change_tasks (ApiDone 0 (Resolved true))
              (syncData three_queued) Hm) as (Ht & Hc & _).
  split; [rewrite Ht; reflexivity | exact Hc].
Defined.

(** ** Drains one after the other *)

(** X12: after a drain that a rejected call has ended, the next drain starts
    again at the head of the queue: the entries whose calls had resolved
    are sent a second time, and the queue is emptied only now. *)
Theorem retry_replays_whole_queue (oks rest outs : list ApiOutcome) (s : App) :
  drains s = [] -> isOnline s = true -> Forall resolved oks ->
  (length oks < length (pendingSync s))%nat ->
  Forall resolved outs -> length outs = length (pendingSync s) ->
  let s1 := drain_with (oks ++ Rejected :: rest) s in
  let s2 := drain_with outs s1 in
  pendingSync s1 = pendingSync s /\
  pendingSync s2 = [] /\
  drains s2 = [] /\
  syncing s2 = false /\
  remoteCalls s2
    = remoteCalls s ++ map call_of (take (S (length oks)) (pendingSync s))
                    ++ map call_of (pendingSync s) /\
  notifications s2
    = notifications s ++ [("Sync failed. Will retry later.", Error);
                          ("Sync completed successfully!", Success)].
Proof.
  intros Hd Hon Hoks Hlen Houts Hlen2 s1 s2. subst s2 s1.
  rewrite (drain_with_rejected oks rest s Hd Hon Hoks Hlen).
  set (s1 := sync_failed (set_drains [] (rejected_at (length oks) s))).
  assert (Hq1 : pendingSync s1 = pendingSync s) by reflexivity.
  assert (Hne : pendingSync s1 <> []).
  { rewrite Hq1. intros E. rewrite E in Hlen. cbn in Hlen. lia. }
  rewrite (drain_with_all_resolved outs s1 eq_refl Hon Houts Hne)
    by (now rewrite Hq1).
  unfold sync_completed. rewrite saveTodos_eq, savePendingSync_eq. cbn.
  split; [reflexivity |]. split; [reflexivity |]. split; [reflexivity |].
  split; [reflexivity |]. split.
  - now rewrite <- app_assoc.
  - now rewrite <- app_assoc.
Qed.

Lemma retry_replays_whole_queue_witness :
  remoteCalls (drain_with [Resolved true; Resolved true; Resolved true]
                 (drain_with [Resolved true; Rejected] three_queued))
    = [(create, TodoRef 0%nat); (create, TodoRef 1%nat);
       (create, TodoRef 0%nat); (create, TodoRef 1%nat); (create, TodoRef 2%nat)] /\
  pendingSync (drain_with [Resolved true; Resolved true; Resolved true]
                 (drain_with [Resolved true; Rejected] three_queued)) = [].
Proof.
  assert (Hoks : Forall resolved [Resolved true]) by (repeat constructor).
  assert (Houts : Forall resolved [Resolved true; Resolved true; Resolved true])
    by (repeat constructor).
  assert (Hlen : (length [Resolved true] < length (pendingSync three_queued))%nat)
    by (vm_compute; lia).
  destruct (retry_replays_whole_queue [Resolved true] []
              [Resolved true; Resolved true; Resolved true] three_queued
              eq_refl eq_refl Hoks Hlen Houts eq_refl) as (_ & Hq & _ & _ & Hc & _).
  cbn [app] in Hq, Hc. split; [rewrite Hc; reflexivity | exact Hq].
Defined.

(** X13: a drain that nothing interrupts and that every call resolves leaves
    the store, if it can be written, holding the empty queue and the
    collection with the statuses the drain has set. *)
Theorem completed_drain_is_persisted (outs : list ApiOutcome) (s : App) :
  drains s = [] -> isOnline s = true -> pendingSync s <> [] ->
  Forall resolved outs -> length outs = length (pendingSync s) ->
  writable (localStorage s) ->
  let s' := drain_with outs s in
  ls_pendingSync (localStorage s') = Some (JsonText (JArr [])) /\
  queue_persisted s' /\ todos_persisted s'.
Proof.
  intros Hd Hon Hne Hres Hlen Hw s'. subst s'.
  rewrite (drain_with_all_resolved outs s Hd Hon Hres Hne Hlen).
  unfold queue_persisted, todos_persisted, sync_completed.
  rewrite saveTodos_eq, savePendingSync_eq. cbn.
  rewrite todos_saved_writable; cbn.
  - rewrite pendingSync_saved_writable by exact Hw. now repeat split.
  - rewrite pendingSync_saved_writable by exact Hw. now split.
Qed.

Lemma completed_drain_is_persisted_witness :
  ls_pendingSync (localStorage
                    (drain_with [Resolved true; Resolved true; Resolved true] three_queued))
    = Some (JsonText (JArr [])) /\
  todos_persisted (drain_with [Resolved true; Resolved true; Resolved true] three_queued).
Proof.
  assert (Hne : pendingSync three_queued <> []) by (vm_compute; discriminate).
  assert (Houts : Forall resolved [Resolved true; Resolved true; Resolved true])
    by (repeat constructor).
  destruct (completed_drain_is_persisted [Resolved true; Resolved true; Resolved true]
              three_queued eq_refl eq_refl Hne Houts eq_refl (conj eq_refl eq_refl))
    as (Hq & _ & Ht).
  split; [exact Hq | exact Ht].
Defined.

(** ** Views *)

Lemma length_filter_bool {A : Type} (p : A -> bool) (l : list A) :
  (length (filter (fun x => p x = false) l) + length (filter (fun x => p x = true) l)
   = length l)%nat.
Proof.
  induction l as [| x l IH]; [reflexivity |].
  rewrite !filter_cons. destruct (p x) eqn:E.
  - rewrite decide_False by discriminate. rewrite decide_True by reflexivity.
    cbn. lia.
  - rewrite decide_True by reflexivity. rewrite decide_False by discriminate.
    cbn. lia.
Qed.

(** X14: the three counters agree with the three views: the total is the size
    of the unfiltered view, the active and completed counters are the
    sizes of the two filtered views, these two add up to the total, and
    every task is in exactly one of them, in the order of the collection.
    Any filter name other than the two known ones shows everything.  The
    sync button is disabled exactly when the queue is empty. *)
Theorem stats_agree_with_views (s : App) (other : string) :
  other <> "active" -> other <> "completed" ->
  getFilteredTodos other s = todos s /\
  st_total (updateStats s) = Z.of_nat (length (getFilteredTodos "all" s)) /\
  st_active (updateStats s) = Z.of_nat (length (getFilteredTodos "active" s)) /\
  st_completed (updateStats s) = Z.of_nat (length (getFilteredTodos "completed" s)) /\
  st_total (updateStats s) = st_active (updateStats s) + st_completed (updateStats s) /\
  sublist (getFilteredTodos "active" s) (todos s) /\
  sublist (getFilteredTodos "completed" s) (todos s) /\
  (forall l, l ∈ todos s ->
     (l ∈ getFilteredTodos "active" s /\ ~ (l ∈ getFilteredTodos "completed" s)) \/
     (~ (l ∈ getFilteredTodos "active" s) /\ l ∈ getFilteredTodos "completed" s)) /\
  (st_syncDisabled (updateStats s) = true <-> pendingSync s = []).
Proof.
  intros Ha Hc.
  pose proof (length_filter_bool (completed_at (heap s)) (todos s)) as Hlen.
  assert (Hother : getFilteredTodos other s = todos s).
  { unfold getFilteredTodos.
    rewrite (proj2 (String.eqb_neq other "active") Ha).
    now rewrite (proj2 (String.eqb_neq other "completed") Hc). }
  split; [exact Hother |].
  change (getFilteredTodos "all" s) with (todos s).
  change (getFilteredTodos "active" s)
    with (filter (fun l => completed_at (heap s) l = false) (todos s)).
  change (getFilteredTodos "completed" s)
    with (filter (fun l => completed_at (heap s) l = true) (todos s)).
  unfold updateStats. cbn [st_total st_active st_completed st_syncDisabled].
  split; [reflexivity |]. split; [lia |]. split; [reflexivity |]. split; [lia |].
  split; [apply sublist_filter |]. split; [apply sublist_filter |]. split.
  - intros l Hl. rewrite !list_elem_of_filter.
    destruct (completed_at (heap s) l); [right | left].
    + split; [intros [H _]; discriminate H | now split].
    + split; [now split | intros [H _]; discriminate H].
  - destruct (pendingSync s) as [| it q]; cbn [length].
    + split; reflexivity.
    + split; [| discriminate]. intros H. apply negb_true_iff, Z.ltb_ge in H. lia.
Qed.

Lemma stats_agree_with_views_witness :
  getFilteredTodos "done" three_queued = [2%nat; 1%nat; 0%nat] /\
  st_active (updateStats three_queued) = 3 /\
  st_syncDisabled (updateStats three_queued) = false.
Proof.
  assert (Ha : "done" <> "active") by discriminate.
  assert (Hc : "done" <> "completed") by discriminate.
  destruct (stats_agree_with_views three_queued "done" Ha Hc) as (Ho & _ & Hact & _).
  split; [rewrite Ho; reflexivity |]. split; [rewrite Hact; reflexivity | reflexivity].
Defined.

(** ** Task texts *)

Lemma trimEnd_idem (s : string) : trimEnd (trimEnd s) = trimEnd s.
Proof.
  induction s as [| c r IH]; [reflexivity |]. cbn.
  destruct (trimEnd r) as [| c' r'] eqn:E.
  - destruct (is_ws c) eqn:W; [reflexivity |]. cbn. now rewrite W.
  - cbn. cbn in IH. rewrite IH. reflexivity.
Qed.

Lemma trimStart_stops (s : string) :
  trimStart s = "" \/ exists c r, trimStart s = String c r /\ is_ws c = false.
Proof.
  induction s as [| c r IH]; [now left |]. cbn.
  destruct (is_ws c) eqn:W; [exact IH |]. right. now exists c, r.
Qed.

Lemma trimStart_trimEnd (c : ascii) (r : string) :
  is_ws c = false -> trimStart (trimEnd (String c r)) = trimEnd (String c r).
Proof.
  intros W. cbn. destruct (trimEnd r); rewrite ?W; cbn; now rewrite ?W.
Qed.

Lemma trim_idem (s : string) : trim (trim s) = trim s.
Proof.
  unfold trim. destruct (trimStart_stops s) as [E | (c & r & E & W)]; rewrite E.
  - reflexivity.
  - rewrite (trimStart_trimEnd c r W). apply trimEnd_idem.
Qed.

Lemma lookup_alter_Some {A : Type} (f : A -> A) (k l : nat) (h : list A) (x : A) :
  alter f k h !! l = Some x ->
  h !! l = Some x \/ exists y, h !! l = Some y /\ x = f y.
Proof.
  destruct (decide (k = l)) as [-> | Hne].
  - rewrite list_lookup_alter_eq. destruct (h !! l) as [y |]; [| discriminate].
    cbn. intros [= <-]. right. now exists y.
  - rewrite list_lookup_alter_ne by exact Hne. now left.
Qed.

Lemma handle_texts_clean (ev : Event) (s : App) :
  texts_clean s -> texts_clean (handle ev s).
Proof.
  intros Hs.
  assert (Hnon : forall ev', ~ is_mutation ev' -> texts_clean (handle ev' s)).
  { intros ev' Hm. destruct (non_mutation_keeps_tasks ev' s Hm) as (_ & Hc & _).
    intros l t Hl.
    assert (E : (content <$> heap (handle ev' s)) !! l = Some (content t))
      by now rewrite list_lookup_fmap, Hl.
    rewrite Hc, list_lookup_fmap in E.
    destruct (heap s !! l) as [t0 |] eqn:E0; [| discriminate].
    cbn in E. injection E as _ Htx _ _ _. rewrite <- Htx. now apply (Hs l). }
  destruct ev; try (apply Hnon; intros H; exact H); cbn [handle].
  - destruct (truthy_string (trim (todoInput s))) eqn:Ht;
      [| unfold addTodo; now rewrite Ht].
    destruct (addTodo_shape c s Ht) as (Hh & _).
    intros l t Hl. rewrite Hh in Hl.
    apply lookup_app_Some in Hl as [Hl | [_ Hl]]; [now apply (Hs l) |].
    destruct (l - length (heap s))%nat; cbn in Hl; [| discriminate].
    injection Hl as <-. cbn. split; [now apply truthy_string_nonempty | apply trim_idem].
  - destruct (find_todo i s) as [k |] eqn:Hf; [| unfold toggleTodo; now rewrite Hf].
    destruct (toggleTodo_shape i c s k Hf) as (Hh & _).
    intros l t Hl. rewrite Hh in Hl.
    apply lookup_alter_Some in Hl as [Hl | (y & Hy & ->)]; [now apply (Hs l) |].
    cbn. now apply (Hs l).
  - destruct (find_todo i s) as [k |] eqn:Hf; [| unfold deleteTodo; now rewrite Hf].
    destruct (deleteTodo_shape i c s k Hf) as (Hh & _). unfold texts_clean.
    now rewrite Hh.
  - destruct (find_todo i s) as [k |] eqn:Hf; [| unfold saveEdit; now rewrite Hf].
    destruct (truthy_string (trim newText)) eqn:Ht;
      [| unfold saveEdit; now rewrite Hf, Ht].
    destruct (saveEdit_shape i newText c s k Hf Ht) as (Hh & _).
    intros l t Hl. rewrite Hh in Hl.
    apply lookup_alter_Some in Hl as [Hl | (y & Hy & ->)]; [now apply (Hs l) |].
    cbn. split; [now apply truthy_string_nonempty | apply trim_idem].
Qed.

(** X15: no task ever has an empty text or a text with white space at either
    end: starting from clean texts, whatever events are handled in
    whatever order, every task keeps a clean text. *)
Theorem texts_stay_clean (s0 s : App) :
  texts_clean s0 -> reach any_event s0 s -> texts_clean s.
Proof.
  intros H0 Hr. induction Hr as [| s ev Hr IH _]; [exact H0 |].
  now apply handle_texts_clean.
Qed.

Lemma texts_stay_clean_witness :
  texts_clean (run [Input "  walk the dog "; Add (at_ms 5); SaveEdit 5 " feed the cat  " (at_ms 6)]
                   (fresh_install true)) /\
  (text <$> heap (run [Input "  walk the dog "; Add (at_ms 5);
                       SaveEdit 5 " feed the cat  " (at_ms 6)] (fresh_install true)))
    = ["feed the cat"].
Proof.
  split; [| reflexivity].
  apply (texts_stay_clean (fresh_install true)).
  - intros l t Hl. cbn in Hl. now rewrite lookup_nil in Hl.
  - apply reach_run; [apply reach_init |]. intros n ev _. exact I.
Defined.

(** ** Reloading from the store *)

Lemma todo_of_JSON_of_todo (t : Todo) : todo_of_JSON (JSON_of_todo t) = Some t.
Proof.
  destruct t as [i tx c ca lm st]. unfold todo_of_JSON, JSON_of_todo. cbn.
  destruct st; reflexivity.
Qed.

Lemma todo_of_JSON_id_only (i : Z) :
  todo_of_JSON (JObj [("id", JNum (inject_Z i))]) = None.
Proof. reflexivity. Qed.

Lemma values_JSON (h : list Todo) (ts : list loc) :
  (forall l, l ∈ ts -> is_Some (h !! l)) ->
  JSON_of_ref h <$> ts = JSON_of_todo <$> values h ts /\
  length (values h ts) = length ts.
Proof.
  induction ts as [| l ts IH]; intros Hwf; [now split |].
  destruct (Hwf l) as [t Ht]; [apply elem_of_cons; now left |].
  destruct IH as [IH1 IH2]; [intros x Hx; apply Hwf, elem_of_cons; now right |].
  unfold values in *. cbn. rewrite Ht. cbn. unfold JSON_of_ref at 1. rewrite Ht.
  split; [now f_equal | now f_equal].
Qed.

Lemma JSON_of_reloaded (pre vals post : list Todo) :
  JSON_of_ref (pre ++ vals ++ post) <$> seq (length pre) (length vals)
    = JSON_of_todo <$> vals.
Proof.
  revert pre. induction vals as [| t vals IH]; intros pre; [reflexivity |].
  cbn [length seq fmap list_fmap]. f_equal.
  - unfold JSON_of_ref. rewrite lookup_app_r by lia. now rewrite Nat.sub_diag.
  - specialize (IH (pre ++ [t])). rewrite length_app in IH. cbn in IH.
    rewrite Nat.add_1_r in IH. rewrite <- app_assoc in IH. exact IH.
Qed.

Lemma values_reloaded (vals post : list Todo) :
  values (vals ++ post) (seq 0 (length vals)) = vals.
Proof.
  enough (H : forall pre, values (pre ++ vals ++ post) (seq (length pre) (length vals)) = vals)
    by exact (H []).
  induction vals as [| t vals IH]; intros pre; [reflexivity |].
  unfold values in *. cbn [length seq omap list_omap].
  rewrite lookup_app_r by lia. rewrite Nat.sub_diag. cbn. f_equal.
  specialize (IH (pre ++ [t])). rewrite length_app in IH. cbn in IH.
  rewrite Nat.add_1_r in IH. rewrite <- app_assoc in IH. exact IH.
Qed.

Lemma item_round_trip (h : list Todo) (it : SyncItem) (base : loc) :
  (forall l, data it = TodoRef l -> is_Some (h !! l)) ->
  exists objs it',
    item_of_JSON base (JSON_of_item h it) = Some (objs, it') /\
    (forall pre post, length pre = base ->
       JSON_of_item (pre ++ objs ++ post) it' = JSON_of_item h it) /\
    (forall l, data it' = TodoRef l -> l = base /\ length objs = 1%nat).
Proof.
  intros Hlive. destruct it as [i a d ts]. cbn in Hlive.
  assert (Ha : as_action (JSON_of_action a) = Some a) by (destruct a; reflexivity).
  destruct d as [l | n].
  - destruct (Hlive l eq_refl) as [t Ht].
    exists [t], {| item_id := i; action := a; data := TodoRef base; timestamp := ts |}.
    split; [| split].
    + unfold item_of_JSON, JSON_of_item. cbn. rewrite Ha. cbn.
      unfold JSON_of_ref. rewrite Ht. now rewrite todo_of_JSON_of_todo.
    + intros pre post <-. unfold JSON_of_item. cbn. unfold JSON_of_ref.
      rewrite lookup_app_r by lia. rewrite Nat.sub_diag. cbn. now rewrite Ht.
    + intros l' [= <-]. now split.
  - exists [], {| item_id := i; action := a; data := IdOnly n; timestamp := ts |}.
    split; [| split].
    + unfold item_of_JSON, JSON_of_item. cbn. rewrite Ha. reflexivity.
    + intros pre post _. reflexivity.
    + intros l' [=].
Qed.

Lemma items_round_trip (h : list Todo) (q : list SyncItem) :
  (forall it l, it ∈ q -> data it = TodoRef l -> is_Some (h !! l)) ->
  forall base,
  exists objs q',
    items_of_JSON base (JSON_of_item h <$> q) = Some (objs, q') /\
    (forall pre post, length pre = base ->
       JSON_of_item (pre ++ objs ++ post) <$> q' = JSON_of_item h <$> q) /\
    (forall it l, it ∈ q' -> data it = TodoRef l -> (base <= l)%nat) /\
    length q' = length q.
Proof.
  induction q as [| it q IH]; intros Hlive base.
  - exists [], []. split; [reflexivity |]. split; [reflexivity |].
    split; [| reflexivity]. intros it l Hit. now apply elem_of_nil in Hit.
  - destruct (item_round_trip h it base) as (objs1 & it' & E1 & J1 & R1).
    { intros l. apply Hlive. apply elem_of_cons. now left. }
    destruct (IH (fun x l Hx => Hlive x l (proj2 (elem_of_cons _ _ _) (or_intror Hx)))
                 (base + length objs1)%nat) as (objs2 & q' & E2 & J2 & R2 & L2).
    exists (objs1 ++ objs2), (it' :: q').
    split; [| split; [| split]].
    + rewrite fmap_cons. cbn [items_of_JSON]. rewrite E1, E2. reflexivity.
    + intros pre post Hpre. rewrite !fmap_cons. f_equal.
      * rewrite <- app_assoc. now apply J1.
      * rewrite <- app_assoc, app_assoc. apply J2. rewrite length_app. lia.
    + intros x l Hx Hd. apply elem_of_cons in Hx as [-> | Hx].
      * destruct (R1 l Hd) as [-> _]. lia.
      * specialize (R2 x l Hx Hd). lia.
    + cbn. now rewrite L2.
Qed.

Lemma load_written (k : Key) (ls : Storage) (v : JSValue) :
  ls_denied ls = false -> slot k ls = Some (JsonText v) -> load k ls = v.
Proof.
  intros Hd Hs. unfold load, getItem. rewrite Hd. fold (slot k ls). now rewrite Hs.
Qed.

(** X16: saving and reloading gives the same tasks and the same queue: from a
    state whose references are live and whose store can be written, the
    app constructed from the saved store has the same task objects in
    the same order and a queue that serialises to the same text.  The
    reloaded queue entries no longer share their data with the tasks of
    the collection. *)
Theorem reload_round_trip (onLine : bool) (s : App) :
  refs_live s -> writable (localStorage s) ->
  exists s',
    constructor onLine (localStorage (saveTodos (savePendingSync s))) = Some s' /\
    values (heap s') (todos s') = values (heap s) (todos s) /\
    stringify_todos s' = stringify_todos s /\
    stringify_pendingSync s' = stringify_pendingSync s /\
    length (pendingSync s') = length (pendingSync s) /\
    (forall it l, it ∈ pendingSync s' -> data it = TodoRef l -> ~ (l ∈ todos s')) /\
    isOnline s' = onLine /\ drains s' = [].
Proof.
  intros [Hwf Hrefs] Hw.
  destruct (values_JSON (heap s) (todos s) Hwf) as [HJ HL].
  destruct (items_round_trip (heap s) (pendingSync s) Hrefs
              (length (values (heap s) (todos s)))) as (objs & q' & EQ & JQ & RQ & LQ).
  set (ls := localStorage (saveTodos (savePendingSync s))).
  assert (Hls : ls = {| ls_todos := Some (stringify_todos s);
                        ls_pendingSync := Some (stringify_pendingSync s);
                        ls_denied := false; ls_full := false |}).
  { subst ls. rewrite saveTodos_eq, savePendingSync_eq. cbn.
    rewrite todos_saved_writable; cbn.
    - now rewrite pendingSync_saved_writable.
    - rewrite pendingSync_saved_writable by exact Hw. now split. }
  assert (Ht : loadTodos ls = JArr (JSON_of_todo <$> values (heap s) (todos s))).
  { unfold loadTodos. rewrite (load_written K_todos ls _ (f_equal ls_denied Hls)
                                  (f_equal ls_todos Hls)).
    unfold stringify_todos. cbn. now rewrite <- HJ. }
  assert (Hq : loadPendingSync ls = JArr (JSON_of_item (heap s) <$> pendingSync s)).
  { unfold loadPendingSync. now rewrite (load_written K_pendingSync ls _
                                           (f_equal ls_denied Hls)
                                           (f_equal ls_pendingSync Hls)). }
  eexists. split.
  - unfold constructor. rewrite Ht, Hq. cbn.
    rewrite (mapM_fmap_Some todo_of_JSON JSON_of_todo _ todo_of_JSON_of_todo). cbn.
    rewrite EQ. cbn. reflexivity.
  - cbn. split; [apply values_reloaded |]. split; [| split; [| split; [| split]]].
    + unfold stringify_todos. cbn. f_equal. f_equal.
      etransitivity; [exact (JSON_of_reloaded [] _ objs) | exact (eq_sym HJ)].
    + unfold stringify_pendingSync. cbn. f_equal. f_equal.
      rewrite <- (app_nil_r objs). now apply (JQ _ []).
    + exact LQ.
    + intros it l Hit Hd Hin. specialize (RQ it l Hit Hd).
      apply elem_of_seq in Hin. lia.
    + now split.
Qed.

Lemma refs_live_three_queued : refs_live three_queued.
Proof.
  split.
  - intros l Hl. vm_compute in Hl.
    repeat (apply elem_of_cons in Hl as [-> | Hl]; [vm_compute; eauto |]).
    now apply elem_of_nil in Hl.
  - intros it l Hit Hd. vm_compute in Hit.
    repeat (apply elem_of_cons in Hit as [-> | Hit];
            [cbn in Hd; injection Hd as <-; vm_compute; eauto |]).
    now apply elem_of_nil in Hit.
Qed.

Lemma reload_round_trip_witness :
  exists s',
    constructor false (localStorage (saveTodos (savePendingSync three_queued))) = Some s' /\
    values (heap s') (todos s') = values (heap three_queued) (todos three_queued) /\
    data <$> pendingSync s' = [TodoRef 3%nat; TodoRef 4%nat; TodoRef 5%nat].
Proof.
  destruct (reload_round_trip false three_queued refs_live_three_queued
              (conj eq_refl eq_refl)) as (s' & Hc & Hv & _).
  exists s'. split; [exact Hc |]. split; [exact Hv |].
  vm_compute in Hc. injection Hc as <-. reflexivity.
Defined.

Lemma load_unreadable (k : Key) (ls : Storage) : unreadable k ls -> load k ls = JArr [].
Proof.
  unfold load, getItem. intros [Hd | [Hn | [raw Hr]]].
  - now rewrite Hd.
  - destruct (ls_denied ls); [reflexivity |]. fold (slot k ls). now rewrite Hn.
  - destruct (ls_denied ls); [reflexivity |]. fold (slot k ls). rewrite Hr. cbn.
    now destruct (truthy_string raw).
Qed.

(** X17: with a store that cannot be read, or whose two keys are absent or
    hold texts that do not parse, the app starts empty, whatever else
    the store holds, and leaves the store as it found it. *)
Theorem start_up_without_usable_store (onLine : bool) (ls : Storage) :
  unreadable K_todos ls -> unreadable K_pendingSync ls ->
  constructor onLine ls = Some (set_localStorage ls (fresh_install onLine)).
Proof.
  intros Ht Hq. unfold constructor, loadTodos, loadPendingSync.
  now rewrite (load_unreadable _ _ Ht), (load_unreadable _ _ Hq).
Qed.

Lemma start_up_without_usable_store_witness :
  constructor true (store_with (BadText "[{id:17"))
    = Some (set_localStorage (store_with (BadText "[{id:17")) (fresh_install true)).
Proof.
  apply (start_up_without_usable_store true (store_with (BadText "[{id:17"))).
  - right. right. now exists "[{id:17".
  - right. right. now exists "[{id:17".
Defined.

Lemma item_of_JSON_refs (base : loc) (v : JSValue) (objs : list Todo) (it : SyncItem) :
  item_of_JSON base v = Some (objs, it) ->
  forall l, data it = TodoRef l -> l = base /\ length objs = 1%nat.
Proof.
  unfold item_of_JSON. intros H.
  destruct (get "id" v ≫= as_num) as [i |]; [| discriminate]. cbn in H.
  destruct (get "action" v ≫= as_action) as [a |]; [| discriminate]. cbn in H.
  destruct (get "data" v) as [d |]; [| discriminate]. cbn in H.
  destruct (get "timestamp" v ≫= as_str) as [ts |]; [| discriminate]. cbn in H.
  destruct (todo_of_JSON d) as [t |].
  - injection H as <- <-. intros l [= <-]. now split.
  - destruct (get "id" d ≫= as_int) as [n |]; [| discriminate]. cbn in H.
    injection H as <- <-. intros l [=].
Qed.

Lemma items_of_JSON_refs (vs : list JSValue) :
  forall base objs q,
    items_of_JSON base vs = Some (objs, q) ->
    forall it l, it ∈ q -> data it = TodoRef l ->
                 (base <= l < base + length objs)%nat.
Proof.
  induction vs as [| v vs IH]; intros base objs q H it l Hit Hd.
  - cbn in H. injection H as <- <-. now apply elem_of_nil in Hit.
  - cbn [items_of_JSON] in H.
    destruct (item_of_JSON base v) as [[objs1 it1] |] eqn:E1; [| discriminate].
    destruct (items_of_JSON (base + length objs1) vs) as [[objs2 q2] |] eqn:E2;
      [| discriminate].
    injection H as <- <-. rewrite length_app.
    apply elem_of_cons in Hit as [-> | Hit].
    + destruct (item_of_JSON_refs _ _ _ _ E1 l Hd) as [-> Hl]. lia.
    + specialize (IH _ _ _ E2 it l Hit Hd). lia.
Qed.

Lemma starts_drain_iff (ev : Event) (s : App) :
  starts_drain ev s <->
  pendingSync s <> [] /\
  (ev = BrowserOnline \/ (ev = SyncRequested /\ isOnline s = true) \/
   (ev = ProbeDone true /\ isOnline s = false)).
Proof.
  unfold starts_drain.
  assert (Hsync : forall st : App,
             (length (drains st) < length (drains (syncData st)))%nat <->
             pendingSync st <> [] /\ isOnline st = true).
  { intros st. destruct (syncData_cases st) as [E | (Hon & it & Hq & E)]; rewrite E.
    - split; [lia |]. intros [Hne Hon]. exfalso.
      unfold syncData in E. rewrite Hon in E. cbn [negb orb] in E.
      destruct (pendingSync st) as [| it q] eqn:Eq; [congruence |].
      cbn [length Nat.eqb] in E. unfold iterate, array_at in E. cbn in E.
      rewrite Nat.eqb_refl, Eq in E. cbn in E.
      apply (f_equal (fun x => length (drains x))) in E. cbn in E.
      rewrite length_app in E. cbn in E. lia.
    - cbn. rewrite length_app. cbn. split; [intros _ | lia].
      split; [| exact Hon]. intros Hn. rewrite Hn in Hq. discriminate. }
  destruct ev; cbn [handle].
  - cbn. split; [lia | intros [_ [H | [[H _] | [H _]]]]; discriminate].
  - destruct (addTodo_frame c s) as (_ & _ & _ & _ & E). rewrite E.
    split; [lia | intros [_ [H | [[H _] | [H _]]]]; discriminate].
  - destruct (toggleTodo_frame i c s) as (_ & _ & _ & _ & E). rewrite E.
    split; [lia | intros [_ [H | [[H _] | [H _]]]]; discriminate].
  - destruct (deleteTodo_frame i c s) as (_ & _ & _ & _ & E). rewrite E.
    split; [lia | intros [_ [H | [[H _] | [H _]]]]; discriminate].
  - cbn. split; [lia | intros [_ [H | [[H _] | [H _]]]]; discriminate].
  - destruct (saveEdit_frame i newText c s) as (_ & _ & _ & _ & E). rewrite E.
    split; [lia | intros [_ [H | [[H _] | [H _]]]]; discriminate].
  - cbn. split; [lia | intros [_ [H | [[H _] | [H _]]]]; discriminate].
  - rewrite Hsync. split.
    + intros [Hne Hon]. split; [exact Hne |]. right. left. now split.
    + intros [Hne [H | [[_ Hon] | [H _]]]]; try discriminate. now split.
  - rewrite (Hsync (set_isOnline true s)). cbn. split.
    + intros [Hne _]. split; [exact Hne |]. now left.
    + intros [Hne _]. now split.
  - cbn. split; [lia | intros [_ [H | [[H _] | [H _]]]]; discriminate].
  - destruct ok; cbn [andb].
    + destruct (isOnline s) eqn:Hon; cbn [negb].
      * split; [lia |]. intros [_ [H | [[H _] | [_ H]]]]; discriminate.
      * rewrite (Hsync (set_isOnline true s)). cbn. split.
        -- intros [Hne _]. split; [exact Hne |]. right. right. now split.
        -- intros [Hne _]. now split.
    + split; [lia | intros [_ [H | [[H _] | [H _]]]]; discriminate].
  - destruct (isOnline s); cbn;
      (split; [lia | intros [_ [H | [[H _] | [H _]]]]; discriminate]).
  - pose proof (resume_drains_length k o s) as Hle.
    split; [lia | intros [_ [H | [[H _] | [H _]]]]; discriminate].
Qed.

(** X18: whatever the store holds, an app that the constructor builds is well
    formed: every reference is live and no queue entry shares its data
    with a task.  The constructor only reads the store, issues no remote
    call and starts no drain, also when the browser is online and the
    loaded queue is not empty.  The first event handled afterwards
    starts a drain exactly when the queue is not empty and the event is
    a browser 'online' event, a sync request with the flag set, or an ok
    probe with the flag off.  Built online, a probe that resolves
    changes nothing; a probe that fails turns the flag off, and the next
    ok probe then starts the drain. *)
Theorem constructed_app_is_idle (onLine : bool) (ls : Storage) (s : App) :
  constructor onLine ls = Some s ->
  localStorage s = ls /\ isOnline s = onLine /\
  drains s = [] /\ remoteCalls s = [] /\
  refs_live s /\
  (forall it l, it ∈ pendingSync s -> data it = TodoRef l -> ~ (l ∈ todos s)) /\
  (forall ev, starts_drain ev s <->
     pendingSync s <> [] /\
     (ev = BrowserOnline \/ (ev = SyncRequested /\ onLine = true) \/
      (ev = ProbeDone true /\ onLine = false))) /\
  (onLine = true -> forall ok, handle (ProbeDone ok) s = s) /\
  (onLine = true -> pendingSync s <> [] ->
   starts_drain (ProbeDone true) (handle ProbeFailed s)).
Proof.
  unfold constructor. intros H.
  destruct (todos_of_JSON (loadTodos ls)) as [ts |]; [| discriminate]. cbn in H.
  destruct (queue_of_JSON (length ts) (loadPendingSync ls)) as [[objs q] |] eqn:EQ;
    [| discriminate].
  cbn in H. injection H as <-.
  assert (Hrefs : forall it l, it ∈ q -> data it = TodoRef l ->
                               (length ts <= l < length ts + length objs)%nat).
  { unfold queue_of_JSON in EQ. destruct (loadPendingSync ls); try discriminate.
    now apply (items_of_JSON_refs elems). }
  split; [reflexivity |]. split; [reflexivity |]. split; [reflexivity |].
  split; [reflexivity |]. split; [split |]; [| | split; [| split; [| split]]].
  - intros l Hl. cbn in *. apply elem_of_seq in Hl.
    apply lookup_lt_is_Some. rewrite length_app. lia.
  - intros it l Hit Hd. cbn in *. specialize (Hrefs it l Hit Hd).
    apply lookup_lt_is_Some. rewrite length_app. lia.
  - intros it l Hit Hd Hin. specialize (Hrefs it l Hit Hd).
    apply elem_of_seq in Hin. lia.
  - intros ev. apply starts_drain_iff.
  - intros -> ok. cbn. now rewrite andb_false_r.
  - intros -> Hne. apply starts_drain_iff. cbn. split; [exact Hne |].
    right. right. now split.
Qed.

Lemma constructed_app_is_idle_witness :
  exists s,
    constructor true (localStorage (saveTodos (savePendingSync three_queued))) = Some s /\
    length (pendingSync s) = 3%nat /\
    handle (ProbeDone true) s = s /\
    starts_drain (ProbeDone true) (handle ProbeFailed s).
Proof.
  destruct (constructor true (localStorage (saveTodos (savePendingSync three_queued))))
    as [s |] eqn:E; [| vm_compute in E; discriminate E].
  exists s. split; [reflexivity |].
  destruct (constructed_app_is_idle true _ s E) as (_ & _ & _ & _ & _ & _ & _ & Hp & Hf).
  assert (Hlen : length (pendingSync s) = 3%nat).
  { vm_compute in E. injection E as <-. reflexivity. }
  split; [exact Hlen |]. split; [exact (Hp eq_refl true) |].
  apply (Hf eq_refl). intros Hn. rewrite Hn in Hlen. discriminate Hlen.
Defined.

(** ** Clearing the cache *)

Lemma effect_saves_todos (ev : Event) (s : App) :
  is_mutation ev -> writable (localStorage s) -> handle ev s <> s ->
  todos_persisted (handle ev s).
Proof.
  intros Hm Hw Hne.
  destruct (mutation_takes_effect ev s Hm)
    as [E | a d c s1 E _ _ _ Hls _ _ _ _]; [contradiction |].
  rewrite E. rewrite <- Hls in Hw. unfold todos_persisted.
  destruct (isOnline s1) eqn:Ho.
  - rewrite (commit_online _ _ _ _ Ho). cbn. now rewrite (todos_saved_writable _ Hw).
  - rewrite (commit_offline _ _ _ _ Ho), saveTodos_eq, savePendingSync_eq. cbn.
    rewrite todos_saved_writable; cbn; [reflexivity |].
    now rewrite pendingSync_saved_writable by exact Hw.
Qed.

(** X19: [clearCache] takes both keys out of the store and leaves the state
    in memory alone but for the notification: nothing is replayed and
    nothing is dropped from memory.  The store it leaves is one from
    which the constructor builds the empty app; but the reload comes a
    second later, and a mutation that takes effect in between saves the
    whole collection again, if the store can be written.  When the
    caches cannot be deleted or the store cannot be reached it reports
    the failure and removes nothing; where there is no Cache API it does
    nothing at all. *)
Theorem clearCache_clears_store_only (hasCaches cachesDeleted : bool) (s : App) :
  let s' := clearCache hasCaches cachesDeleted s in
  forget_store (set_notifications (notifications s) s') = forget_store s /\
  (hasCaches = false -> s' = s) /\
  (hasCaches = true ->
   (cachesDeleted = false \/ ls_denied (localStorage s) = true) ->
   localStorage s' = localStorage s /\
   notifications s' = notifications s ++ [("Failed to clear cache", Error)]) /\
  (hasCaches = true -> cachesDeleted = true -> ls_denied (localStorage s) = false ->
   notifications s' = notifications s ++ [("Cache cleared successfully!", Success)] /\
   ls_todos (localStorage s') = None /\ ls_pendingSync (localStorage s') = None /\
   (forall onLine,
      constructor onLine (localStorage s')
        = Some (set_localStorage (localStorage s') (fresh_install onLine))) /\
   (forall ev,
      is_mutation ev -> handle ev s' <> s' -> ls_full (localStorage s) = false ->
      todos_persisted (handle ev s'))).
Proof.
  intros s'. subst s'.
  split; [| split; [| split]].
  - unfold clearCache, removeItem.
    destruct hasCaches, cachesDeleted, (ls_denied (localStorage s)); cbn; now destruct s.
  - now intros ->.
  - intros -> H. unfold clearCache, removeItem.
    destruct H as [-> | ->]; [now split |]. destruct cachesDeleted; now split.
  - intros -> -> Hd. unfold clearCache, removeItem. rewrite Hd. cbn.
    split; [reflexivity |]. split; [reflexivity |]. split; [reflexivity |].
    split; [intros onLine; reflexivity |].
    intros ev Hm Hne Hf.
    apply effect_saves_todos; [exact Hm | | exact Hne]. split; [reflexivity | exact Hf].
Qed.

Lemma clearCache_clears_store_only_witness :
  length (pendingSync (clearCache true true three_queued)) = 3%nat /\
  constructor true (localStorage (clearCache true true three_queued))
    = Some (set_localStorage (localStorage (clearCache true true three_queued))
                             (fresh_install true)) /\
  todos_persisted (handle (Toggle 6 (at_ms 9)) (clearCache true true three_queued)) /\
  (exists s,
     constructor true
       (localStorage (handle (Toggle 6 (at_ms 9)) (clearCache true true three_queued)))
       = Some s /\
     length (todos s) = 3%nat).
Proof.
  split; [reflexivity |].
  destruct (clearCache_clears_store_only true true three_queued) as (_ & _ & _ & H).
  destruct (H eq_refl eq_refl eq_refl) as (_ & _ & _ & Hc & Hm).
  split; [exact (Hc true) |]. split.
  - apply Hm; [exact I | | reflexivity].
    intros E. apply (f_equal (fun x => length (remoteCalls x))) in E.
    vm_compute in E. discriminate E.
  - eexists. split; [vm_compute; reflexivity | reflexivity].
Defined.

(** ** Entries queued while a drain is suspended *)

(** X20: the [for ... of] loop reads the array as it is when asked for
    the next entry.  A mutation made offline while a drain is suspended
    at the last entry of the current array appends its entry to that
    array, and when the awaited call resolves the drain does not finish:
    it sends the new entry, although the app is offline, and the queue
    is not cleared yet. *)
Theorem drain_picks_up_new_entry (ev : Event) (k : nat) (b : bool) (d : Drain) (s : App) :
  drains s !! k = Some d ->
  d_array d = length (detached s) -> d_next d = length (pendingSync s) ->
  isOnline s = false -> is_mutation ev -> handle ev s <> s ->
  exists it,
    pendingSync (handle ev s) = pendingSync s ++ [it] /\
    remoteCalls (handle (ApiDone k (Resolved b)) (handle ev s))
      = remoteCalls s ++ [call_of it] /\
    pendingSync (handle (ApiDone k (Resolved b)) (handle ev s)) = pendingSync s ++ [it] /\
    isOnline (handle (ApiDone k (Resolved b)) (handle ev s)) = false.
Proof.
  intros Ek Ha Hn Hoff Hm Hne.
  destruct (mutation_takes_effect ev s Hm)
    as [E | a d0 c s1 E Hon Hq Hrc _ Hdet Hdr _ _]; [contradiction |].
  rewrite Hoff in Hon.
  assert (E1 : handle ev s
               = saveTodos (savePendingSync
                   (set_pendingSync (pendingSync s1 ++ [queued a d0 c]) s1)))
    by (rewrite E; now apply commit_offline).
  rewrite saveTodos_eq, savePendingSync_eq in E1.
  set (S1 := handle ev s) in *.
  assert (Hq1 : pendingSync S1 = pendingSync s ++ [queued a d0 c])
    by (rewrite E1; cbn; now rewrite Hq).
  assert (Hd1 : drains S1 = drains s) by (rewrite E1; exact Hdr).
  assert (Hdet1 : detached S1 = detached s) by (rewrite E1; exact Hdet).
  assert (Hrc1 : remoteCalls S1 = remoteCalls s) by (rewrite E1; exact Hrc).
  assert (Hon1 : isOnline S1 = false) by (rewrite E1; exact Hon).
  assert (Harr : array_at S1 (d_array d) !! d_next d = Some (queued a d0 c)).
  { unfold array_at. rewrite Hdet1, Ha, Nat.eqb_refl, Hq1, Hn.
    rewrite lookup_app_r by lia. now rewrite Nat.sub_diag. }
  exists (queued a d0 c). split; [exact Hq1 |]. cbn [handle].
  destruct (resume_settlement k (Resolved b) S1)
    as [En _ | d' _ Eo _ | d' b' it' Ek' _ Ea' -> | d' b' Ek' _ Ea' _].
  - rewrite Hd1, Ek in En. discriminate En.
  - discriminate Eo.
  - rewrite Hd1, Ek in Ek'. injection Ek' as <-. rewrite Harr in Ea'.
    injection Ea' as <-. cbn. rewrite Hrc1, Hq1, Hon1. now repeat split.
  - rewrite Hd1, Ek in Ek'. injection Ek' as <-. rewrite Harr in Ea'. discriminate Ea'.
Qed.

Lemma drain_picks_up_new_entry_witness :
  remoteCalls (handle (ApiDone 0 (Resolved true)) (handle (Toggle 5 (at_ms 9)) one_in_flight))
    = [(create, TodoRef 0%nat); (update, TodoRef 0%nat)] /\
  length (pendingSync (handle (ApiDone 0 (Resolved true))
                        (handle (Toggle 5 (at_ms 9)) one_in_flight))) = 2%nat.
Proof.
  assert (Hne : handle (Toggle 5 (at_ms 9)) one_in_flight <> one_in_flight).
  { intros E. apply (f_equal (fun x => length (pendingSync x))) in E.
    vm_compute in E. discriminate E. }
  destruct (drain_picks_up_new_entry (Toggle 5 (at_ms 9)) 0 true
              {| d_array := 0; d_next := 1; d_item := queued create (TodoRef 0%nat) (at_ms 5) |}
              one_in_flight eq_refl eq_refl eq_refl eq_refl I Hne)
    as (it & Hq & Hc & Hq2 & _).
  assert (Hit : it = queued update (TodoRef 0%nat) (at_ms 9)).
  { vm_compute in Hq. now injection Hq as <-. }
  subst it. split; [rewrite Hc; reflexivity | rewrite Hq2; reflexivity].
Defined.
